(** * Membrane_analysis.py: per-frame spatial binning and slab profiles

    A shallow embedding of [Membrane_properties.Get_info] and
    [Membrane_properties.Prep4plot] (Scripts/Membrane_analysis.py), and
    the properties of the binning engine proved or refuted on it.

    Numbers.  Atom coordinates, box lengths and the cell sizes [d], [dh]
    are floats in the script; they are embedded as exact rationals ([Q]),
    so that [int(x/d)] is the truncated exact quotient.  Integer counters
    (numpy [int] arrays, Python [int]) are embedded as [Z]; they count
    atoms, cells and frames and stay far from the 64-bit bound of numpy,
    whose wrap-around is not written out.  [d] is never zero in a
    constructed object ([__init__] divides by it), and [dh] is never
    zero once grid sizing has returned.  The script rounds every
    quotient and product to a float, so a statement that needs an exact
    value at a cell boundary, or an exact product, is not a statement
    about the script; the further properties of the script, in the
    second part of this file, speak of the cell that a subscript
    designates, of counts of atoms and cells, and of positions inside a
    box, where rounding keeps the order.

    Exceptions.  A subscript that raises [IndexError] is [None]; a [try]
    block is the match on it, with the mutations made before the raise
    kept.  A function that can raise out of the script returns an
    [option].

    The trajectory.  [pbc] and [pbc_plane] belong to the trajectory
    library side of the script; a trajectory is given as the list, by
    frame index, of the frames as they are once re-centred. *)

From Stdlib Require Import ZArith QArith Qround Lia Lqa String.
From stdpp Require Import base option list.

Local Open Scope Z_scope.

(** ** Python and numpy primitives *)

Module Py.

(** [int(x)] on a float: truncation toward zero. *)
Definition int (q : Q) : Z := Z.quot (Qnum q) (Zpos (Qden q)).

(** Subscript normalisation shared by Python lists and numpy axes: an
    index [i] of a sequence of length [n] is accepted when
    [-n <= i < n]; a negative one counts from the end.  [None] stands
    for [IndexError]. *)
Definition index (n : nat) (i : Z) : option nat :=
  if decide (0 <= i < Z.of_nat n) then Some (Z.to_nat i)
  else if decide (- Z.of_nat n <= i < 0) then Some (Z.to_nat (Z.of_nat n + i))
  else None.

(** [l[i]] *)
Definition get {A} (l : list A) (i : Z) : option A :=
  k ← index (length l) i; l !! k.

(** [len(l)] *)
Definition len {A} (l : list A) : Z := Z.of_nat (length l).

(** [range(start, stop, step)]; [None] is the [ValueError] of a zero
    step. *)
Fixpoint range_from (len : nat) (start step : Z) : list Z :=
  match len with
  | O => []
  | S k => start :: range_from k (start + step) step
  end.

Definition range (start stop step : Z) : option (list Z) :=
  if decide (step = 0) then None
  else if decide (0 < step)
  then Some (range_from (Z.to_nat ((stop - start + step - 1) / step)) start step)
  else Some (range_from (Z.to_nat ((start - stop - step - 1) / (- step))) start step).

End Py.

(** numpy arrays of shape (nz), (nz,nx) and (nz,nx,ny) are nested lists;
    the shape of an array is read off the nesting. *)
Abbreviation vector := (list Z).
Abbreviation plane := (list (list Z)).
Abbreviation volume := (list (list (list Z))).

Module Np.

(** [np.zeros((nz,nx,ny), dtype=int)] *)
Definition zeros3 (nz nx ny : nat) : volume :=
  replicate nz (replicate nx (replicate ny 0)).

(** [a.shape == (nz,nx,ny)] *)
Definition shaped (nz nx ny : nat) (a : volume) : Prop :=
  length a = nz ∧
  Forall (λ s : plane, length s = nx ∧ Forall (λ r : vector, length r = ny) s) a.

(** The subscript check against a shape. *)
Definition locate_dims (nz nx ny : nat) (iz ix iy : Z) : option (nat * nat * nat) :=
  kz ← Py.index nz iz; kx ← Py.index nx ix; ky ← Py.index ny iy; Some (kz, kx, ky).

(** The cell that the subscript [a[iz,ix,iy]] designates, each axis
    normalised against its own extent; [None] is [IndexError]. *)
Definition locate (a : volume) (iz ix iy : Z) : option (nat * nat * nat) :=
  kz ← Py.index (length a) iz; s ← a !! kz;
  kx ← Py.index (length s) ix; r ← s !! kx;
  ky ← Py.index (length r) iy; Some (kz, kx, ky).

Definition cell (a : volume) (k : nat * nat * nat) : option Z :=
  let '(kz, kx, ky) := k in
  s ← a !! kz; r ← s !! kx; r !! ky.

Definition alter3 (f : Z → Z) (k : nat * nat * nat) (a : volume) : volume :=
  let '(kz, kx, ky) := k in alter (alter (alter f ky) kx) kz a.

(** reading [a[iz,ix,iy]] *)
Definition get3 (a : volume) (iz ix iy : Z) : option Z :=
  k ← locate a iz ix iy; cell a k.

(** [a[iz,ix,iy] = f(a[iz,ix,iy])], as in [+= 1] and [= 1] *)
Definition upd3 (f : Z → Z) (a : volume) (iz ix iy : Z) : option volume :=
  k ← locate a iz ix iy; Some (alter3 f k a).

(** [np.count_nonzero] of a vector and of a plane *)
Definition count_nonzero1 (r : vector) : Z :=
  Z.of_nat (length (filter (λ c, c ≠ 0) r)).

Definition count_nonzero (s : plane) : Z :=
  foldr (λ r acc, count_nonzero1 r + acc) 0 s.

(** [np.sum] of a vector and of a plane *)
Definition sum1 (r : vector) : Z := foldr Z.add 0 r.
Definition sum2 (s : plane) : Z := foldr (λ r acc, sum1 r + acc) 0 s.

(** Storing a float into an array of [dtype=int]: the C cast, which
    truncates toward zero. *)
Definition store_int (q : Q) : Z := Py.int q.

End Np.

(** ** Data model *)

(** An atom of a selection: [t.resid], [t.resname] and its row of
    [positions], (x, y, z). *)
Record Atom := {
  resid : Z;
  resname : string;
  position : Q * Q * Q
}.

(** What [Get_info] reads of the current frame once [pbc] or [pbc_plane]
    has re-centred it: the value that call returns, the box lengths and
    the four selections. *)
Record Frame := {
  Rgr_of : Q;
  dimensions : Q * Q * Q;
  u_mem_sel_m : list Atom;
  u_mem_sel_m_a : list Atom;
  u_mem_sel_p : list Atom;
  u_mem_sel_w : list Atom
}.

(** The fields of [self] that [Get_info] and [Prep4plot] read. *)
Record Config := {
  dz : Q;
  dh : Q;
  sel_m : string;
  sel_m_a : string;
  interval : Z * Z * Z
}.

(** The two diagnostics printed for atoms that raise [IndexError]; each
    carries [t.resname], the position, the grid size (nx, ny, nz) and
    the computed index (ix, iy, iz). *)
Inductive warning :=
| MembraneOut (rn : string) (pos : Q * Q * Q) (size : nat * nat * nat) (idx : Z * Z * Z)
| ProteinOut (rn : string) (pos : Q * Q * Q) (size : nat * nat * nat) (idx : Z * Z * Z).

(** State left behind by a [try] block: it ran to its end, or it raised
    after the mutations recorded in the state. *)
Inductive outcome (S : Type) :=
| Done (s : S)
| Raised (s : S).
Arguments Done {S} s.
Arguments Raised {S} s.

Definition state_of {S} (o : outcome S) : S :=
  match o with Done s => s | Raised s => s end.

(** ** [__init__] and grid sizing *)

(** [self.margin = max(2,int(4.0/d)+1)] *)
Definition margin (d : Q) : Z := Z.max 2 (Py.int (4 / d) + 1).

(** [self.nz], [self.nx], [self.ny] *)
Definition grid_size (c : Config) (f0 : Frame) : Z * Z * Z :=
  let '(bx, by_, bz) := dimensions f0 in
  (Py.int (bz / dh c) + margin (dz c) + 1,
   Py.int (bx / dz c) + margin (dz c),
   Py.int (by_ / dz c) + margin (dz c)).

(** ** One iteration of the frame loop of [Get_info] *)

(** [ix = (int)(at[0]/self.dz)], [iy = (int)(at[1]/self.dz)],
    [iz = (int)(at[2]/self.dh)], returned in subscript order. *)
Definition cell_index (d h : Q) (pos : Q * Q * Q) : Z * Z * Z :=
  let '(x, y, z) := pos in
  (Py.int (z / h), Py.int (x / d), Py.int (y / d)).

(** The membrane bookkeeping of a frame. *)
Record MemAcc := {
  mem_slab0 : volume;
  mem_resid_slab0 : volume;
  resid_list : list (list Z);
  resid_list_zx : list (list (list Z));
  mem_log : list warning
}.

Definition mem_init (nz nx ny : nat) : MemAcc :=
  {| mem_slab0 := Np.zeros3 nz nx ny;
     mem_resid_slab0 := Np.zeros3 nz nx ny;
     resid_list := replicate nz [];
     resid_list_zx := replicate nz (replicate nx []);
     mem_log := [] |}.

Definition mem_warn (w : warning) (st : MemAcc) : MemAcc :=
  {| mem_slab0 := mem_slab0 st; mem_resid_slab0 := mem_resid_slab0 st;
     resid_list := resid_list st; resid_list_zx := resid_list_zx st;
     mem_log := mem_log st ++ [w] |}.

(** The statement
      [if n not in resid_list[iz]:
           resid_list[iz].append(n)
           resid_list_zx[iz][ix].append(n)]
    on the two list structures. *)
Definition register (n iz ix : Z) (rl : list (list Z)) (rlzx : list (list (list Z)))
  : outcome (list (list Z) * list (list (list Z))) :=
  match Py.index (length rl) iz with
  | None => Raised (rl, rlzx)
  | Some kz =>
    match rl !! kz with
    | None => Raised (rl, rlzx)
    | Some ids =>
      if decide (n ∈ ids) then Done (rl, rlzx)
      else
        let rl' := alter (λ l, l ++ [n]) kz rl in
        match Py.index (length rlzx) iz with
        | None => Raised (rl', rlzx)
        | Some kz' =>
          match rlzx !! kz' with
          | None => Raised (rl', rlzx)
          | Some row =>
            match Py.index (length row) ix with
            | None => Raised (rl', rlzx)
            | Some kx => Done (rl', alter (alter (λ l, l ++ [n]) kx) kz' rlzx)
            end
          end
        end
    end
  end.

Definition with_lists (st : MemAcc) (p : list (list Z) * list (list (list Z))) : MemAcc :=
  {| mem_slab0 := mem_slab0 st; mem_resid_slab0 := mem_resid_slab0 st;
     resid_list := p.1; resid_list_zx := p.2; mem_log := mem_log st |}.

Definition with_mem (st : MemAcc) (m : volume) : MemAcc :=
  {| mem_slab0 := m; mem_resid_slab0 := mem_resid_slab0 st;
     resid_list := resid_list st; resid_list_zx := resid_list_zx st;
     mem_log := mem_log st |}.

Definition with_mem_resid (st : MemAcc) (m : volume) : MemAcc :=
  {| mem_slab0 := mem_slab0 st; mem_resid_slab0 := m;
     resid_list := resid_list st; resid_list_zx := resid_list_zx st;
     mem_log := mem_log st |}.

Section Frame_pass.

Variables (d h : Q) (nz nx ny : nat).

Definition warn_membrane (t : Atom) : warning :=
  let '(iz, ix, iy) := cell_index d h (position t) in
  MembraneOut (resname t) (position t) (nx, ny, nz) (ix, iy, iz).

Definition warn_protein (t : Atom) : warning :=
  let '(iz, ix, iy) := cell_index d h (position t) in
  ProteinOut (resname t) (position t) (nx, ny, nz) (ix, iy, iz).

(** Branch [sel_m_a != sel_m], first loop: all membrane atoms. *)
Definition step_all (st : MemAcc) (t : Atom) : MemAcc :=
  let '(iz, ix, iy) := cell_index d h (position t) in
  match Np.upd3 Z.succ (mem_slab0 st) iz ix iy with
  | Some m => with_mem st m
  | None => mem_warn (warn_membrane t) st
  end.

(** Branch [sel_m_a != sel_m], second loop: the head subset, with its
    two [try] blocks whose handlers are [pass]. *)
Definition step_head (st : MemAcc) (t : Atom) : MemAcc :=
  let '(iz, ix, iy) := cell_index d h (position t) in
  let st1 :=
    match Np.upd3 Z.succ (mem_resid_slab0 st) iz ix iy with
    | Some m => with_mem_resid st m
    | None => st
    end in
  with_lists st1
    (state_of (register (resid t) iz ix (resid_list st1) (resid_list_zx st1))).

(** Branch [sel_m_a == sel_m]: one loop, one [try] block. *)
Definition try_same (st : MemAcc) (t : Atom) : outcome MemAcc :=
  let '(iz, ix, iy) := cell_index d h (position t) in
  match Np.upd3 Z.succ (mem_slab0 st) iz ix iy with
  | None => Raised st
  | Some m =>
    let st1 := with_mem st m in
    match register (resid t) iz ix (resid_list st1) (resid_list_zx st1) with
    | Done p => Done (with_lists st1 p)
    | Raised p => Raised (with_lists st1 p)
    end
  end.

Definition step_same (st : MemAcc) (t : Atom) : MemAcc :=
  match try_same st t with
  | Done s => s
  | Raised s => mem_warn (warn_membrane t) s
  end.

Definition membrane_pass (same : bool) (atoms_m atoms_m_a : list Atom) : MemAcc :=
  if same then foldl step_same (mem_init nz nx ny) atoms_m
  else foldl step_head (foldl step_all (mem_init nz nx ny) atoms_m_a) atoms_m.

(** The protein loop: [prot_slab1] and the diagnostics it prints. *)
Definition step_prot (mem : volume) (st : volume * list warning) (t : Atom)
  : volume * list warning :=
  let '(iz, ix, iy) := cell_index d h (position t) in
  match Np.get3 mem iz ix iy with
  | None => (st.1, st.2 ++ [warn_protein t])
  | Some m =>
    if decide (m = 0) then
      match Np.upd3 Z.succ st.1 iz ix iy with
      | Some p => (p, st.2)
      | None => (st.1, st.2 ++ [warn_protein t])
      end
    else st
  end.

Definition protein_pass (mem : volume) (atoms_p : list Atom) : volume * list warning :=
  foldl (step_prot mem) (Np.zeros3 nz nx ny, []) atoms_p.

(** The water loop: [wat_slab2]; its handler is [pass]. *)
Definition step_wat (mem prot : volume) (wat : volume) (t : Atom) : volume :=
  let '(iz, ix, iy) := cell_index d h (position t) in
  match Np.get3 prot iz ix iy with
  | None => wat
  | Some p =>
    if decide (p = 0) then
      match Np.get3 mem iz ix iy with
      | None => wat
      | Some m =>
        if decide (m = 0) then
          match Np.upd3 (λ _, 1) wat iz ix iy with
          | Some w => w
          | None => wat
          end
        else wat
      end
    else wat
  end.

Definition water_pass (mem prot : volume) (atoms_w : list Atom) : volume :=
  foldl (step_wat mem prot) (Np.zeros3 nz nx ny) atoms_w.

(** [np.count_nonzero(slab)*self.dz*self.dz] stored into an array
    created with [dtype = int]. *)
Definition slab_area (s : plane) : Z :=
  Np.store_int (inject_Z (Np.count_nonzero s) * d * d).

End Frame_pass.

(** What one iteration appends to the per-frame sequences of [self],
    under the names of those sequences, with the diagnostics printed
    during the iteration. *)
Record FrameData := {
  tot_area : vector;
  wat_area : vector;
  mem_area : vector;
  prot_area : vector;
  mem_slab : volume;
  mem_resid_slab : volume;
  wat_slab : volume;
  prot_slab : volume;
  resid_array : vector;
  resid_array_zx : plane;
  printed : list warning
}.

Definition same_selection (c : Config) : bool :=
  String.eqb (sel_m_a c) (sel_m c).

(** The protein loop, the water loop and the reduction to per-slab
    profiles, which follow the membrane loops. *)
Definition after_membrane (c : Config) (nz nx ny : nat) (ms : MemAcc)
  (atoms_p atoms_w : list Atom) : FrameData :=
  let pp := protein_pass (dz c) (dh c) nz nx ny (mem_slab0 ms) atoms_p in
  let wat := water_pass (dz c) (dh c) nz nx ny (mem_slab0 ms) pp.1 atoms_w in
  let prot_area1 := slab_area (dz c) <$> pp.1 in
  let mem_area1 := slab_area (dz c) <$> mem_slab0 ms in
  let wat_area1 := slab_area (dz c) <$> wat in
  {| tot_area := zip_with Z.add (zip_with Z.add prot_area1 mem_area1) wat_area1;
     wat_area := wat_area1;
     mem_area := mem_area1;
     prot_area := prot_area1;
     mem_slab := mem_slab0 ms;
     mem_resid_slab := mem_resid_slab0 ms;
     wat_slab := wat;
     prot_slab := pp.1;
     resid_array := Py.len <$> resid_list ms;
     resid_array_zx := fmap (M := list) Py.len <$> resid_list_zx ms;
     printed := mem_log ms ++ pp.2 |}.

Definition frame_pass (c : Config) (nz nx ny : nat) (f : Frame) : FrameData :=
  after_membrane c nz nx ny
    (membrane_pass (dz c) (dh c) nz nx ny (same_selection c)
       (u_mem_sel_m f) (u_mem_sel_m_a f))
    (u_mem_sel_p f) (u_mem_sel_w f).

(** ** [Get_info]: grid sizing and the frame loop *)

(** [self] after [Get_info].  The script keeps one Python list per
    quantity, all appended to together at the end of an iteration; they
    are kept here as one list of per-frame records. *)
Record Run := {
  nz_of : Z;
  nx_of : Z;
  ny_of : Z;
  frames_of : list FrameData;
  Rgr : list Q
}.

(** One iteration: [u_mem.trajectory[i]] ([IndexError] when [i] is not a
    frame of the trajectory), re-centring, and the slab pass on arrays
    made by [np.zeros((nz,nx,ny))] ([ValueError] on a negative extent). *)
Definition iteration (c : Config) (traj : list Frame) (nz nx ny : Z) (i : Z)
  : option (Q * FrameData) :=
  f ← Py.get traj i;
  if decide (0 <= nz ∧ 0 <= nx ∧ 0 <= ny)
  then Some (Rgr_of f, frame_pass c (Z.to_nat nz) (Z.to_nat nx) (Z.to_nat ny) f)
  else None.

(** [traj] lists, by trajectory index, the frames as [pbc]/[pbc_plane]
    leave them.  The statements of [Get_info] that precede the grid
    sizing (loading the two universes, [Rgr0], the two [self.plot_3D]
    calls) run in the libraries and are not embedded: [Some run] is the
    result of a call in which they have returned, and nothing below says
    that they do. *)
Definition Get_info (c : Config) (traj : list Frame) : option Run :=
  let '(start_analysis, stop0, step_analysis) := interval c in
  let stop_analysis := if decide (stop0 < 0) then Py.len traj else stop0 in
  first ← Py.get traj 0;
  let '(nz, nx, ny) := grid_size c first in
  todo ← Py.range start_analysis stop_analysis step_analysis;
  records ← mapM (iteration c traj nz nx ny) todo;
  Some {| nz_of := nz; nx_of := nx; ny_of := ny;
          frames_of := records.*2; Rgr := records.*1 |}.

(** ** [Prep4plot] *)

(** The quotient of two numpy numbers; [None] is the [inf] or [nan]
    that a zero divisor produces. *)
Definition true_divide (x y : Q) : option Q :=
  if Qeq_bool y 0 then None else Some (x / y)%Q.

(** A float compared with a literal; comparisons with [nan] are false. *)
Definition exceeds (x : option Q) (bound : Q) : bool :=
  match x with
  | Some q => if Qlt_le_dec bound q then true else false
  | None => false
  end.

(** [np.argwhere(v > 0)], flattened. *)
Fixpoint argwhere_pos (from : Z) (v : vector) : list Z :=
  match v with
  | [] => []
  | x :: rest =>
    if decide (0 < x) then from :: argwhere_pos (from + 1) rest
    else argwhere_pos (from + 1) rest
  end.

(** [np.sum(np.sum(a, axis=2), axis=1)] *)
Definition atoms_per_slab (a : volume) : vector := Np.sum2 <$> a.

(** One entry of [dens_p0]. *)
Definition dens_p_entry (a d : Z) : option Q :=
  if decide (0 < a) then true_divide (inject_Z d) (inject_Z a) else Some 0%Q.

(** One entry of [dens_m0] and of [dens_r0]. *)
Definition dens_m_entry (a : Q) (d r : Z) : option Q :=
  if Qlt_le_dec 0 a then
    if decide (0 < r) then true_divide (inject_Z d) a else Some 0%Q
  else Some 0%Q.

Definition threshold : Q := 25 # 1000.

Definition dens_r_entry (a : Q) (d r : Z) : option Q :=
  if Qlt_le_dec 0 a then
    if decide (0 < r) then
      if exceeds (true_divide (inject_Z d) a) threshold
      then true_divide a (inject_Z r) else Some 0%Q
    else Some 0%Q
  else Some 0%Q.

(** [area_xy = self.nx*self.ny*self.dz*self.dz] *)
Definition area_xy (c : Config) (nx ny : Z) : Q :=
  (inject_Z nx * inject_Z ny * dz c * dz c)%Q.

(** [area_m = (area_xy-self.prot_area[frame])] *)
Definition area_m (c : Config) (nx ny : Z) (fd : FrameData) : list Q :=
  (λ a, area_xy c nx ny - inject_Z a)%Q <$> prot_area fd.

Definition dens_p_frame (fd : FrameData) : list (option Q) :=
  zip_with dens_p_entry (prot_area fd) (atoms_per_slab (prot_slab fd)).

Definition zip3_with {A B C D} (f : A → B → C → D)
  (la : list A) (lb : list B) (lc : list C) : list D :=
  zip_with (λ ab c, f ab.1 ab.2 c) (zip la lb) lc.

Definition dens_m_frame (c : Config) (nx ny : Z) (fd : FrameData) : list (option Q) :=
  zip3_with dens_m_entry (area_m c nx ny fd)
    (atoms_per_slab (mem_slab fd)) (resid_array fd).

Definition m_r_per_area_frame (c : Config) (nx ny : Z) (fd : FrameData) : list (option Q) :=
  zip3_with dens_r_entry (area_m c nx ny fd)
    (atoms_per_slab (mem_slab fd)) (resid_array fd).

(** The fields of [self] that the window loop reads and writes. *)
Record Maps := {
  start_mem : Z;
  stop_mem : Z;
  step_mem : Z;
  mem_slab_frame : list plane;
  mem_resid_slab_frame : list plane;
  prot_slab_frame : list plane;
  area_x : list (list Q);
  mem_slab_frame_zx : list vector
}.

(** [np.add] on planes, vectors and float vectors *)
Definition add2 (a b : plane) : plane := zip_with (zip_with Z.add) a b.
Definition add1 (a b : vector) : vector := zip_with Z.add a b.
Definition addq (a b : list Q) : list Q := zip_with Qplus a b.

(** [self.dz*self.dz*(self.nx-np.count_nonzero(s,axis=1))] *)
Definition free_area_x (c : Config) (nx : Z) (s : plane) : list Q :=
  (λ r, dz c * dz c * inject_Z (nx - Np.count_nonzero1 r))%Q <$> s.

(** [acc.append(x)] in frame 0, [acc[i] = np.add(acc[i], x)] later. *)
Definition accumulate {A} (add : A → A → A) (frame i : nat) (x : A) (acc : list A)
  : option (list A) :=
  match frame with
  | O => Some (acc ++ [x])
  | S _ => old ← acc !! i; Some (<[i := add old x]> acc)
  end.

(** The body of [for i,z in enumerate(range(start_mem,stop_mem,step_mem))]. *)
Definition window_step (c : Config) (nx : Z) (frame : nat) (fd : FrameData)
  (st : Maps) (iz : nat * Z) : option Maps :=
  m ← Py.get (mem_slab fd) iz.2;
  mr ← Py.get (mem_resid_slab fd) iz.2;
  p ← Py.get (prot_slab fd) iz.2;
  zx ← Py.get (resid_array_zx fd) iz.2;
  a1 ← accumulate add2 frame iz.1 m (mem_slab_frame st);
  a2 ← accumulate add2 frame iz.1 mr (mem_resid_slab_frame st);
  a3 ← accumulate add2 frame iz.1 p (prot_slab_frame st);
  a4 ← accumulate addq frame iz.1 (free_area_x c nx p) (area_x st);
  a5 ← accumulate add1 frame iz.1 zx (mem_slab_frame_zx st);
  Some {| start_mem := start_mem st; stop_mem := stop_mem st;
          step_mem := step_mem st;
          mem_slab_frame := a1; mem_resid_slab_frame := a2;
          prot_slab_frame := a3; area_x := a4; mem_slab_frame_zx := a5 |}.

(** A loop whose body may raise. *)
Fixpoint foldM {S X} (body : S → X → option S) (st : S) (xs : list X) : option S :=
  match xs with
  | [] => Some st
  | x :: rest => st' ← body st x; foldM body st' rest
  end.

Definition enumerate {X} (xs : list X) : list (nat * X) := zip (seq 0 (length xs)) xs.

(** The window loop of one frame, reading the window from [self]. *)
Definition window_pass (c : Config) (nx : Z) (st : Maps) (ffd : nat * FrameData)
  : option Maps :=
  win ← Py.range (start_mem st) (stop_mem st) (step_mem st);
  foldM (window_step c nx ffd.1 ffd.2) st (enumerate win).

(** What [Prep4plot] adds to [self]. *)
Record Plot := {
  dens_p : list (list (option Q));
  dens_m : list (list (option Q));
  m_r_per_area : list (list (option Q));
  maps : Maps
}.

Definition Prep4plot (c : Config) (r : Run) : option Plot :=
  first ← frames_of r !! 0%nat;
  lo ← head (argwhere_pos 0 (resid_array first));
  hi ← last (argwhere_pos 0 (resid_array first));
  let st0 := {| start_mem := lo - 2; stop_mem := hi + 2; step_mem := 2;
                mem_slab_frame := []; mem_resid_slab_frame := [];
                prot_slab_frame := []; area_x := []; mem_slab_frame_zx := [] |} in
  st ← foldM (window_pass c (nx_of r)) st0 (enumerate (frames_of r));
  Some {| dens_p := dens_p_frame <$> frames_of r;
          dens_m := dens_m_frame c (nx_of r) (ny_of r) <$> frames_of r;
          m_r_per_area := m_r_per_area_frame c (nx_of r) (ny_of r) <$> frames_of r;
          maps := st |}.

(** ** Definitions that follow the wording of the specification *)

(** Floor division of each coordinate by its axis's cell size. *)
Definition floor_index (d h : Q) (pos : Q * Q * Q) : Z * Z * Z :=
  let '(x, y, z) := pos in
  (Qfloor (z / h), Qfloor (x / d), Qfloor (y / d)).

(** Rounding toward zero, said with floor and ceiling. *)
Definition toward_zero (q : Q) : Z :=
  if Qle_bool 0 q then Qfloor q else Qceiling q.

(** [margin = max(2, floor(4/dz)+1)] and
    [nz = floor(box_z/dh) + margin + 1], [nx = floor(box_x/dz) + margin],
    [ny = floor(box_y/dz) + margin]. *)
Definition floor_margin (d : Q) : Z := Z.max 2 (Qfloor (4 / d) + 1).

Definition floor_grid_size (d h : Q) (box : Q * Q * Q) : Z * Z * Z :=
  let '(bx, by_, bz) := box in
  (Qfloor (bz / h) + floor_margin d + 1,
   Qfloor (bx / d) + floor_margin d,
   Qfloor (by_ / d) + floor_margin d).

(** Following the specification: the index lies in
    [0,nz) x [0,nx) x [0,ny). *)
Definition in_range (nz nx ny : nat) (idx : Z * Z * Z) : bool :=
  let '(iz, ix, iy) := idx in
  bool_decide (0 <= iz < Z.of_nat nz) && bool_decide (0 <= ix < Z.of_nat nx)
  && bool_decide (0 <= iy < Z.of_nat ny).

(** Following the specification: the number of distinct residue ids
    among the in-range atoms of a selection that map to slab [z]. *)
Definition distinct_residues (d h : Q) (nz nx ny : nat) (atoms : list Atom) (z : Z) : Z :=
  Py.len (remove_dups (resid <$>
    filter (λ t, in_range nz nx ny (cell_index d h (position t)) = true ∧
                 (cell_index d h (position t)).1.1 = z) atoms)).

(** Following the specification: the first and the last slab index with
    a nonzero residue count. *)
Definition first_nonzero (v : vector) (k : nat) : Prop :=
  (∃ x, v !! k = Some x ∧ x ≠ 0) ∧ ∀ j x, (j < k)%nat → v !! j = Some x → x = 0.

Definition last_nonzero (v : vector) (k : nat) : Prop :=
  (∃ x, v !! k = Some x ∧ x ≠ 0) ∧ ∀ j x, (k < j)%nat → v !! j = Some x → x = 0.

(** What a frame contributes to each 2D map at slab [z]. *)
Definition mem_at (fd : FrameData) (z : Z) : option plane := Py.get (mem_slab fd) z.
Definition mem_resid_at (fd : FrameData) (z : Z) : option plane := Py.get (mem_resid_slab fd) z.
Definition prot_at (fd : FrameData) (z : Z) : option plane := Py.get (prot_slab fd) z.
Definition free_area_at (c : Config) (nx : Z) (fd : FrameData) (z : Z) : option (list Q) :=
  free_area_x c nx <$> Py.get (prot_slab fd) z.
Definition resid_zx_at (fd : FrameData) (z : Z) : option vector := Py.get (resid_array_zx fd) z.

(** Following the specification: for each slab of one fixed window, the
    sum over all frames of what the frames contribute at that slab. *)
Definition window_sums {A} (add : A → A → A) (at_ : FrameData → Z → option A)
  (win : list Z) (fds : list FrameData) : option (list A) :=
  match fds with
  | [] => None
  | f0 :: rest =>
    x0 ← mapM (at_ f0) win;
    foldM (λ acc fd, xs ← mapM (at_ fd) win; Some (zip_with add acc xs)) x0 rest
  end.

(** ** Vocabulary of the statements *)

(** The subscript of an atom is refused by the arrays of the grid: some
    component is at or beyond its extent, or below minus its extent. *)
Definition rejected (d h : Q) (nz nx ny : nat) (t : Atom) : Prop :=
  let '(iz, ix, iy) := cell_index d h (position t) in
  Np.locate_dims nz nx ny iz ix iy = None.

(** The z component alone is refused. *)
Definition rejected_z (d h : Q) (nz : nat) (t : Atom) : Prop :=
  Py.index nz (cell_index d h (position t)).1.1 = None.

(** The numbers of a frame record, without what was printed. *)
Definition silent (fd : FrameData) : FrameData :=
  {| tot_area := tot_area fd; wat_area := wat_area fd; mem_area := mem_area fd;
     prot_area := prot_area fd; mem_slab := mem_slab fd;
     mem_resid_slab := mem_resid_slab fd; wat_slab := wat_slab fd;
     prot_slab := prot_slab fd; resid_array := resid_array fd;
     resid_array_zx := resid_array_zx fd; printed := [] |}.

(** The occupancy volumes and the area profiles of a frame record. *)
Definition occupancy (fd : FrameData) : FrameData :=
  {| tot_area := tot_area fd; wat_area := wat_area fd; mem_area := mem_area fd;
     prot_area := prot_area fd; mem_slab := mem_slab fd;
     mem_resid_slab := mem_resid_slab fd; wat_slab := wat_slab fd;
     prot_slab := prot_slab fd; resid_array := []; resid_array_zx := [];
     printed := printed fd |}.

(** ** Invariants and relations used in the proofs *)

Section Invariants.

Variables (d h : Q) (nz nx ny : nat).

(** Well-formedness of the membrane bookkeeping: the two volumes have
    the grid's shape and the list structures have the sizes given to
    them before the loops. *)
Definition mem_wf (st : MemAcc) : Prop :=
  Np.shaped nz nx ny (mem_slab0 st) ∧
  Np.shaped nz nx ny (mem_resid_slab0 st) ∧
  length (resid_list st) = nz ∧
  length (resid_list_zx st) = nz ∧
  Forall (λ row : list (list Z), length row = nx) (resid_list_zx st).

(** After any number of protein atoms: [prot_slab1] has the grid's
    shape and is zero wherever [mem_slab0] is not. *)
Definition prot_inv (mem prot : volume) : Prop :=
  Np.shaped nz nx ny prot ∧
  ∀ k m, Np.cell mem k = Some m → m ≠ 0 → Np.cell prot k = Some 0.

(** After any number of water atoms: [wat_slab2] has the grid's shape,
    holds only 0 and 1, and a 1 sits on a cell where both [mem_slab0]
    and [prot_slab1] are zero. *)
Definition wat_inv (mem prot wat : volume) : Prop :=
  Np.shaped nz nx ny wat ∧
  ∀ k w, Np.cell wat k = Some w →
    w = 0 ∨ (w = 1 ∧ Np.cell mem k = Some 0 ∧ Np.cell prot k = Some 0).

(** The per-(z,x) lists of a slab hold, together, as many ids as the
    list of the slab. *)
Definition zx_inv (st : MemAcc) : Prop :=
  mem_wf st ∧
  ∀ kz ids row, resid_list st !! kz = Some ids → resid_list_zx st !! kz = Some row →
    Np.sum1 (Py.len <$> row) = Py.len ids.

(** An atom whose subscript the grid accepts. *)
Definition accepted (t : Atom) : Prop :=
  let '(iz, ix, iy) := cell_index d h (position t) in
  is_Some (Np.locate_dims nz nx ny iz ix iy).

Definition slab_of (t : Atom) : option nat :=
  Py.index nz (cell_index d h (position t)).1.1.

(** The list of a slab holds, once each, the residue ids of the
    accepted atoms seen so far that map to the slab. *)
Definition ids_inv (seen : list Atom) (st : MemAcc) : Prop :=
  mem_wf st ∧
  ∀ kz ids, resid_list st !! kz = Some ids →
    NoDup ids ∧
    ∀ n, n ∈ ids ↔ ∃ t, t ∈ seen ∧ accepted t ∧ slab_of t = Some kz ∧ resid t = n.

End Invariants.

(** Two membrane states with the same arrays and lists. *)
Definition same_data (s s' : MemAcc) : Prop :=
  mem_slab0 s = mem_slab0 s' ∧ mem_resid_slab0 s = mem_resid_slab0 s' ∧
  resid_list s = resid_list s' ∧ resid_list_zx s = resid_list_zx s'.

(** Two membrane states with the same volumes and the same log. *)
Definition same_volumes (s s' : MemAcc) : Prop :=
  mem_slab0 s = mem_slab0 s' ∧ mem_resid_slab0 s = mem_resid_slab0 s' ∧
  mem_log s = mem_log s'.

(** ** Proof automation *)

(** Case analysis of one iteration of the window loop. *)
Ltac channel_cases :=
  intros frame fd st iz st';
  unfold window_step, mem_at, mem_resid_at, prot_at, free_area_at, resid_zx_at;
  destruct (Py.get (mem_slab fd) _); simpl; [| done];
  destruct (Py.get (mem_resid_slab fd) _); simpl; [| done];
  destruct (Py.get (prot_slab fd) _); simpl; [| done];
  destruct (Py.get (resid_array_zx fd) _); simpl; [| done];
  destruct (accumulate add2 _ _ _ (mem_slab_frame st)) eqn:?; simpl; [| done];
  destruct (accumulate add2 _ _ _ (mem_resid_slab_frame st)) eqn:?; simpl; [| done];
  destruct (accumulate add2 _ _ _ (prot_slab_frame st)) eqn:?; simpl; [| done];
  destruct (accumulate addq _ _ _ _) eqn:?; simpl; [| done];
  destruct (accumulate add1 _ _ _ _) eqn:?; simpl; [| done];
  intros [= <-]; simpl; eauto.

(** ** Sample inputs

    A 40 x 40 x 40 box cut into cells of 5: four membrane atoms of two
    lipids in the slab of z = 10, one protein atom at the centre, and
    water in the slab of z = 30 as well as on top of the protein and of
    a lipid. *)

Definition atom (n : Z) (rn : string) (x y z : Q) : Atom :=
  {| resid := n; resname := rn; position := (x, y, z) |}.

Definition sample_config : Config :=
  {| dz := 5; dh := 5;
     sel_m := "resname CHL PC PA PE";
     sel_m_a := "resname CHL PC PA PE OL and (not name H* )";
     interval := (0, -1, 1) |}.

Definition sample_frame : Frame :=
  {| Rgr_of := 12;
     dimensions := (40, 40, 40)%Q;
     u_mem_sel_m := [atom 1 "PC" 5 5 10; atom 1 "PC" 5 12 10; atom 2 "PC" 12 5 10];
     u_mem_sel_m_a := [atom 1 "PC" 5 5 10; atom 1 "PC" 5 12 10;
                       atom 2 "PC" 12 5 10; atom 3 "OL" 12 12 10];
     u_mem_sel_p := [atom 7 "ALA" 20 20 20; atom 8 "GLY" 5 5 10];
     u_mem_sel_w := [atom 9 "WAT" 5 5 30; atom 10 "WAT" 20 20 20;
                     atom 11 "WAT" 5 5 10] |}.

Definition sample_traj : list Frame := [sample_frame; sample_frame].

Definition sample_data : FrameData := frame_pass sample_config 11 10 10 sample_frame.

Definition sample_run : Run :=
  {| nz_of := 11; nx_of := 10; ny_of := 10;
     frames_of := [sample_data; sample_data]; Rgr := [12; 12]%Q |}.

(** A small crowded system: a 10 x 10 x 10 box, twelve membrane atoms of
    three lipids in one slab, and one protein atom. *)
Definition dense_frame : Frame :=
  {| Rgr_of := 3;
     dimensions := (10, 10, 10)%Q;
     u_mem_sel_m := (λ i, atom i "PC" (inject_Z i * 3) 1 7) <$> seqZ 0 3;
     u_mem_sel_m_a :=
       (λ i, atom (i `div` 4) "PC" (inject_Z (i `mod` 4) * 3) (inject_Z (i `div` 4)) 7)
         <$> seqZ 0 12;
     u_mem_sel_p := [atom 7 "ALA" 6 6 12];
     u_mem_sel_w := [] |}.

Definition dense_data : FrameData := frame_pass sample_config 5 4 4 dense_frame.

Definition dense_run : Run :=
  {| nz_of := 5; nx_of := 4; ny_of := 4; frames_of := [dense_data]; Rgr := [3%Q] |}.

Definition no_maps : Maps :=
  {| start_mem := 0; stop_mem := 0; step_mem := 0;
     mem_slab_frame := []; mem_resid_slab_frame := []; prot_slab_frame := [];
     area_x := []; mem_slab_frame_zx := [] |}.

Definition plot_or_empty (o : option Plot) : Plot :=
  default {| dens_p := []; dens_m := []; m_r_per_area := []; maps := no_maps |} o.

Definition sample_plot : Plot := plot_or_empty (Prep4plot sample_config sample_run).
Definition dense_plot : Plot := plot_or_empty (Prep4plot sample_config dense_run).

(** Frames of the same 40 x 40 x 40 system, sized 11 x 10 x 10, in which
    one atom lies off the grid: a later, larger box. *)
Definition bare_frame (m ma p w : list Atom) : Frame :=
  {| Rgr_of := 12; dimensions := (55, 55, 40)%Q;
     u_mem_sel_m := m; u_mem_sel_m_a := ma; u_mem_sel_p := p; u_mem_sel_w := w |}.

(** water beyond the last column: index (6, 10, 1) *)
Definition stray_water : Atom := atom 9 "WAT" 50 5 30.

(** a lipid head beyond the last row: index (2, 1, 10) *)
Definition stray_head_y : Atom := atom 1 "PC" 5 50 10.

(** a lipid head beyond the last column: index (2, 10, 1) *)
Definition stray_head_x : Atom := atom 1 "PC" 50 5 10.

(** a membrane atom left of the box: index (2, -1, 1) *)
Definition stray_left : Atom := atom 3 "OL" (-5) 5 10.

(** The same selection string for lipids and lipid heads. *)
Definition single_config : Config :=
  {| dz := 5; dh := 5; sel_m := "resname POPC and (not name H* )";
     sel_m_a := "resname POPC and (not name H* )"; interval := (0, -1, 1) |}.

(** Trajectories of the sample system whose box has grown to
    55 x 55 x 40 in frame 1, where the head atom of lipid 2 has moved
    beyond the last column of the grid of frame 0, at index (2, 10, 1);
    respectively beyond its last row, at index (2, 2, 10). *)
Definition grown_frame (head2 : Atom) : Frame :=
  {| Rgr_of := 12;
     dimensions := (55, 55, 40)%Q;
     u_mem_sel_m := [atom 1 "PC" 5 5 10; atom 1 "PC" 5 12 10; head2];
     u_mem_sel_m_a := [atom 1 "PC" 5 5 10; atom 1 "PC" 5 12 10;
                       head2; atom 3 "OL" 12 12 10];
     u_mem_sel_p := [atom 7 "ALA" 20 20 20; atom 8 "GLY" 5 5 10];
     u_mem_sel_w := [atom 9 "WAT" 5 5 30; atom 10 "WAT" 20 20 20;
                     atom 11 "WAT" 5 5 10] |}.

Definition moved_head_x : Atom := atom 2 "PC" 50 5 10.
Definition moved_head_y : Atom := atom 2 "PC" 12 50 10.

Definition grown_traj_x : list Frame := [sample_frame; grown_frame moved_head_x].
Definition grown_traj_y : list Frame := [sample_frame; grown_frame moved_head_y].

(** The sample system cut into lateral cells of 2.5. *)
Definition fractional_config : Config :=
  {| dz := 5 # 2; dh := 5;
     sel_m := "resname CHL PC PA PE";
     sel_m_a := "resname CHL PC PA PE OL and (not name H* )";
     interval := (0, -1, 1) |}.

(** * The rest of the script

    Definitions for the code around the binning engine and for the
    statements made about it. *)

(** [np.sum] of a whole volume, as [np.sum(np.sum(np.sum(a)))]. *)
Definition total3 (a : volume) : Z := Np.sum1 (atoms_per_slab a).

(** The subscript of an atom raises [IndexError] on the grid. *)
Definition off_grid (d h : Q) (nz nx ny : nat) (t : Atom) : bool :=
  let '(iz, ix, iy) := cell_index d h (position t) in
  match Np.locate_dims nz nx ny iz ix iy with
  | None => true
  | Some _ => false
  end.

Definition on_grid (d h : Q) (nz nx ny : nat) (t : Atom) : bool :=
  negb (off_grid d h nz nx ny t).

(** A protein atom whose cell holds membrane atoms: the test
    [mem_slab0[iz,ix,iy] == 0] fails for it. *)
Definition over_membrane (d h : Q) (mem : volume) (t : Atom) : bool :=
  let '(iz, ix, iy) := cell_index d h (position t) in
  match Np.get3 mem iz ix iy with
  | Some m => negb (m =? 0)
  | None => false
  end.

Definition is_membrane_out (w : warning) : bool :=
  match w with MembraneOut _ _ _ _ => true | ProteinOut _ _ _ _ => false end.

Definition is_protein_out (w : warning) : bool :=
  match w with ProteinOut _ _ _ _ => true | MembraneOut _ _ _ _ => false end.

(** The number of entries of a list that pass a test. *)
Definition count_if {A} (p : A → bool) (l : list A) : Z :=
  Py.len (filter (λ x, p x = true) l).

(** Invariants of the loops of a frame, atom by atom. *)
Section Accounting_invariants.

Variables (d h : Q) (nz nx ny : nat).

(** The membrane loops, atom by atom: the volume holds the atoms on the
    grid, the log the warnings of the atoms off it, in order. *)
Definition counted_inv (seen : list Atom) (st : MemAcc) : Prop :=
  mem_wf nz nx ny st ∧
  total3 (mem_slab0 st) = count_if (on_grid d h nz nx ny) seen ∧
  mem_log st = warn_membrane d h nz nx ny <$>
                 filter (λ t, off_grid d h nz nx ny t = true) seen.

(** The head-subset loop, atom by atom. *)
Definition heads_inv (seen : list Atom) (st : MemAcc) : Prop :=
  mem_wf nz nx ny st ∧
  total3 (mem_resid_slab0 st) = count_if (on_grid d h nz nx ny) seen.

(** The protein loop, atom by atom. *)
Definition prot_counted_inv (mem : volume) (seen : list Atom)
  (st : volume * list warning) : Prop :=
  Np.shaped nz nx ny st.1 ∧
  total3 st.1 = count_if (λ t, on_grid d h nz nx ny t && negb (over_membrane d h mem t)) seen ∧
  st.2 = warn_protein d h nz nx ny <$>
           filter (λ t, off_grid d h nz nx ny t = true) seen.

End Accounting_invariants.

(** A position inside the box of [f0], where [pbc] and [pbc_plane] pack
    the atoms. *)
Definition inside_first_box (f0 : Frame) (t : Atom) : Prop :=
  let '(x, y, z) := position t in
  (0 <= x <= (dimensions f0).1.1)%Q ∧ (0 <= y <= (dimensions f0).1.2)%Q ∧
  (0 <= z <= (dimensions f0).2)%Q.

(** ** What [Get_info] announces

    [frames = int((stop_analysis-start_analysis)/step_analysis)], the
    number printed as "will be analyzed ... frames"; [None] is the
    [ZeroDivisionError] of a zero stride. *)
Definition announced_frames (c : Config) (traj : list Frame) : option Z :=
  let '(start_analysis, stop0, step_analysis) := interval c in
  let stop_analysis := if decide (stop0 < 0) then Py.len traj else stop0 in
  if decide (step_analysis = 0) then None
  else Some (Py.int (inject_Z (stop_analysis - start_analysis) / inject_Z step_analysis)).

(** ** [__init__]

    The selections, the alignment switch and the margin that the
    constructor stores.  [None] is an exception: [self.sel] is read when
    [sel_m] is empty and no such attribute exists, and [4.0/d] divides
    by zero. *)
Record Settings := {
  config_of : Config;
  align_mem_of : bool;
  sel_align_of : string;
  sel_ligands_of : string;
  margin_of : Z
}.

Definition init (sel_ligands : string) (interval : Z * Z * Z) (d dh : Q)
  (sel_m sel_m_a : string) (align_mem : bool) (sel_align : string)
  : option Settings :=
  let align_mem' :=
    if align_mem then (if String.eqb sel_align ""%string then false else true) else false in
  let sel_m_a' :=
    if String.eqb sel_m_a ""%string then
      (if negb (String.eqb sel_ligands ""%string)
       then ("(not type H ) and (not protein) " ++ " and (resname " ++ sel_ligands ++ " )")%string
       else "(not type H ) and (not protein) "%string)
    else (sel_m_a ++ " and (not name H* )")%string in
  if String.eqb sel_m ""%string then None
  else if Qeq_bool d 0 then None
  else Some {| config_of := {| dz := d; dh := dh; sel_m := sel_m;
                               sel_m_a := sel_m_a'; interval := interval |};
               align_mem_of := align_mem';
               sel_align_of := sel_align;
               sel_ligands_of := sel_ligands;
               margin_of := margin d |}.

(** ** Sizes in [Prep4plot] *)

(** The four per-frame arrays that the window loop subscripts by slab
    all have [n] slabs. *)
Definition frame_depth (fd : FrameData) (n : nat) : Prop :=
  length (mem_slab fd) = n ∧ length (mem_resid_slab fd) = n ∧
  length (prot_slab fd) = n ∧ length (resid_array_zx fd) = n.

(** Each of the five 2D maps holds [n] slabs. *)
Definition maps_length (st : Maps) (n : nat) : Prop :=
  length (mem_slab_frame st) = n ∧ length (mem_resid_slab_frame st) = n ∧
  length (prot_slab_frame st) = n ∧ length (area_x st) = n ∧
  length (mem_slab_frame_zx st) = n.

(** A subscript that an axis of length [n] accepts. *)
Definition indexable (n : nat) (z : Z) : Prop := is_Some (Py.index n z).

(** ** What the profiles of [Prep4plot] hold *)

(** No cell of the array is negative. *)
Definition nonneg3 (a : volume) : Prop := Forall (Forall (Forall (λ v, 0 <= v))) a.

(** An entry that is a number (neither [nan] nor [inf]) and not
    negative. *)
Definition nonneg_number (e : option Q) : Prop := ∃ q, e = Some q ∧ (0 <= q)%Q.

(** A list of per-frame profiles, each over [n] slabs. *)
Definition profiles_ok (n : nat) (rows : list (list (option Q))) : Prop :=
  Forall (λ row, length row = n ∧ Forall nonneg_number row) rows.

(** ** [Check] *)

(** [np.count_nonzero(s, axis=0)] of one slab of [ny] columns: for each
    [y], the number of [x] at which the slab is nonzero. *)
Definition count_nonzero_columns (ny : nat) (s : plane) : vector :=
  (λ y, Py.len (filter (λ r : vector, default 0 (r !! y) ≠ 0) s)) <$> seq 0 ny.

(** The four curves that [Check] plots, under their labels. *)
Record Curves := {
  lipids : vector;
  prot_area_curve : vector;
  lipids_from_xy : vector;
  protein_atoms : vector
}.

(** [Check] reads frame 0 of each sequence; [None] is the [IndexError]
    of an empty sequence. *)
Definition Check (r : Run) : option Curves :=
  f0 ← frames_of r !! 0%nat;
  Some {| lipids := resid_array f0;
          prot_area_curve := prot_area f0;
          lipids_from_xy := Np.sum1 <$> resid_array_zx f0;
          protein_atoms :=
            (λ s, Np.sum1 (count_nonzero_columns (Z.to_nat (ny_of r)) s))
              <$> prot_slab f0 |}.

(** The per-(z,x) lists of a slab hold, together, no more ids than the
    list of the slab. *)
Definition zx_le (rl : list (list Z)) (rlzx : list (list (list Z))) : Prop :=
  length rl = length rlzx ∧
  ∀ kz ids row, rl !! kz = Some ids → rlzx !! kz = Some row →
    Np.sum1 (Py.len <$> row) <= Py.len ids.

(** A head atom whose x index the grid accepts. *)
Definition x_on_grid (d h : Q) (nx : nat) (t : Atom) : Prop :=
  is_Some (Py.index nx (cell_index d h (position t)).1.2).

Definition sample_curves : Curves :=
  default {| lipids := []; prot_area_curve := []; lipids_from_xy := [];
             protein_atoms := [] |} (Check sample_run).

(** ** [Plot_mem_z] and [Plot_mem_z_frame] *)

(** A numpy float: a number, an infinity or [nan]. *)
Inductive npfloat :=
  | Fin (q : Q)
  | PosInf
  | NegInf
  | NaN.

(** One quotient of [np.divide] on a float and an integer; a zero
    divisor gives an infinity or [nan], with a warning only. *)
Definition np_div (x : Q) (y : Z) : npfloat :=
  if decide (y = 0) then
    if Qlt_le_dec 0 x then PosInf else if Qlt_le_dec x 0 then NegInf else NaN
  else Fin (x / inject_Z y).

(** [np.divide(a, b)] on vectors: elementwise on equal lengths, a vector
    of length 1 is broadcast, other lengths raise [ValueError]. *)
Definition np_divide (a : list Q) (b : vector) : option (list npfloat) :=
  if decide (length a = length b) then Some (zip_with np_div a b)
  else
    match a, b with
    | [x], _ => Some (np_div x <$> b)
    | _, [y] => Some ((λ x, np_div x y) <$> a)
    | _, _ => None
    end.

Definition np_max2 (u v : npfloat) : npfloat :=
  match u, v with
  | NaN, _ | _, NaN => NaN
  | PosInf, _ | _, PosInf => PosInf
  | NegInf, w | w, NegInf => w
  | Fin p, Fin q => if Qlt_le_dec p q then Fin q else Fin p
  end.

(** [np.max]; [None] is the [ValueError] of an empty array. *)
Definition np_max (l : list npfloat) : option npfloat :=
  match l with
  | [] => None
  | x :: rest => Some (foldl np_max2 x rest)
  end.

(** [k * v] for a positive factor [k] *)
Definition np_scale (k : Q) (v : npfloat) : npfloat :=
  match v with
  | Fin q => Fin (k * q)
  | other => other
  end.

(** A bound of a slice of a sequence of length [n]: a negative bound
    counts from the end, and bounds are clipped to the sequence. *)
Definition slice_bound (n : nat) (i : Z) : nat :=
  Z.to_nat (if decide (i < 0) then Z.max (Z.of_nat n + i) 0 else Z.min i (Z.of_nat n)).

(** [l[lo:hi]] *)
Definition py_slice {A} (l : list A) (lo hi : Z) : list A :=
  drop (slice_bound (length l) lo) (take (slice_bound (length l) hi) l).

(** What one column of panels shows: the number in the title
    [z = dh*z] and the three arrays handed to [imshow]. *)
Record Panel := {
  title_z : Q;
  protein_img : plane;
  membrane_img : plane;
  lipids_img : plane
}.

(** [zmax], computed before the panels are drawn. *)
Definition zmax_of (c : Config) (st : Maps) : option npfloat :=
  let middle := Py.int ((1 # 2) * inject_Z (Py.len (mem_slab_frame_zx st))) in
  a ← Py.get (area_x st) middle;
  b ← Py.get (mem_slab_frame_zx st) middle;
  q ← np_divide (py_slice a (margin (dz c)) (- margin (dz c)))
                (py_slice b (margin (dz c)) (- margin (dz c)));
  top ← np_max q;
  Some (np_scale (3 # 2) top).

(** [Plot_mem_z]: [zmax] and the panels, in the order of the loop.  The
    drawing calls themselves are outside the model. *)
Definition Plot_mem_z (c : Config) (st : Maps) : option (npfloat * list Panel) :=
  zmax ← zmax_of c st;
  win ← Py.range (start_mem st) (stop_mem st) (step_mem st);
  panels ← mapM (λ iz : nat * Z,
              p ← Py.get (prot_slab_frame st) (Z.of_nat iz.1);
              m ← Py.get (mem_slab_frame st) (Z.of_nat iz.1);
              mr ← Py.get (mem_resid_slab_frame st) (Z.of_nat iz.1);
              Some {| title_z := dh c * inject_Z iz.2; protein_img := p;
                      membrane_img := m; lipids_img := mr |})
            (enumerate win);
  Some (zmax, panels).

(** [Plot_mem_z_frame]: the same [zmax]; the panels read the arrays of
    one frame. *)
Definition Plot_mem_z_frame (c : Config) (r : Run) (st : Maps) (frame : Z)
  : option (npfloat * list Panel) :=
  zmax ← zmax_of c st;
  win ← Py.range (start_mem st) (stop_mem st) (step_mem st);
  panels ← mapM (λ iz : nat * Z,
              fd ← Py.get (frames_of r) frame;
              p ← Py.get (prot_slab fd) (Z.of_nat iz.1);
              m ← Py.get (mem_slab fd) (Z.of_nat iz.1);
              mr ← Py.get (mem_resid_slab fd) (Z.of_nat iz.1);
              Some {| title_z := dh c * inject_Z iz.2; protein_img := p;
                      membrane_img := m; lipids_img := mr |})
            (enumerate win);
  Some (zmax, panels).

(** ** The volumes, cell by cell *)

(** The cell of the grid that the subscript of an atom designates;
    [None] when the subscript raises [IndexError]. *)
Definition cell_of (d h : Q) (nz nx ny : nat) (t : Atom) : option (nat * nat * nat) :=
  let '(iz, ix, iy) := cell_index d h (position t) in
  Np.locate_dims nz nx ny iz ix iy.

Definition lands_on (d h : Q) (nz nx ny : nat) (k : nat * nat * nat) (t : Atom) : bool :=
  bool_decide (cell_of d h nz nx ny t = Some k).

Section Cell_invariants.

Variables (d h : Q) (nz nx ny : nat).

(** A volume that counts, in each cell, the atoms seen so far that land
    on the cell. *)
Definition cells_count (seen : list Atom) (a : volume) : Prop :=
  Np.shaped nz nx ny a ∧
  ∀ k v, Np.cell a k = Some v → v = count_if (lands_on d h nz nx ny k) seen.

(** The protein volume: as above on the cells free of membrane, zero
    on the others. *)
Definition prot_cells (mem : volume) (seen : list Atom) (prot : volume) : Prop :=
  Np.shaped nz nx ny prot ∧
  ∀ k m p, Np.cell mem k = Some m → Np.cell prot k = Some p →
    p = if decide (m = 0) then count_if (lands_on d h nz nx ny k) seen else 0.

(** The water volume: a mark on the cells free of membrane and of
    protein on which a water atom has landed. *)
Definition wat_cells (mem prot : volume) (seen : list Atom) (wat : volume) : Prop :=
  Np.shaped nz nx ny wat ∧
  ∀ k m p w, Np.cell mem k = Some m → Np.cell prot k = Some p →
    Np.cell wat k = Some w →
    w = if decide (m = 0 ∧ p = 0 ∧ 0 < count_if (lands_on d h nz nx ny k) seen)
        then 1 else 0.

End Cell_invariants.

(** ** Residue counts when the selections differ *)

(** The number of distinct residue ids among the atoms whose z index
    designates slab [kz], whatever their x and y indices. *)
Definition slab_residues (d h : Q) (nz : nat) (atoms : list Atom) (kz : nat) : Z :=
  Py.len (remove_dups (resid <$> filter (λ t, slab_of d h nz t = Some kz) atoms)).

(** The head-subset loop, atom by atom: the list of a slab holds, once
    each, the residue ids of the atoms seen so far whose z index
    designates the slab. *)
Definition head_ids_inv (d h : Q) (nz : nat) (seen : list Atom) (rl : list (list Z))
  : Prop :=
  length rl = nz ∧
  ∀ kz ids, rl !! kz = Some ids →
    NoDup ids ∧ ∀ n, n ∈ ids ↔ ∃ t, t ∈ seen ∧ slab_of d h nz t = Some kz ∧ resid t = n.
(** * Properties *)

(** ** The primitives and the sample system, evaluated *)

Example int_truncates : Py.int (7 # 2) = 3 ∧ Py.int (-(7 # 2)) = -3.
Proof. split; reflexivity. Qed.

Example index_wraps : Py.index 4 (-1) = Some 3%nat.
Proof. reflexivity. Qed.

Example index_raises : Py.index 4 4 = None ∧ Py.index 4 (-5) = None.
Proof. split; reflexivity. Qed.

Example range_steps :
  Py.range 1 8 2 = Some [1; 3; 5; 7] ∧ Py.range 3 3 2 = Some [] ∧
  Py.range 5 0 (-2) = Some [5; 3; 1] ∧ Py.range 0 4 0 = None.
Proof. repeat split; reflexivity. Qed.

Example sample_grid : grid_size sample_config sample_frame = (11, 10, 10).
Proof. reflexivity. Qed.

Example sample_areas :
  prot_area sample_data = [0; 0; 0; 0; 25; 0; 0; 0; 0; 0; 0] ∧
  mem_area sample_data = [0; 0; 100; 0; 0; 0; 0; 0; 0; 0; 0] ∧
  wat_area sample_data = [0; 0; 0; 0; 0; 0; 25; 0; 0; 0; 0] ∧
  tot_area sample_data = [0; 0; 100; 0; 25; 0; 25; 0; 0; 0; 0] ∧
  resid_array sample_data = [0; 0; 2; 0; 0; 0; 0; 0; 0; 0; 0] ∧
  printed sample_data = [].
Proof. vm_compute. repeat split; reflexivity. Qed.

Example sample_window :
  start_mem (maps sample_plot) = 0 ∧ stop_mem (maps sample_plot) = 4 ∧
  mem_slab_frame_zx (maps sample_plot) =
    [[0; 0; 0; 0; 0; 0; 0; 0; 0; 0]; [0; 2; 2; 0; 0; 0; 0; 0; 0; 0]].
Proof. vm_compute. repeat split; reflexivity. Qed.

(** ** Subscripts and arrays *)

Section Arrays.

Lemma index_lt n i k : Py.index n i = Some k → (k < n)%nat.
Proof.
  unfold Py.index. repeat case_decide; intros [= <-]; lia.
Qed.

Lemma index_nonneg n i : 0 <= i < Z.of_nat n → Py.index n i = Some (Z.to_nat i).
Proof. intros H. unfold Py.index. by rewrite decide_True. Qed.

Lemma index_high n i : Z.of_nat n <= i → Py.index n i = None.
Proof.
  intros H. unfold Py.index. rewrite !decide_False; [done | lia | lia].
Qed.

Lemma shaped_zeros3 nz nx ny : Np.shaped nz nx ny (Np.zeros3 nz nx ny).
Proof.
  split; [apply length_replicate |].
  apply Forall_replicate. split; [apply length_replicate |].
  apply Forall_replicate, length_replicate.
Qed.

Lemma locate_shaped nz nx ny a iz ix iy :
  Np.shaped nz nx ny a →
  Np.locate a iz ix iy = Np.locate_dims nz nx ny iz ix iy.
Proof.
  intros [Hz Ha]. unfold Np.locate, Np.locate_dims. rewrite Hz.
  destruct (Py.index nz iz) as [kz|] eqn:Ez; simpl; [| done].
  apply index_lt in Ez.
  destruct (a !! kz) as [s|] eqn:Es; simpl.
  2:{ apply lookup_ge_None in Es. lia. }
  destruct (Forall_lookup_1 _ _ _ _ Ha Es) as [Hx Hs]. rewrite Hx.
  destruct (Py.index nx ix) as [kx|] eqn:Ex; simpl; [| done].
  apply index_lt in Ex.
  destruct (s !! kx) as [r|] eqn:Er; simpl.
  2:{ apply lookup_ge_None in Er. lia. }
  by rewrite (Forall_lookup_1 _ _ _ _ Hs Er).
Qed.

Lemma shaped_alter3 nz nx ny f k a :
  Np.shaped nz nx ny a → Np.shaped nz nx ny (Np.alter3 f k a).
Proof.
  destruct k as [[kz kx] ky]. intros [Hz Ha]. split; simpl.
  - by rewrite length_alter.
  - apply Forall_alter; [done |]. intros s _ [Hx Hs]. split.
    + by rewrite length_alter.
    + apply Forall_alter; [done |]. intros r _ Hr. by rewrite length_alter.
Qed.

Lemma cell_alter3 f k k' a :
  Np.cell (Np.alter3 f k a) k' =
  if decide (k = k') then f <$> Np.cell a k else Np.cell a k'.
Proof.
  destruct k as [[kz kx] ky], k' as [[kz' kx'] ky']. simpl.
  destruct (decide (kz = kz')) as [->|Hz].
  - rewrite list_lookup_alter_eq. destruct (a !! kz') as [s|]; simpl.
    2:{ by case_decide. }
    destruct (decide (kx = kx')) as [->|Hx].
    + rewrite list_lookup_alter_eq. destruct (s !! kx') as [r|]; simpl.
      2:{ by case_decide. }
      destruct (decide (ky = ky')) as [->|Hy].
      * rewrite list_lookup_alter_eq, decide_True by done. done.
      * rewrite list_lookup_alter_ne, decide_False by congruence. done.
    + rewrite list_lookup_alter_ne, decide_False by congruence. done.
  - rewrite list_lookup_alter_ne, decide_False by congruence. done.
Qed.

Lemma cell_shaped nz nx ny a kz kx ky :
  Np.shaped nz nx ny a →
  (kz < nz)%nat → (kx < nx)%nat → (ky < ny)%nat →
  is_Some (Np.cell a (kz, kx, ky)).
Proof.
  intros [Hz Ha] Lz Lx Ly. simpl.
  destruct (lookup_lt_is_Some_2 a kz) as [s Es]; [lia |]. rewrite Es. simpl.
  destruct (Forall_lookup_1 _ _ _ _ Ha Es) as [Hx Hs].
  destruct (lookup_lt_is_Some_2 s kx) as [r Er]; [lia |]. rewrite Er. simpl.
  apply lookup_lt_is_Some_2. rewrite (Forall_lookup_1 _ _ _ _ Hs Er). done.
Qed.

Lemma cell_inside nz nx ny a kz kx ky v :
  Np.shaped nz nx ny a → Np.cell a (kz, kx, ky) = Some v →
  (kz < nz)%nat ∧ (kx < nx)%nat ∧ (ky < ny)%nat.
Proof.
  intros [Hz Ha]. simpl.
  destruct (a !! kz) as [s|] eqn:Es; simpl; [| done].
  destruct (Forall_lookup_1 _ _ _ _ Ha Es) as [Hx Hs].
  destruct (s !! kx) as [r|] eqn:Er; simpl; [| done].
  intros Hv. pose proof (Forall_lookup_1 _ _ _ _ Hs Er) as Hy. simpl in Hy.
  apply lookup_lt_Some in Es, Er, Hv. lia.
Qed.

Lemma locate_dims_lt nz nx ny iz ix iy kz kx ky :
  Np.locate_dims nz nx ny iz ix iy = Some (kz, kx, ky) →
  (kz < nz)%nat ∧ (kx < nx)%nat ∧ (ky < ny)%nat.
Proof.
  unfold Np.locate_dims.
  destruct (Py.index nz iz) eqn:Ez; simpl; [| done].
  destruct (Py.index nx ix) eqn:Ex; simpl; [| done].
  destruct (Py.index ny iy) eqn:Ey; simpl; [| done].
  intros [= <- <- <-]. repeat split; eapply index_lt; eassumption.
Qed.

Lemma cell_zeros3 nz nx ny k v :
  Np.cell (Np.zeros3 nz nx ny) k = Some v → v = 0.
Proof.
  destruct k as [[kz kx] ky]. unfold Np.zeros3. simpl.
  destruct (replicate nz _ !! kz) as [s|] eqn:Es; simpl; [| done].
  apply lookup_replicate in Es as [-> _].
  destruct (replicate nx _ !! kx) as [r|] eqn:Er; simpl; [| done].
  apply lookup_replicate in Er as [-> _].
  intros Hv. by apply lookup_replicate in Hv as [-> _].
Qed.

End Arrays.

(** ** Invariants of the loops of one frame *)

Lemma foldl_invariant {S X} (P : S → Prop) (step : S → X → S) (l : list X) (s : S) :
  P s → (∀ s x, P s → P (step s x)) → P (foldl step s l).
Proof.
  intros H0 Hstep. revert s H0. induction l as [|x l IH]; simpl; auto.
Qed.

Section Frame_invariants.

Variables (d h : Q) (nz nx ny : nat).

Lemma upd3_shaped f a iz ix iy a' :
  Np.shaped nz nx ny a → Np.upd3 f a iz ix iy = Some a' → Np.shaped nz nx ny a'.
Proof.
  intros Ha. unfold Np.upd3.
  destruct (Np.locate a iz ix iy) as [k|]; simpl; [| done].
  intros [= <-]. by apply shaped_alter3.
Qed.

Lemma mem_wf_init : mem_wf nz nx ny (mem_init nz nx ny).
Proof.
  unfold mem_wf. simpl.
  split; [apply shaped_zeros3 |]. split; [apply shaped_zeros3 |].
  rewrite !length_replicate. repeat split.
  apply Forall_replicate, length_replicate.
Qed.

Lemma register_sizes n iz ix rl rlzx :
  let p := state_of (register n iz ix rl rlzx) in
  length p.1 = length rl ∧ length p.2 = length rlzx ∧
  (Forall (λ row : list (list Z), length row = nx) rlzx →
   Forall (λ row : list (list Z), length row = nx) p.2).
Proof.
  unfold register.
  destruct (Py.index (length rl) iz) as [kz|]; simpl; [| done].
  destruct (rl !! kz) as [ids|]; simpl; [| done].
  case_decide; simpl; [done |].
  destruct (Py.index (length rlzx) iz) as [kz'|]; simpl;
    [| by rewrite length_alter].
  destruct (rlzx !! kz') as [row|]; simpl; [| by rewrite length_alter].
  destruct (Py.index (length row) ix) as [kx|]; simpl;
    [| by rewrite length_alter].
  rewrite !length_alter. repeat split.
  intros Hrows. apply Forall_alter; [done |]. intros r _ Hr. by rewrite length_alter.
Qed.

Lemma mem_wf_warn w st : mem_wf nz nx ny st → mem_wf nz nx ny (mem_warn w st).
Proof. done. Qed.

Lemma mem_wf_lists st n iz ix :
  mem_wf nz nx ny st →
  mem_wf nz nx ny (with_lists st (state_of (register n iz ix (resid_list st) (resid_list_zx st)))).
Proof.
  intros (H1 & H2 & H3 & H4 & H5).
  destruct (register_sizes n iz ix (resid_list st) (resid_list_zx st)) as (L1 & L2 & L3).
  repeat split; simpl; try (apply H1 || apply H2); try congruence. auto.
Qed.

Lemma mem_wf_step_all st t : mem_wf nz nx ny st → mem_wf nz nx ny (step_all d h nz nx ny st t).
Proof.
  intros Hst. unfold step_all.
  destruct (cell_index d h (position t)) as [[iz ix] iy].
  destruct (Np.upd3 _ _ _ _ _) as [m|] eqn:E; [| by apply mem_wf_warn].
  destruct Hst as (H1 & H2 & H3). repeat split; simpl; try apply H2; try apply H3.
  - eapply upd3_shaped in E; [apply E | done].
  - eapply upd3_shaped in E; [apply E | done].
Qed.

Lemma mem_wf_step_head st t : mem_wf nz nx ny st → mem_wf nz nx ny (step_head d h st t).
Proof.
  intros Hst. unfold step_head.
  destruct (cell_index d h (position t)) as [[iz ix] iy].
  apply mem_wf_lists.
  destruct (Np.upd3 _ _ _ _ _) as [m|] eqn:E; [| done].
  destruct Hst as (H1 & H2 & H3). repeat split; simpl; try apply H1; try apply H3.
  - eapply upd3_shaped in E; [apply E | done].
  - eapply upd3_shaped in E; [apply E | done].
Qed.

Lemma mem_wf_step_same st t : mem_wf nz nx ny st → mem_wf nz nx ny (step_same d h nz nx ny st t).
Proof.
  intros Hst. unfold step_same, try_same.
  destruct (cell_index d h (position t)) as [[iz ix] iy].
  destruct (Np.upd3 _ _ _ _ _) as [m|] eqn:E; [| by apply mem_wf_warn].
  assert (mem_wf nz nx ny (with_mem st m)) as Hm.
  { destruct Hst as (H1 & H2 & H3). repeat split; simpl; try apply H2; try apply H3.
    - eapply upd3_shaped in E; [apply E | done].
    - eapply upd3_shaped in E; [apply E | done]. }
  pose proof (mem_wf_lists _ (resid t) iz ix Hm) as Hl.
  destruct (register _ _ _ _ _); simpl in *; [done | by apply mem_wf_warn].
Qed.

Lemma mem_wf_pass same atoms_m atoms_m_a :
  mem_wf nz nx ny (membrane_pass d h nz nx ny same atoms_m atoms_m_a).
Proof.
  unfold membrane_pass. destruct same.
  - apply foldl_invariant; [apply mem_wf_init | intros; by apply mem_wf_step_same].
  - apply foldl_invariant; [| intros; by apply mem_wf_step_head].
    apply foldl_invariant; [apply mem_wf_init | intros; by apply mem_wf_step_all].
Qed.

Lemma prot_inv_step mem st t :
  Np.shaped nz nx ny mem →
  prot_inv nz nx ny mem st.1 → prot_inv nz nx ny mem (step_prot d h nz nx ny mem st t).1.
Proof.
  intros Hmem [Hp Hex]. unfold step_prot.
  destruct (cell_index d h (position t)) as [[iz ix] iy].
  unfold Np.get3, Np.upd3.
  rewrite (locate_shaped _ _ _ _ _ _ _ Hmem), (locate_shaped _ _ _ _ _ _ _ Hp).
  destruct (Np.locate_dims nz nx ny iz ix iy) as [k0|]; simpl; [| done].
  destruct (Np.cell mem k0) as [m0|] eqn:E0; simpl; [| done].
  case_decide as Hm0; simpl; [| done]. subst m0.
  split; [by apply shaped_alter3 |].
  intros k m Hk Hm. rewrite cell_alter3.
  rewrite decide_False; [by eapply Hex |]. intros ->. congruence.
Qed.

Lemma prot_inv_pass mem atoms_p :
  Np.shaped nz nx ny mem → prot_inv nz nx ny mem (protein_pass d h nz nx ny mem atoms_p).1.
Proof.
  intros Hmem. unfold protein_pass.
  apply (foldl_invariant (λ st, prot_inv nz nx ny mem st.1)).
  - split; [apply shaped_zeros3 |]. simpl. intros [[kz kx] ky] m Hk _.
    destruct (cell_inside _ _ _ _ _ _ _ _ Hmem Hk) as (Lz & Lx & Ly).
    destruct (cell_shaped nz nx ny (Np.zeros3 nz nx ny) kz kx ky) as [v Hv];
      auto using shaped_zeros3.
    rewrite Hv. f_equal. by eapply cell_zeros3.
  - intros st t. by apply prot_inv_step.
Qed.

Lemma wat_inv_step mem prot wat t :
  Np.shaped nz nx ny mem → Np.shaped nz nx ny prot →
  wat_inv nz nx ny mem prot wat → wat_inv nz nx ny mem prot (step_wat d h mem prot wat t).
Proof.
  intros Hmem Hprot [Hw Hex]. unfold step_wat.
  destruct (cell_index d h (position t)) as [[iz ix] iy].
  unfold Np.get3, Np.upd3.
  rewrite (locate_shaped _ _ _ _ _ _ _ Hmem), (locate_shaped _ _ _ _ _ _ _ Hprot),
    (locate_shaped _ _ _ _ _ _ _ Hw).
  destruct (Np.locate_dims nz nx ny iz ix iy) as [k0|]; simpl; [| done].
  destruct (Np.cell prot k0) as [p0|] eqn:Ep; simpl; [| done].
  case_decide as Hp0; [| done]. subst p0.
  destruct (Np.cell mem k0) as [m0|] eqn:Em; simpl; [| done].
  case_decide as Hm0; [| done]. subst m0.
  split; [by apply shaped_alter3 |].
  intros k w. rewrite cell_alter3. case_decide as Hk.
  - subst k. destruct (Np.cell wat k0); simpl; [| done]. intros [= <-]. auto.
  - apply Hex.
Qed.

Lemma wat_inv_pass mem prot atoms_w :
  Np.shaped nz nx ny mem → Np.shaped nz nx ny prot →
  wat_inv nz nx ny mem prot (water_pass d h nz nx ny mem prot atoms_w).
Proof.
  intros Hmem Hprot. unfold water_pass. apply foldl_invariant.
  - split; [apply shaped_zeros3 |]. intros k w Hk. left. by eapply cell_zeros3.
  - intros wat t. by apply wat_inv_step.
Qed.

End Frame_invariants.

(** ** The frames of a run *)

Lemma py_get_elem_of {A} (l : list A) i x : Py.get l i = Some x → x ∈ l.
Proof.
  unfold Py.get. destruct (Py.index (length l) i) as [k|]; simpl; [| done].
  intros Hk. eapply list_elem_of_lookup_2, Hk.
Qed.

(** Every record of a run comes from one iteration on a frame of the
    trajectory, on the grid that the run fixed. *)
Lemma Get_info_frames c traj run fd :
  Get_info c traj = Some run → fd ∈ frames_of run →
  (0 <= nz_of run ∧ 0 <= nx_of run ∧ 0 <= ny_of run) ∧
  ∃ f, f ∈ traj ∧
    fd = frame_pass c (Z.to_nat (nz_of run)) (Z.to_nat (nx_of run))
           (Z.to_nat (ny_of run)) f.
Proof.
  unfold Get_info. destruct (interval c) as [[start stop0] step].
  destruct (Py.get traj 0) as [first|]; simpl; [| done].
  destruct (grid_size c first) as [[nz nx] ny].
  destruct (Py.range _ _ _) as [todo|]; simpl; [| done].
  destruct (mapM _ todo) as [done_|] eqn:Em; simpl; [| done].
  intros [= <-]. simpl. intros Hfd.
  apply list_elem_of_fmap in Hfd as ([rg fd'] & -> & Hin).
  apply mapM_Some_1 in Em.
  apply list_elem_of_lookup in Hin as [j Hj].
  destruct (Forall2_lookup_r _ _ _ _ _ Em Hj) as (i & _ & Hi).
  unfold iteration in Hi.
  destruct (Py.get traj i) as [f|] eqn:Ef; simpl in Hi; [| done].
  case_decide as Hdims; [| done]. injection Hi as _ <-.
  split; [done |]. exists f. split; [by eapply py_get_elem_of | done].
Qed.

Section Exclusion.

Variables (c : Config) (nz nx ny : nat) (f : Frame).

Let fd := frame_pass c nz nx ny f.

Lemma frame_shapes :
  Np.shaped nz nx ny (mem_slab fd) ∧ Np.shaped nz nx ny (mem_resid_slab fd) ∧
  Np.shaped nz nx ny (prot_slab fd) ∧ Np.shaped nz nx ny (wat_slab fd).
Proof.
  unfold fd, frame_pass, after_membrane. simpl.
  pose proof (mem_wf_pass (dz c) (dh c) nz nx ny (same_selection c)
                (u_mem_sel_m f) (u_mem_sel_m_a f)) as (Hm & Hr & _).
  pose proof (prot_inv_pass (dz c) (dh c) nz nx ny _ (u_mem_sel_p f) Hm) as [Hp _].
  pose proof (wat_inv_pass (dz c) (dh c) nz nx ny _ _ (u_mem_sel_w f) Hm Hp) as [Hw _].
  done.
Qed.

Lemma frame_exclusion kz kx ky :
  (kz < nz)%nat → (kx < nx)%nat → (ky < ny)%nat →
  ∃ m p w,
    Np.cell (mem_slab fd) (kz, kx, ky) = Some m ∧
    Np.cell (prot_slab fd) (kz, kx, ky) = Some p ∧
    Np.cell (wat_slab fd) (kz, kx, ky) = Some w ∧
    (0 < m → p = 0) ∧ (0 < m ∨ 0 < p → w = 0) ∧ (w = 0 ∨ w = 1).
Proof.
  intros Lz Lx Ly. destruct frame_shapes as (Sm & _ & Sp & Sw).
  unfold fd, frame_pass, after_membrane in *. cbn [mem_slab prot_slab wat_slab] in *.
  set (mem := mem_slab0 _) in *. set (prot := (protein_pass _ _ _ _ _ _ _).1) in *.
  set (wat := water_pass _ _ _ _ _ _ _ _) in *.
  destruct (cell_shaped _ _ _ _ kz kx ky Sm) as [m Hm]; try done.
  destruct (cell_shaped _ _ _ _ kz kx ky Sp) as [p Hp]; try done.
  destruct (cell_shaped _ _ _ _ kz kx ky Sw) as [w Hw]; try done.
  pose proof (prot_inv_pass (dz c) (dh c) nz nx ny _ (u_mem_sel_p f) Sm) as [_ Hexp].
  pose proof (wat_inv_pass (dz c) (dh c) nz nx ny _ _ (u_mem_sel_w f) Sm Sp)
    as [_ Hexw].
  fold prot in Hexp. fold wat in Hexw.
  exists m, p, w. repeat split; try done.
  - intros Hpos. specialize (Hexp (kz, kx, ky) m Hm).
    rewrite Hexp in Hp by lia. congruence.
  - intros Hpos.
    destruct (Hexw (kz, kx, ky) w Hw) as [-> | (_ & Hm0 & Hp0)]; [done |].
    rewrite Hm0 in Hm. rewrite Hp0 in Hp. destruct Hpos; simplify_eq; lia.
  - destruct (Hexw (kz, kx, ky) w Hw) as [-> | (-> & _)]; auto.
Qed.

End Exclusion.

(** C1.  In every frame that [Get_info] processes and at every cell of
    the grid, the three occupancy volumes hold a value, and: a positive
    membrane count forces the protein count to be 0; a positive membrane
    or protein count forces the water mark to be 0; the water mark is 0
    or 1. *)
Theorem exclusion_priority c traj run fd kz kx ky :
  Get_info c traj = Some run → fd ∈ frames_of run →
  (Z.of_nat kz < nz_of run) → (Z.of_nat kx < nx_of run) → (Z.of_nat ky < ny_of run) →
  ∃ m p w,
    Np.cell (mem_slab fd) (kz, kx, ky) = Some m ∧
    Np.cell (prot_slab fd) (kz, kx, ky) = Some p ∧
    Np.cell (wat_slab fd) (kz, kx, ky) = Some w ∧
    (0 < m → p = 0) ∧ (0 < m ∨ 0 < p → w = 0) ∧ (w = 0 ∨ w = 1).
Proof.
  intros Hrun Hfd Lz Lx Ly.
  destruct (Get_info_frames _ _ _ _ Hrun Hfd) as (Hdims & f & _ & ->).
  apply frame_exclusion; lia.
Qed.

Lemma sample_run_computed : Get_info sample_config sample_traj = Some sample_run.
Proof. vm_compute. reflexivity. Qed.

Lemma exclusion_priority_witness :
  ∃ m p w,
    Np.cell (mem_slab sample_data) (2, 1, 1)%nat = Some m ∧
    Np.cell (prot_slab sample_data) (2, 1, 1)%nat = Some p ∧
    Np.cell (wat_slab sample_data) (2, 1, 1)%nat = Some w ∧
    (0 < m → p = 0) ∧ (0 < m ∨ 0 < p → w = 0) ∧ (w = 0 ∨ w = 1).
Proof.
  apply (exclusion_priority sample_config sample_traj sample_run sample_data 2 1 1).
  - vm_compute. reflexivity.
  - simpl. left.
  - reflexivity.
  - reflexivity.
  - reflexivity.
Defined.

(** ** Cell indices *)

Lemma int_toward_zero q : Py.int q = toward_zero q.
Proof.
  destruct q as [n den]. unfold Py.int, toward_zero, Qle_bool, Qceiling, Qfloor.
  simpl. rewrite Z.mul_1_r. change (0 * Z.pos den) with 0.
  destruct (Z.leb_spec 0 n) as [Hn | Hn].
  - apply Z.quot_div_nonneg; lia.
  - rewrite <- (Z.opp_involutive n) at 1.
    rewrite Z.quot_opp_l by lia. f_equal. apply Z.quot_div_nonneg; lia.
Qed.

Lemma int_floor_nonneg q : (0 <= q)%Q → Py.int q = Qfloor q.
Proof.
  intros Hq. rewrite int_toward_zero. unfold toward_zero.
  apply Qle_bool_iff in Hq. by rewrite Hq.
Qed.

Lemma Qdiv_nonneg a b : (0 <= a)%Q → (0 < b)%Q → (0 <= a / b)%Q.
Proof.
  intros Ha Hb. unfold Qdiv. apply Qmult_le_0_compat; [done |].
  apply Qlt_le_weak, Qinv_lt_0_compat, Hb.
Qed.

(** C6, as the code has it.  For nonzero cell sizes the index of a
    position is, axis by axis, the quotient of the coordinate by the
    cell size of that axis (z by [dh], x and y by [dz]) rounded toward
    zero, unclamped; it is the floor of the quotient whenever the
    quotient is not negative. *)
Theorem cell_index_rounds_toward_zero d h x y z :
  ¬ (d == 0)%Q → ¬ (h == 0)%Q →
  cell_index d h (x, y, z) =
    (toward_zero (z / h), toward_zero (x / d), toward_zero (y / d)) ∧
  ((0 <= z / h)%Q → (cell_index d h (x, y, z)).1.1 = Qfloor (z / h)) ∧
  ((0 <= x / d)%Q → (cell_index d h (x, y, z)).1.2 = Qfloor (x / d)) ∧
  ((0 <= y / d)%Q → (cell_index d h (x, y, z)).2 = Qfloor (y / d)).
Proof.
  intros _ _. unfold cell_index. rewrite !int_toward_zero. simpl.
  repeat split; intros Hq; rewrite <- int_toward_zero; by apply int_floor_nonneg.
Qed.

Lemma cell_index_rounds_toward_zero_witness :
  cell_index 5 3 (12, -(7 # 2), 10)%Q = (3, 2, 0).
Proof.
  destruct (cell_index_rounds_toward_zero 5 3 12 (-(7 # 2)) 10) as [E _].
  - vm_compute. discriminate.
  - vm_compute. discriminate.
  - rewrite E. vm_compute. reflexivity.
Defined.

(** C6, as stated, fails at a negative coordinate: x = -1/2 with cells
    of size 1 is put in column 0, floor division puts it in column -1. *)
Lemma cell_index_is_not_floor :
  cell_index 1 1 (-(1 # 2), 0, 0)%Q = (0, 0, 0) ∧
  floor_index 1 1 (-(1 # 2), 0, 0)%Q = (0, -1, 0) ∧
  cell_index 1 1 (-(1 # 2), 0, 0)%Q ≠ floor_index 1 1 (-(1 # 2), 0, 0)%Q.
Proof. vm_compute. repeat split; discriminate. Qed.

(** ** Grid sizing *)

Lemma margin_floor d : (0 < d)%Q → margin d = floor_margin d.
Proof.
  intros Hd. unfold margin, floor_margin. rewrite int_floor_nonneg; [done |].
  by apply Qdiv_nonneg.
Qed.

Lemma py_get_0 {A} (l : list A) : Py.get l 0 = l !! 0%nat.
Proof.
  destruct l as [|x l]; [done |]. unfold Py.get, Py.index. cbn [length].
  case_decide as Hlen; [done |]. exfalso. apply Hlen. lia.
Qed.

Lemma frame_lengths c nz nx ny f :
  let fd := frame_pass c nz nx ny f in
  length (prot_area fd) = nz ∧ length (mem_area fd) = nz ∧
  length (wat_area fd) = nz ∧ length (tot_area fd) = nz ∧
  length (resid_array fd) = nz ∧ length (resid_array_zx fd) = nz ∧
  Forall (λ row : vector, length row = nx) (resid_array_zx fd).
Proof.
  destruct (frame_shapes c nz nx ny f) as ([Lm _] & _ & [Lp _] & [Lw _]).
  pose proof (mem_wf_pass (dz c) (dh c) nz nx ny (same_selection c)
                (u_mem_sel_m f) (u_mem_sel_m_a f)) as (_ & _ & L1 & L2 & L3).
  unfold frame_pass, after_membrane in *. cbn [mem_slab prot_slab wat_slab] in *. simpl.
  rewrite !length_zip_with, !length_fmap.
  repeat split; try lia.
  apply Forall_fmap. eapply Forall_impl; [apply L3 |].
  intros row Hrow. simpl. by rewrite length_fmap.
Qed.

(** C7.  For positive cell sizes and a box of non-negative lengths, the
    grid of a run is the one the formulas with floor give on the box of
    frame 0 of the trajectory, and every array of every processed frame
    has exactly that size. *)
Theorem grid_fixed_by_first_frame c traj run f0 :
  (0 < dz c)%Q → (0 < dh c)%Q →
  traj !! 0%nat = Some f0 →
  (0 <= (dimensions f0).1.1)%Q → (0 <= (dimensions f0).1.2)%Q →
  (0 <= (dimensions f0).2)%Q →
  Get_info c traj = Some run →
  (nz_of run, nx_of run, ny_of run) = floor_grid_size (dz c) (dh c) (dimensions f0) ∧
  ∀ fd, fd ∈ frames_of run →
    let nz := Z.to_nat (nz_of run) in
    let nx := Z.to_nat (nx_of run) in
    let ny := Z.to_nat (ny_of run) in
    Np.shaped nz nx ny (mem_slab fd) ∧ Np.shaped nz nx ny (mem_resid_slab fd) ∧
    Np.shaped nz nx ny (prot_slab fd) ∧ Np.shaped nz nx ny (wat_slab fd) ∧
    length (prot_area fd) = nz ∧ length (mem_area fd) = nz ∧
    length (wat_area fd) = nz ∧ length (tot_area fd) = nz ∧
    length (resid_array fd) = nz ∧ length (resid_array_zx fd) = nz ∧
    Forall (λ row : vector, length row = nx) (resid_array_zx fd).
Proof.
  intros Hd Hh H0 Bx By Bz Hrun. split.
  - unfold Get_info in Hrun. destruct (interval c) as [[start stop0] step].
    rewrite py_get_0, H0 in Hrun. simpl in Hrun.
    unfold grid_size, floor_grid_size in *.
    destruct (dimensions f0) as [[bx by_] bz]. simpl in Bx, By, Bz.
    destruct (Py.range _ _ _); simpl in Hrun; [| done].
    destruct (mapM _ _); simpl in Hrun; [| done].
    injection Hrun as <-. simpl.
    rewrite !margin_floor by done.
    rewrite !int_floor_nonneg by (by apply Qdiv_nonneg). done.
  - intros fd Hfd.
    destruct (Get_info_frames _ _ _ _ Hrun Hfd) as (_ & f & _ & ->).
    intros nz nx ny.
    destruct (frame_shapes c nz nx ny f) as (S1 & S2 & S3 & S4).
    destruct (frame_lengths c nz nx ny f) as (L1 & L2 & L3 & L4 & L5 & L6 & L7).
    repeat split; try apply S1; try apply S2; try apply S3; try apply S4; done.
Qed.

Lemma grid_fixed_by_first_frame_witness :
  (nz_of sample_run, nx_of sample_run, ny_of sample_run) = (11, 10, 10) ∧
  floor_grid_size 5 5 (40, 40, 40)%Q = (11, 10, 10).
Proof.
  destruct (grid_fixed_by_first_frame sample_config sample_traj sample_run
              sample_frame) as [E _].
  - reflexivity.
  - reflexivity.
  - reflexivity.
  - vm_compute. discriminate.
  - vm_compute. discriminate.
  - vm_compute. discriminate.
  - vm_compute. reflexivity.
  - split; [reflexivity |]. symmetry. exact E.
Defined.

(** ** Areas *)

Lemma Qsquare_nonneg (d : Q) : (0 <= d * d)%Q.
Proof. destruct d as [n den]. unfold Qle, Qmult. simpl. nia. Qed.

Lemma count_nonzero1_bounds (r : vector) :
  0 <= Np.count_nonzero1 r <= Z.of_nat (length r).
Proof.
  unfold Np.count_nonzero1. pose proof (length_filter (λ c : Z, c ≠ 0) r). lia.
Qed.

Lemma count_nonzero_bounds (s : plane) nx ny :
  length s = nx → Forall (λ r : vector, length r = ny) s →
  0 <= Np.count_nonzero s <= Z.of_nat nx * Z.of_nat ny.
Proof.
  intros <-. induction s as [|r s IH]; simpl; [lia |].
  intros Hs. apply Forall_cons in Hs as [Hr Hs]. specialize (IH Hs).
  pose proof (count_nonzero1_bounds r). lia.
Qed.

(** The area recorded for a slab lies between 0 and the area of the
    whole lateral grid. *)
Lemma slab_area_bounds d (s : plane) nx ny :
  length s = nx → Forall (λ r : vector, length r = ny) s →
  0 <= slab_area d s ∧
  (inject_Z (slab_area d s) <= inject_Z (Z.of_nat nx) * inject_Z (Z.of_nat ny) * d * d)%Q.
Proof.
  intros Hx Hy. destruct (count_nonzero_bounds s nx ny Hx Hy) as [Hlo Hhi].
  unfold slab_area, Np.store_int.
  set (n := Np.count_nonzero s) in *.
  assert (0 <= inject_Z n * d * d)%Q as Hq.
  { rewrite <- Qmult_assoc. apply Qmult_le_0_compat; [| apply Qsquare_nonneg].
    change 0%Q with (inject_Z 0). by rewrite <- Zle_Qle. }
  rewrite (int_floor_nonneg _ Hq). split.
  - change 0 with (Qfloor 0). by apply Qfloor_resp_le.
  - eapply Qle_trans; [apply Qfloor_le |].
    rewrite <- !(Qmult_assoc _ d d). apply Qmult_le_compat_r; [| apply Qsquare_nonneg].
    rewrite <- inject_Z_mult. by rewrite <- Zle_Qle.
Qed.

(** The area recorded for a slab is the count of occupied cells times
    [dz^2] whenever [dz^2] is a whole number, as with the default 3. *)
Lemma slab_area_exact d k (s : plane) :
  (d * d == inject_Z k)%Q → slab_area d s = Np.count_nonzero s * k.
Proof.
  intros Hk. unfold slab_area, Np.store_int.
  assert (0 <= Np.count_nonzero s) as Hn.
  { induction s as [|r s IH]; simpl; [lia |].
    pose proof (count_nonzero1_bounds r). lia. }
  assert (inject_Z (Np.count_nonzero s) * d * d == inject_Z (Np.count_nonzero s * k))%Q
    as Hq by (rewrite <- Qmult_assoc, Hk, inject_Z_mult; reflexivity).
  assert (0 <= inject_Z (Np.count_nonzero s) * d * d)%Q as Hpos.
  { rewrite <- Qmult_assoc. apply Qmult_le_0_compat; [| apply Qsquare_nonneg].
    change 0%Q with (inject_Z 0). by rewrite <- Zle_Qle. }
  rewrite (int_floor_nonneg _ Hpos), Hq. apply Qfloor_Z.
Qed.

(** In every slab of a frame the three areas are recorded within their
    bounds and the total recorded is their sum. *)
Lemma total_area_is_sum c nz nx ny f z :
  (z < nz)%nat →
  let fd := frame_pass c nz nx ny f in
  let whole := (inject_Z (Z.of_nat nx) * inject_Z (Z.of_nat ny) * dz c * dz c)%Q in
  ∃ p m w,
    prot_area fd !! z = Some p ∧ mem_area fd !! z = Some m ∧
    wat_area fd !! z = Some w ∧ tot_area fd !! z = Some (p + m + w) ∧
    (0 <= p ∧ (inject_Z p <= whole)%Q) ∧ (0 <= m ∧ (inject_Z m <= whole)%Q) ∧
    (0 <= w ∧ (inject_Z w <= whole)%Q).
Proof.
  intros Hz fd whole. destruct (frame_shapes c nz nx ny f) as (Sm & _ & Sp & Sw).
  fold fd in Sm, Sp, Sw.
  assert (∀ a, Np.shaped nz nx ny a →
            ∃ s, a !! z = Some s ∧ length s = nx ∧ Forall (λ r : vector, length r = ny) s)
    as Hslab.
  { intros a [La Ha]. destruct (lookup_lt_is_Some_2 a z) as [s Hs]; [lia |].
    exists s. split; [done |]. apply (Forall_lookup_1 _ _ _ _ Ha Hs). }
  destruct (Hslab _ Sm) as (sm & Hsm & Lm & Fm).
  destruct (Hslab _ Sp) as (sp & Hsp & Lp & Fp).
  destruct (Hslab _ Sw) as (sw & Hsw & Lw & Fw).
  exists (slab_area (dz c) sp), (slab_area (dz c) sm), (slab_area (dz c) sw).
  unfold fd, frame_pass, after_membrane in *.
  cbn [prot_area mem_area wat_area tot_area mem_slab prot_slab wat_slab] in *.
  rewrite !lookup_zip_with, !list_lookup_fmap, Hsm, Hsp, Hsw. simpl.
  repeat split; try (by apply (slab_area_bounds _ _ nx ny)).
Qed.

(** C2 at lateral cells of 2.5: the slab of the protein atom at the
    centre of the sample system has one occupied protein cell,
    1 * 2.5 * 2.5 is 6.25, and the protein area recorded for the slab
    is 6. *)
Theorem fractional_area_is_truncated :
  ∃ run fd sp,
    Get_info fractional_config sample_traj = Some run ∧
    frames_of run !! 0%nat = Some fd ∧
    prot_slab fd !! 4%nat = Some sp ∧ Np.count_nonzero sp = 1 ∧
    prot_area fd !! 4%nat = Some 6 ∧
    ¬ (inject_Z 6 == inject_Z 1 * (5 # 2) * (5 # 2))%Q.
Proof.
  eexists _, _, _. split; [vm_compute; reflexivity |].
  split; [reflexivity |]. split; [vm_compute; reflexivity |].
  split; [vm_compute; reflexivity |]. split; [vm_compute; reflexivity |].
  vm_compute. discriminate.
Qed.

(** ** Atoms that the grid refuses *)

Lemma foldl_related {S X} (R : S → S → Prop) (step : S → X → S) (l : list X) s s' :
  (∀ s s' x, R s s' → R (step s x) (step s' x)) →
  R s s' → R (foldl step s l) (foldl step s' l).
Proof.
  intros Hstep. revert s s'. induction l as [|x l IH]; simpl; auto.
Qed.

Section Skipping.

Variables (d h : Q) (nz nx ny : nat).

Lemma upd3_rejected f a t :
  Np.shaped nz nx ny a → rejected d h nz nx ny t →
  let '(iz, ix, iy) := cell_index d h (position t) in
  Np.upd3 f a iz ix iy = None ∧ Np.get3 a iz ix iy = None.
Proof.
  unfold rejected. destruct (cell_index d h (position t)) as [[iz ix] iy].
  intros Ha Hrej. unfold Np.upd3, Np.get3.
  by rewrite (locate_shaped _ _ _ _ _ _ _ Ha), Hrej.
Qed.

Lemma step_all_rejected st t :
  mem_wf nz nx ny st → rejected d h nz nx ny t →
  step_all d h nz nx ny st t = mem_warn (warn_membrane d h nz nx ny t) st.
Proof.
  intros (Hm & _) Hrej. pose proof (upd3_rejected Z.succ _ t Hm Hrej) as Hu.
  unfold step_all. destruct (cell_index d h (position t)) as [[iz ix] iy].
  destruct Hu as [-> _]. done.
Qed.

Lemma step_same_rejected st t :
  mem_wf nz nx ny st → rejected d h nz nx ny t →
  step_same d h nz nx ny st t = mem_warn (warn_membrane d h nz nx ny t) st.
Proof.
  intros (Hm & _) Hrej. pose proof (upd3_rejected Z.succ _ t Hm Hrej) as Hu.
  unfold step_same, try_same. destruct (cell_index d h (position t)) as [[iz ix] iy].
  destruct Hu as [-> _]. done.
Qed.

Lemma step_head_rejected st t :
  mem_wf nz nx ny st → rejected d h nz nx ny t →
  same_volumes (step_head d h st t) st.
Proof.
  intros (_ & Hr & _) Hrej. pose proof (upd3_rejected Z.succ _ t Hr Hrej) as Hu.
  unfold step_head. destruct (cell_index d h (position t)) as [[iz ix] iy].
  destruct Hu as [-> _]. done.
Qed.

Lemma step_head_rejected_z st t :
  mem_wf nz nx ny st → rejected_z d h nz t → step_head d h st t = st.
Proof.
  intros (_ & Hr & Hl & _) Hrej. unfold rejected_z in Hrej. unfold step_head.
  destruct (cell_index d h (position t)) as [[iz ix] iy]. simpl in Hrej.
  unfold Np.upd3. rewrite (locate_shaped _ _ _ _ _ _ _ Hr).
  unfold Np.locate_dims. rewrite Hrej. simpl.
  unfold register. rewrite Hl, Hrej. simpl. by destruct st.
Qed.

Lemma step_prot_rejected mem st t :
  Np.shaped nz nx ny mem → rejected d h nz nx ny t →
  step_prot d h nz nx ny mem st t = (st.1, st.2 ++ [warn_protein d h nz nx ny t]).
Proof.
  intros Hm Hrej. pose proof (upd3_rejected Z.succ _ t Hm Hrej) as Hu.
  unfold step_prot. destruct (cell_index d h (position t)) as [[iz ix] iy].
  destruct Hu as [_ ->]. done.
Qed.

Lemma step_wat_rejected mem prot wat t :
  Np.shaped nz nx ny prot → rejected d h nz nx ny t →
  step_wat d h mem prot wat t = wat.
Proof.
  intros Hp Hrej. pose proof (upd3_rejected Z.succ _ t Hp Hrej) as Hu.
  unfold step_wat. destruct (cell_index d h (position t)) as [[iz ix] iy].
  destruct Hu as [_ ->]. done.
Qed.

(** The loops read the arrays and lists only, never the log. *)
Lemma step_same_data s s' t :
  same_data s s' → same_data (step_same d h nz nx ny s t) (step_same d h nz nx ny s' t).
Proof.
  destruct s, s'. unfold same_data. simpl. intros (-> & -> & -> & ->).
  unfold step_same, try_same. simpl.
  destruct (cell_index d h (position t)) as [[iz ix] iy].
  destruct (Np.upd3 _ _ _ _ _); simpl; [| done].
  destruct (register _ _ _ _ _); simpl; done.
Qed.

Lemma step_all_data s s' t :
  same_data s s' → same_data (step_all d h nz nx ny s t) (step_all d h nz nx ny s' t).
Proof.
  destruct s, s'. unfold same_data. simpl. intros (-> & -> & -> & ->).
  unfold step_all. simpl.
  destruct (cell_index d h (position t)) as [[iz ix] iy].
  destruct (Np.upd3 _ _ _ _ _); simpl; done.
Qed.

Lemma step_head_data s s' t :
  same_data s s' → same_data (step_head d h s t) (step_head d h s' t).
Proof.
  destruct s, s'. unfold same_data. simpl. intros (-> & -> & -> & ->).
  unfold step_head. simpl.
  destruct (cell_index d h (position t)) as [[iz ix] iy].
  destruct (Np.upd3 _ _ _ _ _); simpl; done.
Qed.

Lemma step_head_volumes s s' t :
  same_volumes s s' → same_volumes (step_head d h s t) (step_head d h s' t).
Proof.
  destruct s, s'. unfold same_volumes. simpl. intros (-> & -> & ->).
  unfold step_head. simpl.
  destruct (cell_index d h (position t)) as [[iz ix] iy].
  destruct (Np.upd3 _ _ _ _ _); simpl; done.
Qed.

(** What has been printed stays printed. *)
Lemma step_same_log w s t :
  w ∈ mem_log s → w ∈ mem_log (step_same d h nz nx ny s t).
Proof.
  intros Hw. unfold step_same, try_same.
  destruct (cell_index d h (position t)) as [[iz ix] iy].
  destruct (Np.upd3 _ _ _ _ _); simpl; [| (try done; apply elem_of_app; by left)].
  destruct (register _ _ _ _ _); simpl; (try done; apply elem_of_app; by left).
Qed.

Lemma step_all_log w s t :
  w ∈ mem_log s → w ∈ mem_log (step_all d h nz nx ny s t).
Proof.
  intros Hw. unfold step_all.
  destruct (cell_index d h (position t)) as [[iz ix] iy].
  destruct (Np.upd3 _ _ _ _ _); simpl; (try done; apply elem_of_app; by left).
Qed.

Lemma step_head_log w s t : w ∈ mem_log s → w ∈ mem_log (step_head d h s t).
Proof.
  intros Hw. unfold step_head.
  destruct (cell_index d h (position t)) as [[iz ix] iy]. simpl.
  destruct (Np.upd3 _ _ _ _ _); done.
Qed.

Lemma step_prot_data mem st st' t :
  st.1 = st'.1 → (step_prot d h nz nx ny mem st t).1 = (step_prot d h nz nx ny mem st' t).1.
Proof.
  destruct st, st'. simpl. intros ->. unfold step_prot. simpl.
  destruct (cell_index d h (position t)) as [[iz ix] iy].
  destruct (Np.get3 _ _ _ _); simpl; [| done].
  case_decide; [| done]. destruct (Np.upd3 _ _ _ _ _); done.
Qed.

Lemma step_prot_log mem w st t :
  w ∈ st.2 → w ∈ (step_prot d h nz nx ny mem st t).2.
Proof.
  intros Hw. unfold step_prot.
  destruct (cell_index d h (position t)) as [[iz ix] iy].
  destruct (Np.get3 _ _ _ _); simpl; [| (try done; apply elem_of_app; by left)].
  case_decide; [| done]. destruct (Np.upd3 _ _ _ _ _); simpl; (try done; apply elem_of_app; by left).
Qed.

End Skipping.

Section Skipped_atoms.

Variables (c : Config) (nz nx ny : nat).

Lemma same_pass_skip t l1 l2 ma :
  rejected (dz c) (dh c) nz nx ny t →
  let A := membrane_pass (dz c) (dh c) nz nx ny true (l1 ++ t :: l2) ma in
  let B := membrane_pass (dz c) (dh c) nz nx ny true (l1 ++ l2) ma in
  same_data A B ∧ warn_membrane (dz c) (dh c) nz nx ny t ∈ mem_log A.
Proof.
  intros Hrej. unfold membrane_pass. rewrite !foldl_app. simpl.
  set (s1 := foldl _ (mem_init nz nx ny) l1).
  assert (mem_wf nz nx ny s1) as Hwf.
  { apply foldl_invariant; [apply mem_wf_init | intros; by apply mem_wf_step_same]. }
  rewrite (step_same_rejected _ _ _ _ _ _ _ Hwf Hrej). split.
  - apply foldl_related; [apply step_same_data | done].
  - apply foldl_invariant; [| intros; by apply step_same_log].
    simpl. apply elem_of_app. right. by apply list_elem_of_singleton.
Qed.

Lemma all_pass_skip t l1 l2 m :
  rejected (dz c) (dh c) nz nx ny t →
  let A := membrane_pass (dz c) (dh c) nz nx ny false m (l1 ++ t :: l2) in
  let B := membrane_pass (dz c) (dh c) nz nx ny false m (l1 ++ l2) in
  same_data A B ∧ warn_membrane (dz c) (dh c) nz nx ny t ∈ mem_log A.
Proof.
  intros Hrej. unfold membrane_pass. rewrite !foldl_app. simpl.
  set (s1 := foldl _ (mem_init nz nx ny) l1).
  assert (mem_wf nz nx ny s1) as Hwf.
  { apply foldl_invariant; [apply mem_wf_init | intros; by apply mem_wf_step_all]. }
  rewrite (step_all_rejected _ _ _ _ _ _ _ Hwf Hrej). split.
  - apply foldl_related; [apply step_head_data |].
    apply foldl_related; [apply step_all_data | done].
  - apply foldl_invariant; [| intros; by apply step_head_log].
    apply foldl_invariant; [| intros; by apply step_all_log].
    simpl. apply elem_of_app. right. by apply list_elem_of_singleton.
Qed.

Lemma head_pass_skip t l1 l2 ma :
  rejected (dz c) (dh c) nz nx ny t →
  let A := membrane_pass (dz c) (dh c) nz nx ny false (l1 ++ t :: l2) ma in
  let B := membrane_pass (dz c) (dh c) nz nx ny false (l1 ++ l2) ma in
  same_volumes A B ∧ (rejected_z (dz c) (dh c) nz t → A = B).
Proof.
  intros Hrej. unfold membrane_pass. rewrite !foldl_app. simpl.
  set (s0 := foldl _ (mem_init nz nx ny) ma).
  set (s1 := foldl _ s0 l1).
  assert (mem_wf nz nx ny s1) as Hwf.
  { apply foldl_invariant; [| intros; by apply mem_wf_step_head].
    apply foldl_invariant; [apply mem_wf_init | intros; by apply mem_wf_step_all]. }
  split.
  - apply foldl_related; [apply step_head_volumes |].
    by apply (step_head_rejected _ _ nz nx ny).
  - intros Hz. by rewrite (step_head_rejected_z _ _ nz nx ny _ _ Hwf Hz).
Qed.

Lemma protein_pass_skip mem t l1 l2 :
  Np.shaped nz nx ny mem → rejected (dz c) (dh c) nz nx ny t →
  let A := protein_pass (dz c) (dh c) nz nx ny mem (l1 ++ t :: l2) in
  let B := protein_pass (dz c) (dh c) nz nx ny mem (l1 ++ l2) in
  A.1 = B.1 ∧ warn_protein (dz c) (dh c) nz nx ny t ∈ A.2.
Proof.
  intros Hmem Hrej. unfold protein_pass. rewrite !foldl_app. simpl.
  rewrite (step_prot_rejected _ _ _ _ _ _ _ _ Hmem Hrej). split.
  - apply (foldl_related (λ s s', s.1 = s'.1)); [| done].
    intros. by apply step_prot_data.
  - apply (foldl_invariant (λ s, _ ∈ s.2)); [| intros; by apply step_prot_log].
    simpl. apply elem_of_app. right. by apply list_elem_of_singleton.
Qed.

Lemma water_pass_skip mem prot t l1 l2 :
  Np.shaped nz nx ny prot → rejected (dz c) (dh c) nz nx ny t →
  water_pass (dz c) (dh c) nz nx ny mem prot (l1 ++ t :: l2) =
  water_pass (dz c) (dh c) nz nx ny mem prot (l1 ++ l2).
Proof.
  intros Hp Hrej. unfold water_pass. rewrite !foldl_app. simpl.
  by rewrite (step_wat_rejected _ _ nz nx ny _ _ _ _ Hp Hrej).
Qed.

Lemma after_membrane_data ms ms' p w :
  same_data ms ms' →
  silent (after_membrane c nz nx ny ms p w) = silent (after_membrane c nz nx ny ms' p w).
Proof.
  destruct ms, ms'. unfold same_data. simpl. by intros (-> & -> & -> & ->).
Qed.

Lemma after_membrane_volumes ms ms' p w :
  same_volumes ms ms' →
  occupancy (after_membrane c nz nx ny ms p w) =
  occupancy (after_membrane c nz nx ny ms' p w).
Proof.
  destruct ms, ms'. unfold same_volumes. simpl. by intros (-> & -> & ->).
Qed.

End Skipped_atoms.

(** C3, as the code has it.  Let [t] be an atom whose subscript the grid
    arrays refuse (a component at or beyond its extent, or below minus
    its extent).  Then, whatever else the frame holds:
    - as a water atom, [t] leaves the whole record of the frame as it is
      without it, and nothing is printed for it;
    - as a protein atom, or as an atom of the only membrane loop
      ([sel_m_a == sel_m]), or of the all-atoms membrane loop
      ([sel_m_a != sel_m]), [t] leaves every number of the record as it
      is without it, and its warning (residue name, position, grid size,
      computed index) is printed;
    - as an atom of the head-subset loop ([sel_m_a != sel_m]), [t] leaves
      the occupancy volumes, the area profiles and the printed text as
      they are without it, and the whole record when its z index itself
      is refused;
    - the iteration of the frame loop returns its record: it depends on
      no atom whether it does. *)
Theorem refused_atoms_are_skipped c nz nx ny t rg box m ma p w l1 l2 :
  rejected (dz c) (dh c) nz nx ny t →
  frame_pass c nz nx ny (Build_Frame rg box m ma p (l1 ++ t :: l2)) =
    frame_pass c nz nx ny (Build_Frame rg box m ma p (l1 ++ l2)) ∧
  (let A := frame_pass c nz nx ny (Build_Frame rg box m ma (l1 ++ t :: l2) w) in
   let B := frame_pass c nz nx ny (Build_Frame rg box m ma (l1 ++ l2) w) in
   silent A = silent B ∧ warn_protein (dz c) (dh c) nz nx ny t ∈ printed A) ∧
  (same_selection c = true →
   let A := frame_pass c nz nx ny (Build_Frame rg box (l1 ++ t :: l2) ma p w) in
   let B := frame_pass c nz nx ny (Build_Frame rg box (l1 ++ l2) ma p w) in
   silent A = silent B ∧ warn_membrane (dz c) (dh c) nz nx ny t ∈ printed A) ∧
  (same_selection c = false →
   let A := frame_pass c nz nx ny (Build_Frame rg box m (l1 ++ t :: l2) p w) in
   let B := frame_pass c nz nx ny (Build_Frame rg box m (l1 ++ l2) p w) in
   silent A = silent B ∧ warn_membrane (dz c) (dh c) nz nx ny t ∈ printed A) ∧
  (same_selection c = false →
   let A := frame_pass c nz nx ny (Build_Frame rg box (l1 ++ t :: l2) ma p w) in
   let B := frame_pass c nz nx ny (Build_Frame rg box (l1 ++ l2) ma p w) in
   occupancy A = occupancy B ∧ (rejected_z (dz c) (dh c) nz t → A = B)) ∧
  (∀ traj i f, Py.get traj i = Some f →
     iteration c traj (Z.of_nat nz) (Z.of_nat nx) (Z.of_nat ny) i =
       Some (Rgr_of f, frame_pass c nz nx ny f)).
Proof.
  intros Hrej. repeat apply conj.
  - unfold frame_pass, after_membrane. simpl.
    set (ms := membrane_pass _ _ _ _ _ _ _ _).
    pose proof (mem_wf_pass (dz c) (dh c) nz nx ny (same_selection c) m ma) as (Hm & _).
    pose proof (prot_inv_pass (dz c) (dh c) nz nx ny _ p Hm) as [Hp _].
    fold ms in Hp. by rewrite (water_pass_skip c nz nx ny _ _ _ _ _ Hp Hrej).
  - unfold frame_pass, after_membrane. simpl.
    set (ms := membrane_pass _ _ _ _ _ _ _ _).
    pose proof (mem_wf_pass (dz c) (dh c) nz nx ny (same_selection c) m ma) as (Hm & _).
    fold ms in Hm.
    destruct (protein_pass_skip c nz nx ny _ t l1 l2 Hm Hrej) as [E _].
    unfold silent. simpl. by rewrite E.
  - simpl.
    pose proof (mem_wf_pass (dz c) (dh c) nz nx ny (same_selection c) m ma) as (Hm & _).
    destruct (protein_pass_skip c nz nx ny _ t l1 l2 Hm Hrej) as [_ Hin].
    apply elem_of_app. by right.
  - intros Hsame. unfold frame_pass. simpl. rewrite Hsame.
    destruct (same_pass_skip c nz nx ny t l1 l2 ma Hrej) as [Hd Hin].
    split; [by apply after_membrane_data | apply elem_of_app; by left].
  - intros Hsplit. unfold frame_pass. simpl. rewrite Hsplit.
    destruct (all_pass_skip c nz nx ny t l1 l2 m Hrej) as [Hd Hin].
    split; [by apply after_membrane_data | apply elem_of_app; by left].
  - intros Hsplit. unfold frame_pass. simpl. rewrite Hsplit.
    destruct (head_pass_skip c nz nx ny t l1 l2 ma Hrej) as [Hv E].
    split; [by apply after_membrane_volumes |].
    intros Hz. by rewrite (E Hz).
  - intros traj i f Hf. unfold iteration. rewrite Hf. simpl.
    rewrite decide_True by lia. by rewrite !Nat2Z.id.
Qed.

Lemma refused_atoms_are_skipped_witness :
  frame_pass sample_config 11 10 10 (bare_frame [] [] [] ([] ++ stray_water :: [])) =
  frame_pass sample_config 11 10 10 (bare_frame [] [] [] ([] ++ [])).
Proof.
  destruct (refused_atoms_are_skipped sample_config 11 10 10 stray_water
              12 (55, 55, 40)%Q [] [] [] [] [] []) as [E _].
  - vm_compute. reflexivity.
  - exact E.
Defined.

(** C3, as stated, fails in three ways on a grid of 11 x 10 x 10 cells
    of size 5: a water atom with index (6, 10, 1) is dropped without any
    warning; a lipid head with index (2, 1, 10) is entered in the
    residue ids of slab 2; a membrane atom with index (2, -1, 1) is
    counted, in the last column. *)
Lemma out_of_range_atoms_counterexample :
  (cell_index 5 5 (position stray_water) = (6, 10, 1) ∧
   printed (frame_pass sample_config 11 10 10 (bare_frame [] [] [] [stray_water])) = []) ∧
  (cell_index 5 5 (position stray_head_y) = (2, 1, 10) ∧
   resid_array (frame_pass sample_config 11 10 10
                  (bare_frame [stray_head_y] [stray_head_y] [] [])) !! 2%nat = Some 1) ∧
  (cell_index 5 5 (position stray_left) = (2, -1, 1) ∧
   Np.cell (mem_slab (frame_pass sample_config 11 10 10
                        (bare_frame [] [stray_left] [] []))) (2, 9, 1)%nat = Some 1).
Proof. vm_compute. repeat split; reflexivity. Qed.

(** ** De-duplication of residue ids *)

(** Registering a residue id a second time in the same slab, from any
    column, changes nothing: the count of the slab grows by one for the
    first atom of a residue and not at all for the others. *)
Lemma register_twice n iz ix ix' rl rlzx :
  let p := state_of (register n iz ix rl rlzx) in
  state_of (register n iz ix' p.1 p.2) = p.
Proof.
  intros p. subst p.
  remember (state_of (register n iz ix rl rlzx)) as p eqn:Hp.
  unfold register in Hp.
  destruct (Py.index (length rl) iz) as [kz|] eqn:Ez; simpl in Hp.
  2:{ subst p. simpl. unfold register. by rewrite Ez. }
  destruct (rl !! kz) as [ids|] eqn:Eids; simpl in Hp.
  2:{ subst p. simpl. unfold register. by rewrite Ez, Eids. }
  case_decide as Hin; simpl in Hp.
  { subst p. simpl. unfold register. rewrite Ez, Eids. by rewrite decide_True. }
  assert (∀ q, state_of (register n iz ix' (alter (λ l, l ++ [n]) kz rl) q)
               = (alter (λ l, l ++ [n]) kz rl, q)) as Hsecond.
  { intros q. unfold register. rewrite length_alter, Ez.
    rewrite list_lookup_alter_eq, Eids. simpl.
    rewrite decide_True; [done |].
    apply elem_of_app. right. by apply list_elem_of_singleton. }
  destruct (Py.index (length rlzx) iz) as [kz'|]; simpl in Hp;
    [| subst p; apply Hsecond].
  destruct (rlzx !! kz') as [row|]; simpl in Hp; [| subst p; apply Hsecond].
  destruct (Py.index (length row) ix) as [kx|]; simpl in Hp; subst p; apply Hsecond.
Qed.

(** In both branches no residue id occurs twice in the list of a slab. *)
Lemma register_nodup n iz ix rl rlzx :
  Forall NoDup rl → Forall NoDup (state_of (register n iz ix rl rlzx)).1.
Proof.
  intros Hnd. unfold register.
  destruct (Py.index (length rl) iz) as [kz|]; simpl; [| done].
  destruct (rl !! kz) as [ids|] eqn:Eids; simpl; [| done].
  case_decide as Hin; simpl; [done |].
  assert (Forall NoDup (alter (λ l, l ++ [n]) kz rl)) as Hnew.
  { apply Forall_alter; [done |]. intros ids' Hids' Hnd'.
    rewrite Eids in Hids'. injection Hids' as <-.
    apply NoDup_app. split; [done |]. split; [| apply NoDup_singleton].
    intros x Hx ->%list_elem_of_singleton. done. }
  destruct (Py.index (length rlzx) iz) as [kz'|]; simpl; [| done].
  destruct (rlzx !! kz') as [row|]; simpl; [| done].
  destruct (Py.index (length row) ix) as [kx|]; simpl; done.
Qed.

Lemma resid_lists_nodup d h nz nx ny same atoms_m atoms_m_a :
  Forall NoDup (resid_list (membrane_pass d h nz nx ny same atoms_m atoms_m_a)).
Proof.
  unfold membrane_pass. destruct same.
  - apply (foldl_invariant (λ st, Forall NoDup (resid_list st))).
    + simpl. apply Forall_replicate. constructor.
    + intros st t Hst. unfold step_same, try_same.
      destruct (cell_index d h (position t)) as [[iz ix] iy].
      destruct (Np.upd3 _ _ _ _ _); simpl; [| done].
      pose proof (register_nodup (resid t) iz ix _ (resid_list_zx st) Hst) as Hr.
      destruct (register _ _ _ _ _); simpl in *; done.
  - apply (foldl_invariant (λ st, Forall NoDup (resid_list st))).
    + apply (foldl_invariant (λ st, Forall NoDup (resid_list st))).
      * simpl. apply Forall_replicate. constructor.
      * intros st t Hst. unfold step_all.
        destruct (cell_index d h (position t)) as [[iz ix] iy].
        destruct (Np.upd3 _ _ _ _ _); simpl; done.
    + intros st t Hst. unfold step_head.
      destruct (cell_index d h (position t)) as [[iz ix] iy]. simpl.
      apply register_nodup. destruct (Np.upd3 _ _ _ _ _); simpl; done.
Qed.

(** ** Residue lists in the single membrane loop ([sel_m_a == sel_m]) *)

Section Residue_lists.

Variables (d h : Q) (nz nx ny : nat).

Lemma register_valid n iz ix rl rlzx kz kx ids :
  length rl = nz → length rlzx = nz →
  Forall (λ row : list (list Z), length row = nx) rlzx →
  Py.index nz iz = Some kz → Py.index nx ix = Some kx → rl !! kz = Some ids →
  register n iz ix rl rlzx =
    if decide (n ∈ ids) then Done (rl, rlzx)
    else Done (alter (λ l, l ++ [n]) kz rl,
               alter (alter (λ l, l ++ [n]) kx) kz rlzx).
Proof.
  intros L1 L2 Hrows Hz Hx Hids. unfold register.
  rewrite L1, Hz, Hids. case_decide; [done |].
  rewrite L2, Hz. pose proof (index_lt _ _ _ Hz) as Hlt.
  destruct (lookup_lt_is_Some_2 rlzx kz) as [row Hrow]; [lia |].
  rewrite Hrow. rewrite (Forall_lookup_1 _ _ _ _ Hrows Hrow), Hx. done.
Qed.

(** What one atom of the single loop does to the two list structures. *)
Lemma step_same_lists st t :
  mem_wf nz nx ny st →
  let st' := step_same d h nz nx ny st t in
  let '(iz, ix, iy) := cell_index d h (position t) in
  match Np.locate_dims nz nx ny iz ix iy with
  | None => resid_list st' = resid_list st ∧ resid_list_zx st' = resid_list_zx st
  | Some (kz, kx, _) =>
    Py.index nz iz = Some kz ∧
    ∃ ids, resid_list st !! kz = Some ids ∧
      if decide (resid t ∈ ids)
      then resid_list st' = resid_list st ∧ resid_list_zx st' = resid_list_zx st
      else resid_list st' = alter (λ l, l ++ [resid t]) kz (resid_list st) ∧
           resid_list_zx st' =
             alter (alter (λ l, l ++ [resid t]) kx) kz (resid_list_zx st)
  end.
Proof.
  intros (Hm & _ & L1 & L2 & Hrows). unfold step_same, try_same.
  destruct (cell_index d h (position t)) as [[iz ix] iy].
  unfold Np.upd3. rewrite (locate_shaped _ _ _ _ _ _ _ Hm).
  destruct (Np.locate_dims nz nx ny iz ix iy) as [[[kz kx] ky]|] eqn:Eloc; simpl;
    [| done].
  unfold Np.locate_dims in Eloc.
  destruct (Py.index nz iz) as [kz'|] eqn:Ez; simpl in Eloc; [| done].
  destruct (Py.index nx ix) as [kx'|] eqn:Ex; simpl in Eloc; [| done].
  destruct (Py.index ny iy) as [ky'|] eqn:Ey; simpl in Eloc; [| done].
  injection Eloc as -> -> ->. split; [done |].
  destruct (lookup_lt_is_Some_2 (resid_list st) kz) as [ids Hids].
  { apply index_lt in Ez. lia. }
  exists ids. split; [done |].
  rewrite (register_valid _ _ _ _ _ _ _ _ L1 L2 Hrows Ez Ex Hids).
  case_decide; done.
Qed.

Lemma sum1_cons x (l : vector) : Np.sum1 (x :: l) = x + Np.sum1 l.
Proof. reflexivity. Qed.

Lemma sum1_len_alter (row : list (list Z)) kx n :
  (kx < length row)%nat →
  Np.sum1 (Py.len <$> alter (λ l, l ++ [n]) kx row) = Np.sum1 (Py.len <$> row) + 1.
Proof.
  revert kx. induction row as [|l row IH]; intros [|kx] Hkx; simpl in Hkx; try lia.
  - change (alter (λ l, l ++ [n]) 0%nat (l :: row)) with ((l ++ [n]) :: row).
    rewrite !fmap_cons, !sum1_cons. unfold Py.len. rewrite length_app. simpl. lia.
  - change (alter (λ l, l ++ [n]) (S kx) (l :: row))
      with (l :: alter (λ l, l ++ [n]) kx row).
    rewrite !fmap_cons, !sum1_cons, IH by lia. lia.
Qed.

Lemma zx_inv_init : zx_inv nz nx ny (mem_init nz nx ny).
Proof.
  split; [apply mem_wf_init |]. simpl. intros kz ids row Hids Hrow.
  apply lookup_replicate in Hids as [-> _]. apply lookup_replicate in Hrow as [-> _].
  clear. induction nx as [|n IH]; [done |].
  change (replicate (S n) ([] : list Z)) with ([] :: replicate n ([] : list Z)).
  by rewrite fmap_cons, sum1_cons, IH.
Qed.

Lemma zx_inv_step st t : zx_inv nz nx ny st → zx_inv nz nx ny (step_same d h nz nx ny st t).
Proof.
  intros [Hwf Hsum]. split; [by apply mem_wf_step_same |].
  pose proof (step_same_lists st t Hwf) as Hl. simpl in Hl.
  destruct (cell_index d h (position t)) as [[iz ix] iy].
  destruct (Np.locate_dims nz nx ny iz ix iy) as [[[kz kx] ky]|] eqn:Eloc.
  2:{ destruct Hl as [-> ->]. done. }
  destruct Hl as (Hz & ids & Hids & Hl).
  case_decide; [destruct Hl as [-> ->]; done |].
  destruct Hl as [-> ->]. intros kz' ids' row'.
  destruct (decide (kz = kz')) as [<-|Hne].
  - rewrite !list_lookup_alter_eq, Hids. simpl. intros [= <-].
    destruct (resid_list_zx st !! kz) as [row|] eqn:Hrow; simpl; [| done].
    intros [= <-]. destruct Hwf as (_ & _ & _ & _ & Hrows).
    pose proof (Forall_lookup_1 _ _ _ _ Hrows Hrow) as Hlen. simpl in Hlen.
    apply locate_dims_lt in Eloc as (_ & Hkx & _).
    rewrite sum1_len_alter by lia. rewrite (Hsum _ _ _ Hids Hrow).
    unfold Py.len. rewrite length_app. simpl. lia.
  - rewrite !list_lookup_alter_ne by done. apply Hsum.
Qed.

Lemma ids_inv_init : ids_inv d h nz nx ny [] (mem_init nz nx ny).
Proof.
  split; [apply mem_wf_init |]. simpl. intros kz ids Hids.
  apply lookup_replicate in Hids as [-> _]. split; [constructor |].
  intros n. split; [by intros ?%elem_of_nil |].
  by intros (t & ?%elem_of_nil & _).
Qed.

Lemma ids_inv_step seen st t :
  ids_inv d h nz nx ny seen st → ids_inv d h nz nx ny (seen ++ [t]) (step_same d h nz nx ny st t).
Proof.
  intros [Hwf Hinv]. split; [by apply mem_wf_step_same |].
  pose proof (step_same_lists st t Hwf) as Hl. simpl in Hl.
  unfold accepted, slab_of in *.
  destruct (cell_index d h (position t)) as [[iz ix] iy] eqn:Eidx.
  destruct (Np.locate_dims nz nx ny iz ix iy) as [[[kz kx] ky]|] eqn:Eloc.
  - destruct Hl as (Hz & ids & Hids & Hl).
    assert (∀ kz' n, (∃ t', t' ∈ seen ++ [t] ∧
               (let '(iz, ix, iy) := cell_index d h (position t') in
                is_Some (Np.locate_dims nz nx ny iz ix iy)) ∧
               Py.index nz (cell_index d h (position t')).1.1 = Some kz' ∧
               resid t' = n) ↔
             (∃ t', t' ∈ seen ∧
               (let '(iz, ix, iy) := cell_index d h (position t') in
                is_Some (Np.locate_dims nz nx ny iz ix iy)) ∧
               Py.index nz (cell_index d h (position t')).1.1 = Some kz' ∧
               resid t' = n) ∨ (kz' = kz ∧ n = resid t)) as Hsplit.
    { intros kz' n. split.
      - intros (t' & [Hin | ->%list_elem_of_singleton]%elem_of_app & Hacc & Hs & Hn).
        + left. by exists t'.
        + right. rewrite Eidx in Hs. simpl in Hs. split; congruence.
      - intros [(t' & Hin & Hrest) | [-> ->]].
        + exists t'. split; [apply elem_of_app; by left | done].
        + exists t. split; [apply elem_of_app; right; by apply list_elem_of_singleton |].
          rewrite Eidx, Eloc. simpl. done. }
    case_decide as Hmem.
    + destruct Hl as [-> _]. intros kz' ids' Hids'.
      destruct (Hinv _ _ Hids') as [Hnd Hel]. split; [done |].
      intros n. rewrite Hsplit, <- Hel. split; [by left |].
      intros [Hn | [-> ->]]; [done |]. congruence.
    + destruct Hl as [-> _]. intros kz' ids'.
      destruct (decide (kz = kz')) as [<-|Hne].
      * rewrite list_lookup_alter_eq, Hids. simpl. intros [= <-].
        destruct (Hinv _ _ Hids) as [Hnd Hel]. split.
        -- apply NoDup_app. split; [done |]. split; [| apply NoDup_singleton].
           intros x Hx ->%list_elem_of_singleton. done.
        -- intros n. rewrite Hsplit, elem_of_app, list_elem_of_singleton, <- Hel.
           split; (intros [Hn | Hn]; [by left | right]); [done | by destruct Hn].
      * rewrite list_lookup_alter_ne by done. intros Hids'.
        destruct (Hinv _ _ Hids') as [Hnd Hel]. split; [done |].
        intros n. rewrite Hsplit, <- Hel. split; [by left |].
        intros [Hn | [-> _]]; done.
  - destruct Hl as [-> _]. intros kz' ids' Hids'.
    destruct (Hinv _ _ Hids') as [Hnd Hel]. split; [done |].
    intros n. rewrite Hel. split.
    + intros (t' & Hin & Hrest). exists t'. split; [apply elem_of_app; by left | done].
    + intros (t' & [Hin | ->%list_elem_of_singleton]%elem_of_app & Hacc & Hrest).
      * by exists t'.
      * rewrite Eidx, Eloc in Hacc. by destruct Hacc.
Qed.

Lemma ids_inv_fold atoms seen st :
  ids_inv d h nz nx ny seen st → ids_inv d h nz nx ny (seen ++ atoms) (foldl (step_same d h nz nx ny) st atoms).
Proof.
  revert seen st. induction atoms as [|t atoms IH]; intros seen st Hinv; simpl.
  - by rewrite app_nil_r.
  - rewrite (assoc_L (++) seen [t] atoms : seen ++ t :: atoms = (seen ++ [t]) ++ atoms).
    apply IH. by apply ids_inv_step.
Qed.

End Residue_lists.

Lemma index_nonneg_Some n i k :
  0 <= i → Py.index n i = Some k ↔ i < Z.of_nat n ∧ k = Z.to_nat i.
Proof.
  intros Hi. unfold Py.index. case_decide as H1.
  - split; [intros [= <-]; lia | intros [_ ->]; done].
  - rewrite decide_False by lia. split; [done | lia].
Qed.

(** In the single loop, the counts of a slab over all x add up to the
    count of the slab. *)
Lemma single_loop_zx_sum c nz nx ny f z r row :
  same_selection c = true →
  resid_array (frame_pass c nz nx ny f) !! z = Some r →
  resid_array_zx (frame_pass c nz nx ny f) !! z = Some row →
  Np.sum1 row = r.
Proof.
  intros Hsame. unfold frame_pass, after_membrane. simpl.
  rewrite Hsame. unfold membrane_pass.
  set (st := foldl _ _ _).
  assert (zx_inv nz nx ny st) as [_ Hsum].
  { apply foldl_invariant; [apply zx_inv_init | intros; by apply zx_inv_step]. }
  rewrite !list_lookup_fmap.
  destruct (resid_list st !! z) as [ids|] eqn:Hids; simpl; [| done].
  destruct (resid_list_zx st !! z) as [row0|] eqn:Hrow; simpl; [| done].
  intros [= <-] [= <-]. by eapply Hsum.
Qed.

(** In the single loop and for atoms of non-negative indices, the count
    of a slab is the number of distinct residue ids among the in-range
    atoms that map to the slab. *)
Lemma single_loop_residue_count c nz nx ny f z r :
  same_selection c = true →
  Forall (λ t, let '(iz, ix, iy) := cell_index (dz c) (dh c) (position t) in
               0 <= iz ∧ 0 <= ix ∧ 0 <= iy) (u_mem_sel_m f) →
  resid_array (frame_pass c nz nx ny f) !! z = Some r →
  r = distinct_residues (dz c) (dh c) nz nx ny (u_mem_sel_m f) (Z.of_nat z).
Proof.
  intros Hsame Hnn. unfold frame_pass, after_membrane. simpl.
  rewrite Hsame. unfold membrane_pass.
  pose proof (ids_inv_fold (dz c) (dh c) nz nx ny (u_mem_sel_m f) [] _
                (ids_inv_init (dz c) (dh c) nz nx ny)) as [_ Hinv].
  simpl in Hinv. set (st := foldl _ _ _) in *.
  rewrite list_lookup_fmap.
  destruct (resid_list st !! z) as [ids|] eqn:Hids; simpl; [| done].
  intros [= <-]. destruct (Hinv _ _ Hids) as [Hnd Hel].
  unfold distinct_residues, Py.len. f_equal. apply Permutation_length.
  apply NoDup_Permutation; [done | apply NoDup_remove_dups |].
  intros n. rewrite Hel, elem_of_remove_dups, list_elem_of_fmap.
  split.
  - intros (t & Hin & Hacc & Hslab & <-). exists t. split; [done |].
    apply list_elem_of_filter. split; [| done].
    pose proof (proj1 (Forall_forall _ _) Hnn t Hin) as Ht.
    unfold accepted, slab_of, in_range, Np.locate_dims in *.
    destruct (cell_index (dz c) (dh c) (position t)) as [[iz ix] iy].
    destruct Ht as (Hz & Hx & Hy). simpl in *.
    apply index_nonneg_Some in Hslab as [Hlt ->]; [| done].
    destruct (Py.index nz iz) eqn:Ez; simpl in Hacc; [| by destruct Hacc].
    destruct (Py.index nx ix) eqn:Ex; simpl in Hacc; [| by destruct Hacc].
    destruct (Py.index ny iy) eqn:Ey; simpl in Hacc; [| by destruct Hacc].
    apply index_nonneg_Some in Ex as [Hxl _]; [| done].
    apply index_nonneg_Some in Ey as [Hyl _]; [| done].
    split; [| lia]. rewrite !bool_decide_eq_true_2 by lia. done.
  - intros (t & -> & [(Hin_range & Hslab) Hin]%list_elem_of_filter).
    exists t. split; [done |].
    unfold accepted, slab_of, in_range, Np.locate_dims in *.
    destruct (cell_index (dz c) (dh c) (position t)) as [[iz ix] iy]. simpl in *.
    apply andb_true_iff in Hin_range as [[Hz Hx]%andb_true_iff Hy].
    apply bool_decide_eq_true in Hz, Hx, Hy.
    rewrite (index_nonneg nz iz), (index_nonneg nx ix), (index_nonneg ny iy) by done.
    simpl. split; [done |]. split; [| done]. f_equal. lia.
Qed.

(** ** Residue counts when an atom lies off the grid *)

(** C9 at trajectories whose box grew.  In frame 1 the head atom of
    lipid 2 maps to (2, 10, 1), respectively to (2, 2, 10), off the grid
    of 11 x 10 x 10; the in-range head atoms of slab 2 belong to lipid 1
    alone, yet the residue count of slab 2 is 2. *)
Theorem residue_counted_off_grid :
  (∃ run fd,
     Get_info sample_config grown_traj_x = Some run ∧
     frames_of run !! 1%nat = Some fd ∧
     resid_array fd !! 2%nat = Some 2 ∧
     in_range 11 10 10 (cell_index 5 5 (position moved_head_x)) = false ∧
     distinct_residues 5 5 11 10 10 (u_mem_sel_m (grown_frame moved_head_x)) 2 = 1) ∧
  (∃ run fd,
     Get_info sample_config grown_traj_y = Some run ∧
     frames_of run !! 1%nat = Some fd ∧
     resid_array fd !! 2%nat = Some 2 ∧
     in_range 11 10 10 (cell_index 5 5 (position moved_head_y)) = false ∧
     distinct_residues 5 5 11 10 10 (u_mem_sel_m (grown_frame moved_head_y)) 2 = 1).
Proof.
  split.
  - eexists _, _. split; [vm_compute; reflexivity |].
    split; [reflexivity |]. repeat split; vm_compute; reflexivity.
  - eexists _, _. split; [vm_compute; reflexivity |].
    split; [reflexivity |]. repeat split; vm_compute; reflexivity.
Qed.

(** C10 at a trajectory whose box grew.  In frame 1 the head atom of
    lipid 2 maps to (2, 10, 1): its residue id enters the list of slab 2
    and the append to the list of (2, 10) raises, so the count of slab 2
    is 2 and the counts of slab 2 over all x sum to 1. *)
Theorem zx_counts_miss_a_residue :
  ∃ run fd row,
    Get_info sample_config grown_traj_x = Some run ∧
    frames_of run !! 1%nat = Some fd ∧
    resid_array fd !! 2%nat = Some 2 ∧
    resid_array_zx fd !! 2%nat = Some row ∧ Np.sum1 row = 1.
Proof.
  eexists _, _, _. split; [vm_compute; reflexivity |].
  split; [reflexivity |]. split; [vm_compute; reflexivity |].
  split; vm_compute; reflexivity.
Qed.

(** ** Densities and area per residue *)

Lemma lookup_zip3_with {A B C D} (f : A → B → C → D) la lb lc i a b c :
  la !! i = Some a → lb !! i = Some b → lc !! i = Some c →
  zip3_with f la lb lc !! i = Some (f a b c).
Proof.
  intros Ha Hb Hc. unfold zip3_with.
  rewrite lookup_zip_with, lookup_zip_with, Ha, Hb, Hc. done.
Qed.

Lemma true_divide_pos x y : (0 < y)%Q → true_divide x y = Some (x / y)%Q.
Proof.
  intros Hy. unfold true_divide.
  destruct (Qeq_bool y 0) eqn:E; [| done].
  apply Qeq_bool_iff in E. rewrite E in Hy. by apply Qlt_irrefl in Hy.
Qed.

Lemma inject_Z_pos r : 0 < r → (0 < inject_Z r)%Q.
Proof. intros Hr. change 0%Q with (inject_Z 0). by rewrite <- Zlt_Qlt. Qed.

Lemma Prep4plot_profiles c run plot :
  Prep4plot c run = Some plot →
  dens_p plot = dens_p_frame <$> frames_of run ∧
  dens_m plot = dens_m_frame c (nx_of run) (ny_of run) <$> frames_of run ∧
  m_r_per_area plot = m_r_per_area_frame c (nx_of run) (ny_of run) <$> frames_of run.
Proof.
  unfold Prep4plot.
  destruct (frames_of run !! 0%nat); simpl; [| done].
  destruct (head _); simpl; [| done]. destruct (last _); simpl; [| done].
  destruct (foldM _ _ _); simpl; [| done]. by intros [= <-].
Qed.

(** C4.  At frame [k] and slab [z]: a protein area of 0 gives a protein
    density that is the number 0; a membrane denominator
    [nx*ny*dz^2 - protein area] equal to 0, or a residue count of 0,
    gives a membrane density that is the number 0.  ([Some] says that
    the entry is a number, neither [nan] nor [inf].) *)
Theorem zero_denominator_zero_density c run plot k fd z a sp sm r :
  Prep4plot c run = Some plot →
  frames_of run !! k = Some fd →
  prot_area fd !! z = Some a → prot_slab fd !! z = Some sp →
  mem_slab fd !! z = Some sm → resid_array fd !! z = Some r →
  (a = 0 → dens_p plot !! k ≫= (.!! z) = Some (Some 0%Q)) ∧
  ((area_xy c (nx_of run) (ny_of run) - inject_Z a == 0)%Q ∨ r = 0 →
   dens_m plot !! k ≫= (.!! z) = Some (Some 0%Q)).
Proof.
  intros Hplot Hk Ha Hsp Hsm Hr.
  destruct (Prep4plot_profiles _ _ _ Hplot) as (-> & -> & _).
  rewrite !list_lookup_fmap, Hk. simpl. split.
  - intros ->. unfold dens_p_frame, atoms_per_slab.
    rewrite lookup_zip_with, Ha, list_lookup_fmap, Hsp. simpl.
    unfold dens_p_entry. by rewrite decide_False by lia.
  - intros Hzero. unfold dens_m_frame.
    erewrite lookup_zip3_with; cycle 1.
    + unfold area_m. rewrite list_lookup_fmap, Ha. reflexivity.
    + unfold atoms_per_slab. rewrite list_lookup_fmap, Hsm. reflexivity.
    + exact Hr.
    + f_equal. unfold dens_m_entry.
      destruct (Qlt_le_dec 0 _) as [Hpos|]; [| done].
      case_decide as Hrp; [| done].
      destruct Hzero as [Hz | ->]; [| lia].
      rewrite Hz in Hpos. by apply Qlt_irrefl in Hpos.
Qed.

Lemma dense_plot_computed : Prep4plot sample_config dense_run = Some dense_plot.
Proof. vm_compute. reflexivity. Qed.

Lemma zero_denominator_zero_density_witness :
  dens_p dense_plot !! 0%nat ≫= (.!! 3%nat) = Some (Some 0%Q) ∧
  dens_m dense_plot !! 0%nat ≫= (.!! 3%nat) = Some (Some 0%Q).
Proof.
  destruct (zero_denominator_zero_density sample_config dense_run dense_plot
              0 dense_data 3 0
              (replicate 4 (replicate 4 0)) (replicate 4 (replicate 4 0)) 0)
    as [Hp Hm].
  - vm_compute. reflexivity.
  - reflexivity.
  - vm_compute. reflexivity.
  - vm_compute. reflexivity.
  - vm_compute. reflexivity.
  - vm_compute. reflexivity.
  - split; [apply Hp; reflexivity | apply Hm; right; reflexivity].
Defined.

(** C5.  At frame [k] and slab [z], with [avail] the membrane-available
    area [nx*ny*dz^2 - protein area]: the membrane density and the area
    per residue are numbers; the membrane density is the number of
    membrane atoms of the slab divided by [avail] when [avail] and the
    residue count are positive, and 0 otherwise; when the membrane
    density exceeds 0.025, the residue count is positive and [avail] is
    positive, the area per residue is [avail / residue count]; in every
    other case it is 0. *)
Theorem area_per_residue_threshold c run plot k fd z a sm r :
  Prep4plot c run = Some plot →
  frames_of run !! k = Some fd →
  prot_area fd !! z = Some a → mem_slab fd !! z = Some sm →
  resid_array fd !! z = Some r →
  let avail := (area_xy c (nx_of run) (ny_of run) - inject_Z a)%Q in
  ∃ dm apr,
    dens_m plot !! k ≫= (.!! z) = Some (Some dm) ∧
    m_r_per_area plot !! k ≫= (.!! z) = Some (Some apr) ∧
    ((0 < avail)%Q ∧ 0 < r → dm = (inject_Z (Np.sum2 sm) / avail)%Q) ∧
    (¬ ((0 < avail)%Q ∧ 0 < r) → dm = 0%Q) ∧
    ((25 # 1000 < dm)%Q ∧ 0 < r ∧ (0 < avail)%Q → apr = (avail / inject_Z r)%Q) ∧
    (¬ ((25 # 1000 < dm)%Q ∧ 0 < r ∧ (0 < avail)%Q) → apr = 0%Q).
Proof.
  intros Hplot Hk Ha Hsm Hr avail.
  destruct (Prep4plot_profiles _ _ _ Hplot) as (_ & -> & ->).
  rewrite !list_lookup_fmap, Hk. simpl.
  unfold dens_m_frame, m_r_per_area_frame.
  assert (area_m c (nx_of run) (ny_of run) fd !! z = Some avail) as Hav.
  { unfold area_m. rewrite list_lookup_fmap, Ha. reflexivity. }
  assert (atoms_per_slab (mem_slab fd) !! z = Some (Np.sum2 sm)) as Hd.
  { unfold atoms_per_slab. rewrite list_lookup_fmap, Hsm. reflexivity. }
  rewrite (lookup_zip3_with _ _ _ _ _ _ _ _ Hav Hd Hr).
  rewrite (lookup_zip3_with _ _ _ _ _ _ _ _ Hav Hd Hr).
  unfold dens_m_entry, dens_r_entry.
  destruct (Qlt_le_dec 0 avail) as [Hpos | Hneg].
  - case_decide as Hrp.
    + rewrite (true_divide_pos _ _ Hpos). unfold exceeds, threshold.
      destruct (Qlt_le_dec (25 # 1000) _) as [Hgt | Hle].
      * rewrite (true_divide_pos _ _ (inject_Z_pos _ Hrp)).
        eexists _, _. split; [done |]. split; [done |].
        split; [done |]. split; [intros Hno; exfalso; by apply Hno |].
        split; [done |]. intros Hno. exfalso. apply Hno. done.
      * eexists _, _. split; [done |]. split; [done |].
        split; [done |]. split; [intros Hno; exfalso; by apply Hno |].
        split; [| done]. intros (Hgt & _).
        exfalso. eapply Qlt_not_le; eassumption.
    + eexists _, _. split; [done |]. split; [done |].
      split; [intros (_ & Hrp'); lia |]. split; [done |].
      split; [| done]. intros (_ & Hrp' & _). lia.
  - eexists _, _. split; [done |]. split; [done |].
    split; [intros (Hpos & _); exfalso; eapply Qlt_not_le; eassumption |].
    split; [done |]. split; [| done]. intros (_ & _ & Hpos).
    exfalso. eapply Qlt_not_le; eassumption.
Qed.

Lemma area_per_residue_threshold_witness :
  let sm := [[6; 0; 0; 0]; [6; 0; 0; 0]; [0; 0; 0; 0]; [0; 0; 0; 0]] in
  let avail := (area_xy sample_config 4 4 - inject_Z 0)%Q in
  ∃ dm apr,
    dens_m dense_plot !! 0%nat ≫= (.!! 1%nat) = Some (Some dm) ∧
    m_r_per_area dense_plot !! 0%nat ≫= (.!! 1%nat) = Some (Some apr) ∧
    ((0 < avail)%Q ∧ 0 < 3 → dm = (inject_Z (Np.sum2 sm) / avail)%Q) ∧
    (¬ ((0 < avail)%Q ∧ 0 < 3) → dm = 0%Q) ∧
    ((25 # 1000 < dm)%Q ∧ 0 < 3 ∧ (0 < avail)%Q → apr = (avail / inject_Z 3)%Q) ∧
    (¬ ((25 # 1000 < dm)%Q ∧ 0 < 3 ∧ (0 < avail)%Q) → apr = 0%Q).
Proof.
  apply (area_per_residue_threshold sample_config dense_run dense_plot
           0 dense_data 1 0 [[6; 0; 0; 0]; [6; 0; 0; 0]; [0; 0; 0; 0]; [0; 0; 0; 0]] 3).
  - vm_compute. reflexivity.
  - reflexivity.
  - vm_compute. reflexivity.
  - vm_compute. reflexivity.
  - vm_compute. reflexivity.
Defined.

(** ** The window of the 2D maps *)

Lemma argwhere_pos_nil from v : argwhere_pos from v = [] → Forall (λ x, x <= 0) v.
Proof.
  revert from. induction v as [|x v IH]; intros from; simpl; [done |].
  case_decide; [done |]. intros Hv. constructor; [lia | by eapply IH].
Qed.

Lemma argwhere_pos_head from v lo :
  head (argwhere_pos from v) = Some lo →
  ∃ k, lo = from + Z.of_nat k ∧ (∃ x, v !! k = Some x ∧ 0 < x) ∧
       ∀ j x, (j < k)%nat → v !! j = Some x → x <= 0.
Proof.
  revert from. induction v as [|x v IH]; intros from; simpl; [done |].
  case_decide as Hx; simpl.
  - intros [= <-]. exists 0%nat. split; [lia |]. split; [by exists x | lia].
  - intros Hlo. destruct (IH _ Hlo) as (k & -> & Hk & Hbefore).
    exists (S k). split; [lia |]. split; [done |].
    intros [|j] y Hj; simpl; [intros [= <-]; lia |].
    apply Hbefore. lia.
Qed.

Lemma argwhere_pos_last from v hi :
  last (argwhere_pos from v) = Some hi →
  ∃ k, hi = from + Z.of_nat k ∧ (∃ x, v !! k = Some x ∧ 0 < x) ∧
       ∀ j x, (k < j)%nat → v !! j = Some x → x <= 0.
Proof.
  revert from. induction v as [|x v IH]; intros from; simpl; [done |].
  case_decide as Hx; simpl.
  - destruct (argwhere_pos (from + 1) v) as [|i l] eqn:El.
    + simpl. intros [= <-]. exists 0%nat. split; [lia |]. split; [by exists x |].
      intros [|j] y Hj; [lia |]. simpl. intros Hy.
      apply argwhere_pos_nil in El. by eapply (Forall_lookup_1 _ _ _ _ El Hy).
    + rewrite last_cons_cons. rewrite <- El. intros Hhi.
      destruct (IH _ Hhi) as (k & -> & Hk & Hafter).
      exists (S k). split; [lia |]. split; [done |].
      intros [|j] y Hj; [lia |]. simpl. apply Hafter. lia.
  - intros Hhi. destruct (IH _ Hhi) as (k & -> & Hk & Hafter).
    exists (S k). split; [lia |]. split; [done |].
    intros [|j] y Hj; [lia |]. simpl. apply Hafter. lia.
Qed.

Lemma window_step_fields c nx frame fd st iz st' :
  window_step c nx frame fd st iz = Some st' →
  start_mem st' = start_mem st ∧ stop_mem st' = stop_mem st ∧
  step_mem st' = step_mem st.
Proof.
  unfold window_step.
  destruct (Py.get (mem_slab fd) _); simpl; [| done].
  destruct (Py.get (mem_resid_slab fd) _); simpl; [| done].
  destruct (Py.get (prot_slab fd) _); simpl; [| done].
  destruct (Py.get (resid_array_zx fd) _); simpl; [| done].
  destruct (accumulate add2 _ _ _ (mem_slab_frame st)); simpl; [| done].
  destruct (accumulate add2 _ _ _ (mem_resid_slab_frame st)); simpl; [| done].
  destruct (accumulate add2 _ _ _ (prot_slab_frame st)); simpl; [| done].
  destruct (accumulate addq _ _ _ _); simpl; [| done].
  destruct (accumulate add1 _ _ _ _); simpl; [| done].
  by intros [= <-].
Qed.

Lemma foldM_fields {X} (body : Maps → X → option Maps) xs st st' :
  (∀ s x s', body s x = Some s' →
     start_mem s' = start_mem s ∧ stop_mem s' = stop_mem s ∧ step_mem s' = step_mem s) →
  foldM body st xs = Some st' →
  start_mem st' = start_mem st ∧ stop_mem st' = stop_mem st ∧
  step_mem st' = step_mem st.
Proof.
  intros Hbody. revert st. induction xs as [|x xs IH]; intros st; simpl.
  - by intros [= <-].
  - destruct (body st x) as [s1|] eqn:E; simpl; [| done].
    intros Hrest. destruct (Hbody _ _ _ E) as (F1 & F2 & F3).
    destruct (IH _ Hrest) as (G1 & G2 & G3). repeat split; congruence.
Qed.

Lemma window_pass_fields c nx st kfd st' :
  window_pass c nx st kfd = Some st' →
  start_mem st' = start_mem st ∧ stop_mem st' = stop_mem st ∧
  step_mem st' = step_mem st.
Proof.
  unfold window_pass. destruct (Py.range _ _ _); simpl; [| done].
  apply foldM_fields. intros s x s'. apply window_step_fields.
Qed.

(** One of the five maps, seen on its own: what a frame contributes at a
    slab, how contributions add up, and where the map is kept. *)
Section Channel.

Context {A : Type}.
Variables (c : Config) (nx : Z).
Variables (add : A → A → A) (at_ : FrameData → Z → option A) (proj : Maps → list A).

Hypothesis channel : ∀ frame fd st iz st',
  window_step c nx frame fd st iz = Some st' →
  ∃ x, at_ fd iz.2 = Some x ∧ accumulate add frame iz.1 x (proj st) = Some (proj st').

Lemma first_frame_appends fd izs st st' :
  foldM (window_step c nx 0 fd) st izs = Some st' →
  ∃ xs, Forall2 (λ iz x, at_ fd iz.2 = Some x) izs xs ∧ proj st' = proj st ++ xs.
Proof.
  revert st. induction izs as [|iz izs IH]; intros st; simpl.
  - intros [= <-]. exists []. split; [constructor | by rewrite app_nil_r].
  - destruct (window_step c nx 0 fd st iz) as [s1|] eqn:E; simpl; [| done].
    intros Hrest. destruct (channel _ _ _ _ _ E) as (x & Hx & Hacc).
    simpl in Hacc. injection Hacc as Hacc.
    destruct (IH _ Hrest) as (xs & Hxs & ->).
    exists (x :: xs). split; [by constructor |].
    rewrite <- Hacc. by rewrite <- app_assoc.
Qed.

Lemma later_frame_adds k fd win i0 st st' :
  foldM (window_step c nx (S k) fd) st (zip (seq i0 (length win)) win) = Some st' →
  ∃ xs, Forall2 (λ z x, at_ fd z = Some x) win xs ∧
    proj st' = take i0 (proj st) ++ zip_with add (drop i0 (proj st)) xs
               ++ drop (i0 + length win) (proj st).
Proof.
  revert i0 st. induction win as [|z win IH]; intros i0 st; simpl.
  - intros [= <-]. exists []. split; [constructor |].
    rewrite zip_with_nil_r, Nat.add_0_r. simpl. by rewrite take_drop.
  - destruct (window_step c nx (S k) fd st (i0, z)) as [s1|] eqn:E; simpl; [| done].
    intros Hrest. destruct (channel _ _ _ _ _ E) as (x & Hx & Hacc).
    simpl in Hx, Hacc.
    destruct (proj st !! i0) as [old|] eqn:Eold; simpl in Hacc; [| done].
    injection Hacc as Hacc.
    destruct (IH _ _ Hrest) as (xs & Hxs & ->).
    exists (x :: xs). split; [by constructor |].
    rewrite <- Hacc.
    rewrite take_insert_lt by lia. rewrite (take_S_r _ _ _ Eold).
    rewrite insert_app_r_alt by (rewrite length_take; lia).
    rewrite length_take_le by (apply lookup_lt_Some in Eold; lia).
    rewrite Nat.sub_diag. simpl.
    rewrite !drop_insert_lt by lia.
    rewrite (drop_S _ _ _ Eold). simpl.
    rewrite <- app_assoc. simpl. by rewrite Nat.add_succ_r.
Qed.

Lemma enumerate_snd {X} (xs : list X) : (enumerate xs).*2 = xs.
Proof. unfold enumerate. apply snd_zip. by rewrite length_seq. Qed.

Lemma first_frame_column fd win st st' :
  proj st = [] →
  foldM (window_step c nx 0 fd) st (enumerate win) = Some st' →
  mapM (at_ fd) win = Some (proj st').
Proof.
  intros Hempty Hloop.
  destruct (first_frame_appends _ _ _ _ Hloop) as (xs & Hxs & ->).
  rewrite Hempty. simpl. apply mapM_Some.
  rewrite <- (enumerate_snd win). by apply Forall2_fmap_l.
Qed.

Lemma later_frame_column k fd win st st' :
  length (proj st) = length win →
  foldM (window_step c nx (S k) fd) st (enumerate win) = Some st' →
  ∃ xs, mapM (at_ fd) win = Some xs ∧ proj st' = zip_with add (proj st) xs ∧
        length (proj st') = length win.
Proof.
  intros Hlen Hloop. unfold enumerate in Hloop.
  destruct (later_frame_adds _ _ _ _ _ _ Hloop) as (xs & Hxs & ->).
  exists xs. split; [by apply mapM_Some |].
  rewrite take_0, drop_0, drop_ge by (simpl; lia). simpl.
  rewrite app_nil_r. split; [done |].
  rewrite length_zip_with. apply Forall2_length in Hxs. lia.
Qed.

(** The frames after the first, each on the window that [self] holds. *)
Lemma later_frames_accumulate win rest i0 st st' :
  Py.range (start_mem st) (stop_mem st) (step_mem st) = Some win →
  length (proj st) = length win →
  foldM (window_pass c nx) st (zip (seq (S i0) (length rest)) rest) = Some st' →
  foldM (λ acc fd, xs ← mapM (at_ fd) win; Some (zip_with add acc xs)) (proj st) rest
    = Some (proj st').
Proof.
  revert i0 st. induction rest as [|fd rest IH]; intros i0 st Hwin Hlen; simpl.
  - by intros [= <-].
  - destruct (window_pass c nx st (S i0, fd)) as [s1|] eqn:E; simpl; [| done].
    intros Hrest. pose proof (window_pass_fields _ _ _ _ _ E) as (F1 & F2 & F3).
    unfold window_pass in E. rewrite Hwin in E. simpl in E.
    destruct (later_frame_column _ _ _ _ _ Hlen E) as (xs & -> & Hs1 & Hlen1).
    simpl. rewrite <- Hs1. apply (IH (S i0)); [| done | done].
    by rewrite F1, F2, F3.
Qed.

Lemma all_frames_accumulate win f0 rest st0 st' :
  Py.range (start_mem st0) (stop_mem st0) (step_mem st0) = Some win →
  proj st0 = [] →
  foldM (window_pass c nx) st0 (enumerate (f0 :: rest)) = Some st' →
  window_sums add at_ win (f0 :: rest) = Some (proj st').
Proof.
  intros Hwin Hempty. unfold enumerate. simpl.
  destruct (window_pass c nx st0 (0%nat, f0)) as [s1|] eqn:E; simpl; [| done].
  intros Hrest. pose proof (window_pass_fields _ _ _ _ _ E) as (F1 & F2 & F3).
  unfold window_pass in E. rewrite Hwin in E. simpl in E.
  pose proof (first_frame_column _ _ _ _ Hempty E) as Hcol.
  rewrite Hcol. simpl.
  apply (later_frames_accumulate win rest 0 s1); [| | done].
  - by rewrite F1, F2, F3.
  - apply mapM_Some, Forall2_length in Hcol. done.
Qed.

End Channel.

Lemma channel_mem c nx : ∀ frame fd st iz st',
  window_step c nx frame fd st iz = Some st' →
  ∃ x, mem_at fd iz.2 = Some x ∧
       accumulate add2 frame iz.1 x (mem_slab_frame st) = Some (mem_slab_frame st').
Proof. channel_cases. Qed.

Lemma channel_mem_resid c nx : ∀ frame fd st iz st',
  window_step c nx frame fd st iz = Some st' →
  ∃ x, mem_resid_at fd iz.2 = Some x ∧
       accumulate add2 frame iz.1 x (mem_resid_slab_frame st)
         = Some (mem_resid_slab_frame st').
Proof. channel_cases. Qed.

Lemma channel_prot c nx : ∀ frame fd st iz st',
  window_step c nx frame fd st iz = Some st' →
  ∃ x, prot_at fd iz.2 = Some x ∧
       accumulate add2 frame iz.1 x (prot_slab_frame st) = Some (prot_slab_frame st').
Proof. channel_cases. Qed.

Lemma channel_area_x c nx : ∀ frame fd st iz st',
  window_step c nx frame fd st iz = Some st' →
  ∃ x, free_area_at c nx fd iz.2 = Some x ∧
       accumulate addq frame iz.1 x (area_x st) = Some (area_x st').
Proof. channel_cases. Qed.

Lemma channel_zx c nx : ∀ frame fd st iz st',
  window_step c nx frame fd st iz = Some st' →
  ∃ x, resid_zx_at fd iz.2 = Some x ∧
       accumulate add1 frame iz.1 x (mem_slab_frame_zx st) = Some (mem_slab_frame_zx st').
Proof. channel_cases. Qed.

Lemma resid_array_nonneg c nz nx ny f :
  Forall (λ x, 0 <= x) (resid_array (frame_pass c nz nx ny f)).
Proof.
  unfold frame_pass, after_membrane. simpl. apply Forall_fmap, Forall_true.
  intros l. unfold Py.len. simpl. lia.
Qed.

(** C8.  For a run of [Get_info] on which [Prep4plot] returns: with
    [lo] and [hi] the first and the last slab index at which the residue
    profile of frame 0 is nonzero, [start_mem = lo - 2],
    [stop_mem = hi + 2] and [step_mem = 2]; and each of the five 2D maps
    is, slab by slab of the one window [range(lo - 2, hi + 2, 2)], the
    sum over all frames of what the frame holds at that slab. *)
Theorem window_fixed_by_first_frame c traj run plot :
  Get_info c traj = Some run → Prep4plot c run = Some plot →
  ∃ f0 lo hi win,
    frames_of run !! 0%nat = Some f0 ∧
    first_nonzero (resid_array f0) lo ∧ last_nonzero (resid_array f0) hi ∧
    start_mem (maps plot) = Z.of_nat lo - 2 ∧
    stop_mem (maps plot) = Z.of_nat hi + 2 ∧
    step_mem (maps plot) = 2 ∧
    Py.range (Z.of_nat lo - 2) (Z.of_nat hi + 2) 2 = Some win ∧
    window_sums add2 mem_at win (frames_of run)
      = Some (mem_slab_frame (maps plot)) ∧
    window_sums add2 mem_resid_at win (frames_of run)
      = Some (mem_resid_slab_frame (maps plot)) ∧
    window_sums add2 prot_at win (frames_of run)
      = Some (prot_slab_frame (maps plot)) ∧
    window_sums addq (free_area_at c (nx_of run)) win (frames_of run)
      = Some (area_x (maps plot)) ∧
    window_sums add1 resid_zx_at win (frames_of run)
      = Some (mem_slab_frame_zx (maps plot)).
Proof.
  intros Hrun Hplot. unfold Prep4plot in Hplot.
  destruct (frames_of run) as [|f0 rest] eqn:Efr; [done |].
  change ((f0 :: rest) !! 0%nat) with (Some f0) in Hplot.
  cbn [mbind option_bind] in Hplot.
  destruct (head _) as [lo|] eqn:Elo; cbn [mbind option_bind] in Hplot; [| done].
  destruct (last _) as [hi|] eqn:Ehi; cbn [mbind option_bind] in Hplot; [| done].
  destruct (foldM _ _ _) as [st|] eqn:Eloop; cbn [mbind option_bind] in Hplot; [| done].
  injection Hplot as <-. cbn [maps].
  assert (Forall (λ x, 0 <= x) (resid_array f0)) as Hnn.
  { assert (f0 ∈ frames_of run) as Hin by (rewrite Efr; left).
    destruct (Get_info_frames _ _ _ _ Hrun Hin) as (_ & f & _ & ->).
    apply resid_array_nonneg. }
  destruct (argwhere_pos_head _ _ _ Elo) as (klo & -> & (xlo & Hxlo & Plo) & Blo).
  destruct (argwhere_pos_last _ _ _ Ehi) as (khi & -> & (xhi & Hxhi & Phi) & Ahi).
  set (st0 := {| start_mem := _ |}) in Eloop.
  pose proof (foldM_fields _ _ _ _ (window_pass_fields c (nx_of run)) Eloop)
    as (F1 & F2 & F3).
  assert (∃ win, Py.range (start_mem st0) (stop_mem st0) (step_mem st0) = Some win)
    as [win Hwin] by (simpl; unfold Py.range; simpl; eauto).
  exists f0, klo, khi, win. split; [done |].
  split.
  { split; [exists xlo; split; [done | lia] |].
    intros j x Hj Hx. pose proof (Blo j x Hj Hx).
    pose proof (Forall_lookup_1 _ _ _ _ Hnn Hx). simpl in *. lia. }
  split.
  { split; [exists xhi; split; [done | lia] |].
    intros j x Hj Hx. pose proof (Ahi j x Hj Hx).
    pose proof (Forall_lookup_1 _ _ _ _ Hnn Hx). simpl in *. lia. }
  rewrite F1, F2, F3. simpl.
  split; [lia |]. split; [lia |]. split; [done |].
  split; [simpl in Hwin; rewrite <- Hwin; f_equal; lia |].
  split; [| split; [| split; [| split]]].
  - by apply (all_frames_accumulate c (nx_of run) _ _ _ (channel_mem c (nx_of run))
                win f0 rest st0 st).
  - by apply (all_frames_accumulate c (nx_of run) _ _ _ (channel_mem_resid c (nx_of run))
                win f0 rest st0 st).
  - by apply (all_frames_accumulate c (nx_of run) _ _ _ (channel_prot c (nx_of run))
                win f0 rest st0 st).
  - by apply (all_frames_accumulate c (nx_of run) _ _ _ (channel_area_x c (nx_of run))
                win f0 rest st0 st).
  - by apply (all_frames_accumulate c (nx_of run) _ _ _ (channel_zx c (nx_of run))
                win f0 rest st0 st).
Qed.

Lemma sample_plot_computed : Prep4plot sample_config sample_run = Some sample_plot.
Proof. vm_compute. reflexivity. Qed.

Lemma window_fixed_by_first_frame_witness :
  ∃ f0 lo hi win,
    frames_of sample_run !! 0%nat = Some f0 ∧
    first_nonzero (resid_array f0) lo ∧ last_nonzero (resid_array f0) hi ∧
    start_mem (maps sample_plot) = Z.of_nat lo - 2 ∧
    stop_mem (maps sample_plot) = Z.of_nat hi + 2 ∧
    step_mem (maps sample_plot) = 2 ∧
    Py.range (Z.of_nat lo - 2) (Z.of_nat hi + 2) 2 = Some win ∧
    window_sums add2 mem_at win (frames_of sample_run)
      = Some (mem_slab_frame (maps sample_plot)) ∧
    window_sums add2 mem_resid_at win (frames_of sample_run)
      = Some (mem_resid_slab_frame (maps sample_plot)) ∧
    window_sums add2 prot_at win (frames_of sample_run)
      = Some (prot_slab_frame (maps sample_plot)) ∧
    window_sums addq (free_area_at sample_config (nx_of sample_run)) win
        (frames_of sample_run)
      = Some (area_x (maps sample_plot)) ∧
    window_sums add1 resid_zx_at win (frames_of sample_run)
      = Some (mem_slab_frame_zx (maps sample_plot)).
Proof.
  apply (window_fixed_by_first_frame sample_config sample_traj sample_run sample_plot).
  - vm_compute. reflexivity.
  - vm_compute. reflexivity.
Defined.

(** * Further properties of the script *)

(** ** The safety margin of the grid *)

Lemma floor_lt (q : Q) (n : Z) : (q < inject_Z n)%Q → Qfloor q < n.
Proof.
  intros Hq. rewrite Zlt_Qlt. eapply Qle_lt_trans; [apply Qfloor_le | done].
Qed.

Lemma floor_nonneg (q : Q) : (0 <= q)%Q → 0 <= Qfloor q.
Proof. intros Hq. change 0 with (Qfloor 0). by apply Qfloor_resp_le. Qed.

(** X1.  For a positive cell size the margin is at least two cells, it
    spans more than 4 Angstrom, and it is exactly two cells for every
    cell size above 2. *)
Theorem margin_spans_four_angstrom d :
  (0 < d)%Q →
  2 <= margin d ∧ (4 < inject_Z (margin d) * d)%Q ∧ ((2 < d)%Q → margin d = 2).
Proof.
  intros Hd. rewrite (margin_floor d Hd). unfold floor_margin.
  set (k := Qfloor (4 / d) + 1).
  assert (4 < inject_Z k * d)%Q as Hk.
  { pose proof (Qlt_floor (4 / d)) as Hf. fold k in Hf.
    assert (4 == (4 / d) * d)%Q as -> by (field; lra).
    apply Qmult_lt_compat_r; done. }
  split; [lia |]. split.
  - eapply Qlt_le_trans; [apply Hk |].
    apply Qmult_le_compat_r; [| lra]. rewrite <- Zle_Qle. lia.
  - intros H2. assert (k <= 2); [| lia]. unfold k.
    assert (Qfloor (4 / d) < 2); [| lia]. apply floor_lt.
    apply Qlt_shift_div_r; [done |]. change (inject_Z 2) with 2%Q. lra.
Qed.

Lemma margin_spans_four_angstrom_witness :
  2 <= margin (3 # 2) ∧ (4 < inject_Z (margin (3 # 2)) * (3 # 2))%Q ∧
  ((2 < 3 # 2)%Q → margin (3 # 2) = 2).
Proof. apply (margin_spans_four_angstrom (3 # 2)). reflexivity. Defined.

Lemma Qdiv_le_compat (x b d : Q) : (0 < d)%Q → (x <= b)%Q → (x / d <= b / d)%Q.
Proof.
  intros Hd Hx. unfold Qdiv. apply Qmult_le_compat_r; [done |].
  apply Qlt_le_weak. by apply Qinv_lt_0_compat.
Qed.

(** A coordinate of the box has an index below that of the box length. *)
Lemma index_in_first_box c f0 x y z :
  (0 < dz c)%Q → (0 < dh c)%Q →
  (0 <= x <= (dimensions f0).1.1)%Q → (0 <= y <= (dimensions f0).1.2)%Q →
  (0 <= z <= (dimensions f0).2)%Q →
  in_range (Z.to_nat (grid_size c f0).1.1) (Z.to_nat (grid_size c f0).1.2)
    (Z.to_nat (grid_size c f0).2) (cell_index (dz c) (dh c) (x, y, z)) = true.
Proof.
  intros Hd Hh [X0 X1] [Y0 Y1] [Z0 Z1].
  assert (2 <= margin (dz c)) as Hm by (unfold margin; lia).
  unfold grid_size, cell_index, in_range.
  destruct (dimensions f0) as [[bx by_] bz]. simpl in *.
  pose proof (Qle_trans _ _ _ X0 X1) as Bx.
  pose proof (Qle_trans _ _ _ Y0 Y1) as By.
  pose proof (Qle_trans _ _ _ Z0 Z1) as Bz.
  rewrite !int_floor_nonneg by (by apply Qdiv_nonneg).
  pose proof (floor_nonneg _ (Qdiv_nonneg _ _ X0 Hd)).
  pose proof (floor_nonneg _ (Qdiv_nonneg _ _ Y0 Hd)).
  pose proof (floor_nonneg _ (Qdiv_nonneg _ _ Z0 Hh)).
  pose proof (Qfloor_resp_le _ _ (Qdiv_le_compat _ _ _ Hd X1)).
  pose proof (Qfloor_resp_le _ _ (Qdiv_le_compat _ _ _ Hd Y1)).
  pose proof (Qfloor_resp_le _ _ (Qdiv_le_compat _ _ _ Hh Z1)).
  rewrite !Z2Nat.id by lia.
  rewrite !bool_decide_eq_true_2 by lia. done.
Qed.

(** X2.  For positive cell sizes, the grid sized on a box holds every
    position of that box: with 0 <= x <= box_x, 0 <= y <= box_y and
    0 <= z <= box_z the index is in range.  (The index of a coordinate
    is at most the index of the box length, and the grid has [margin]
    cells beyond that one.) *)
Theorem grid_holds_first_box c f0 x y z :
  (0 < dz c)%Q → (0 < dh c)%Q →
  (0 <= x <= (dimensions f0).1.1)%Q → (0 <= y <= (dimensions f0).1.2)%Q →
  (0 <= z <= (dimensions f0).2)%Q →
  in_range (Z.to_nat (grid_size c f0).1.1) (Z.to_nat (grid_size c f0).1.2)
    (Z.to_nat (grid_size c f0).2) (cell_index (dz c) (dh c) (x, y, z)) = true ∧
  let '(iz, ix, iy) := cell_index (dz c) (dh c) (x, y, z) in
  let '(bz, bx, by_) := cell_index (dz c) (dh c) (dimensions f0) in
  iz <= bz ∧ ix <= bx ∧ iy <= by_.
Proof.
  intros Hd Hh HX HY HZ. split; [by apply index_in_first_box |].
  destruct HX as [X0 X1], HY as [Y0 Y1], HZ as [Z0 Z1].
  unfold cell_index. destruct (dimensions f0) as [[bx by_] bz]. simpl in *.
  pose proof (Qle_trans _ _ _ X0 X1) as Bx.
  pose proof (Qle_trans _ _ _ Y0 Y1) as By.
  pose proof (Qle_trans _ _ _ Z0 Z1) as Bz.
  rewrite !int_floor_nonneg by (by apply Qdiv_nonneg).
  repeat split; apply Qfloor_resp_le; by apply Qdiv_le_compat.
Qed.

Lemma grid_holds_first_box_witness :
  in_range 11 10 10 (cell_index 5 5 (40, 0, 39)%Q) = true ∧
  let '(iz, ix, iy) := cell_index 5 5 (40, 0, 39)%Q in
  let '(bz, bx, by_) := cell_index 5 5 (dimensions sample_frame) in
  iz <= bz ∧ ix <= bx ∧ iy <= by_.
Proof.
  apply (grid_holds_first_box sample_config sample_frame 40 0 39);
    vm_compute; (split || reflexivity); discriminate.
Defined.

(** ** Every atom is accounted for *)

Lemma foldl_seen {S X} (P : list X → S → Prop) (step : S → X → S) l seen s :
  (∀ seen s x, P seen s → P (seen ++ [x]) (step s x)) →
  P seen s → P (seen ++ l) (foldl step s l).
Proof.
  intros Hstep. revert seen s. induction l as [|x l IH]; intros seen s Hs; simpl.
  - by rewrite app_nil_r.
  - rewrite (assoc_L (++) seen [x] l : seen ++ x :: l = (seen ++ [x]) ++ l).
    apply IH. by apply Hstep.
Qed.

Lemma sum1_fmap_alter {A} (f : A → Z) (g : A → A) (l : list A) k x :
  l !! k = Some x → f (g x) = f x + 1 →
  Np.sum1 (f <$> alter g k l) = Np.sum1 (f <$> l) + 1.
Proof.
  revert k. induction l as [|y l IH]; intros [|k] Hk Hf; simpl in Hk; try done.
  - injection Hk as ->.
    change (alter g 0%nat (x :: l)) with (g x :: l).
    rewrite !fmap_cons, !sum1_cons. lia.
  - change (alter g (S k) (y :: l)) with (y :: alter g k l).
    rewrite !fmap_cons, !sum1_cons, (IH k) by done. lia.
Qed.

Lemma sum1_alter_succ (row : vector) k v :
  row !! k = Some v → Np.sum1 (alter Z.succ k row) = Np.sum1 row + 1.
Proof.
  intros Hk. pose proof (sum1_fmap_alter id Z.succ row k v Hk) as Hs.
  rewrite !list_fmap_id in Hs. apply Hs. simpl. lia.
Qed.

Lemma sum2_as_sum1 (s : plane) : Np.sum2 s = Np.sum1 (Np.sum1 <$> s).
Proof.
  induction s as [|r s IH]; [done |].
  rewrite fmap_cons, sum1_cons. simpl. by rewrite IH.
Qed.

Lemma total3_alter3_succ a kz kx ky v :
  Np.cell a (kz, kx, ky) = Some v →
  total3 (Np.alter3 Z.succ (kz, kx, ky) a) = total3 a + 1.
Proof.
  simpl. destruct (a !! kz) as [s|] eqn:Es; simpl; [| done].
  destruct (s !! kx) as [r|] eqn:Er; simpl; [| done]. intros Hv.
  unfold total3, atoms_per_slab.
  eapply sum1_fmap_alter; [done |].
  rewrite !sum2_as_sum1. eapply sum1_fmap_alter; [done |].
  by eapply sum1_alter_succ.
Qed.

Lemma total3_zeros3 nz nx ny : total3 (Np.zeros3 nz nx ny) = 0.
Proof.
  unfold total3, atoms_per_slab, Np.zeros3.
  assert (Np.sum1 (replicate ny 0) = 0) as Hrow.
  { induction ny as [|n IH]; [done |].
    change (replicate (S n) 0) with (0 :: replicate n 0). by rewrite sum1_cons, IH. }
  assert (Np.sum2 (replicate nx (replicate ny 0)) = 0) as Hplane.
  { induction nx as [|n IH]; [done |]. simpl. rewrite Hrow.
    change (foldr _ 0 (replicate n (replicate ny 0)))
      with (Np.sum2 (replicate n (replicate ny 0))). by rewrite IH. }
  induction nz as [|n IH]; [done |].
  change (replicate (S n) (replicate nx (replicate ny 0)))
    with (replicate nx (replicate ny 0) :: replicate n (replicate nx (replicate ny 0))).
  by rewrite fmap_cons, sum1_cons, Hplane, IH.
Qed.

Lemma count_if_snoc {A} (p : A → bool) l x :
  count_if p (l ++ [x]) = count_if p l + (if p x then 1 else 0).
Proof.
  unfold count_if, Py.len. rewrite filter_app, length_app.
  destruct (p x) eqn:E.
  - rewrite filter_cons_True by done. simpl. lia.
  - rewrite filter_cons_False by (by rewrite E). simpl. lia.
Qed.

Lemma filter_snoc_bool {A} (p : A → bool) l x :
  filter (λ y, p y = true) (l ++ [x]) =
  filter (λ y, p y = true) l ++ (if p x then [x] else []).
Proof.
  rewrite filter_app. f_equal. destruct (p x) eqn:E.
  - by rewrite filter_cons_True.
  - by rewrite filter_cons_False by (by rewrite E).
Qed.

Section Accounting.

Variables (d h : Q) (nz nx ny : nat).

(** On a volume of the grid's shape, [+= 1] raises exactly for the
    atoms off the grid, and otherwise adds one to the whole. *)
Lemma upd3_succ_cases a t :
  Np.shaped nz nx ny a →
  let '(iz, ix, iy) := cell_index d h (position t) in
  if off_grid d h nz nx ny t
  then Np.upd3 Z.succ a iz ix iy = None ∧ Np.get3 a iz ix iy = None
  else ∃ a' v, Np.upd3 Z.succ a iz ix iy = Some a' ∧ Np.get3 a iz ix iy = Some v ∧
               total3 a' = total3 a + 1.
Proof.
  intros Ha. unfold off_grid, Np.upd3, Np.get3.
  destruct (cell_index d h (position t)) as [[iz ix] iy].
  rewrite (locate_shaped _ _ _ _ _ _ _ Ha).
  destruct (Np.locate_dims nz nx ny iz ix iy) as [[[kz kx] ky]|] eqn:Eloc; simpl;
    [| done].
  apply locate_dims_lt in Eloc as (Lz & Lx & Ly).
  destruct (cell_shaped _ _ _ _ kz kx ky Ha Lz Lx Ly) as [v Hv].
  exists (Np.alter3 Z.succ (kz, kx, ky) a), v.
  split; [done |]. split; [done |]. by eapply total3_alter3_succ.
Qed.

Lemma counted_inv_init : counted_inv d h nz nx ny [] (mem_init nz nx ny).
Proof.
  split; [apply mem_wf_init |]. simpl. by rewrite total3_zeros3.
Qed.

Lemma counted_inv_step_all seen st t :
  counted_inv d h nz nx ny seen st → counted_inv d h nz nx ny (seen ++ [t]) (step_all d h nz nx ny st t).
Proof.
  intros (Hwf & Hsum & Hlog). split; [by apply mem_wf_step_all |].
  pose proof (upd3_succ_cases (mem_slab0 st) t (proj1 Hwf)) as Hc.
  unfold step_all. rewrite count_if_snoc, filter_snoc_bool, fmap_app.
  unfold on_grid at 2. destruct (cell_index d h (position t)) as [[iz ix] iy].
  destruct (off_grid d h nz nx ny t).
  - destruct Hc as [-> _]. simpl. rewrite Hsum, Hlog. split; [lia | done].
  - destruct Hc as (a' & v & -> & _ & Ha'). simpl.
    rewrite Ha', Hsum, Hlog, app_nil_r. done.
Qed.

Lemma counted_inv_step_same seen st t :
  counted_inv d h nz nx ny seen st → counted_inv d h nz nx ny (seen ++ [t]) (step_same d h nz nx ny st t).
Proof.
  intros (Hwf & Hsum & Hlog). split; [by apply mem_wf_step_same |].
  pose proof (upd3_succ_cases (mem_slab0 st) t (proj1 Hwf)) as Hc.
  pose proof (step_same_lists d h nz nx ny st t Hwf) as Hl. simpl in Hl.
  unfold step_same, try_same in *. rewrite count_if_snoc, filter_snoc_bool, fmap_app.
  unfold on_grid at 2. unfold off_grid in *.
  destruct (cell_index d h (position t)) as [[iz ix] iy].
  destruct (Np.locate_dims nz nx ny iz ix iy) as [[[kz kx] ky]|] eqn:Eloc.
  - destruct Hc as (a' & v & Ea & _ & Ha'). rewrite Ea in *. simpl.
    destruct Hwf as (_ & _ & L1 & L2 & Hrows). destruct Hl as (Hz & ids & Hids & _).
    unfold Np.locate_dims in Eloc. rewrite Hz in Eloc. simpl in Eloc.
    destruct (Py.index nx ix) as [kx'|] eqn:Ex; simpl in Eloc; [| done].
    rewrite (register_valid nz nx _ _ _ _ _ _ _ _ L1 L2 Hrows Hz Ex Hids).
    case_decide; simpl; rewrite Ha', Hsum, Hlog, app_nil_r; done.
  - destruct Hc as [-> _]. simpl. rewrite Hsum, Hlog. split; [lia | done].
Qed.

Lemma step_head_keeps st t :
  mem_slab0 (step_head d h st t) = mem_slab0 st ∧
  mem_log (step_head d h st t) = mem_log st.
Proof.
  unfold step_head. destruct (cell_index d h (position t)) as [[iz ix] iy]. simpl.
  destruct (Np.upd3 _ _ _ _ _); done.
Qed.

Lemma heads_inv_step seen st t :
  heads_inv d h nz nx ny seen st → heads_inv d h nz nx ny (seen ++ [t]) (step_head d h st t).
Proof.
  intros (Hwf & Hsum). split; [by apply mem_wf_step_head |].
  destruct Hwf as (Hm & Hr & Hrest).
  pose proof (upd3_succ_cases (mem_resid_slab0 st) t Hr) as Hc.
  unfold step_head. rewrite count_if_snoc. unfold on_grid at 2.
  destruct (cell_index d h (position t)) as [[iz ix] iy].
  destruct (off_grid d h nz nx ny t).
  - destruct Hc as [-> _]. simpl. rewrite Hsum. lia.
  - destruct Hc as (a' & v & -> & _ & Ha'). simpl. rewrite Ha', Hsum. done.
Qed.

(** The single loop never touches the head-subset volume. *)
Lemma step_same_keeps_heads st t :
  mem_resid_slab0 (step_same d h nz nx ny st t) = mem_resid_slab0 st.
Proof.
  unfold step_same, try_same. destruct (cell_index d h (position t)) as [[iz ix] iy].
  destruct (Np.upd3 _ _ _ _ _); simpl; [| done].
  destruct (register _ _ _ _ _); done.
Qed.

Lemma step_all_keeps_heads st t :
  mem_resid_slab0 (step_all d h nz nx ny st t) = mem_resid_slab0 st.
Proof.
  unfold step_all. destruct (cell_index d h (position t)) as [[iz ix] iy].
  destruct (Np.upd3 _ _ _ _ _); done.
Qed.

Lemma prot_counted_inv_step mem seen st t :
  Np.shaped nz nx ny mem →
  prot_counted_inv d h nz nx ny mem seen st →
  prot_counted_inv d h nz nx ny mem (seen ++ [t]) (step_prot d h nz nx ny mem st t).
Proof.
  intros Hmem (Hp & Hsum & Hlog).
  pose proof (upd3_succ_cases mem t Hmem) as Hm.
  pose proof (upd3_succ_cases st.1 t Hp) as Hc.
  unfold prot_counted_inv, step_prot.
  rewrite count_if_snoc, filter_snoc_bool, fmap_app.
  unfold on_grid at 2, over_membrane at 2.
  destruct (cell_index d h (position t)) as [[iz ix] iy].
  destruct (off_grid d h nz nx ny t).
  - destruct Hm as [_ ->]. simpl. rewrite Hsum, Hlog. split; [done |]. split; [lia | done].
  - destruct Hm as (_ & m & _ & -> & _). destruct Hc as (a' & v & Ea & _ & Ha').
    simpl. case_decide as Hm0.
    + subst m. rewrite Ea. simpl. rewrite Ha', Hsum, Hlog, app_nil_r.
      split; [by eapply upd3_shaped | done].
    + destruct (Z.eqb_spec m 0) as [->|_]; [done |]. simpl.
      rewrite Hsum, Hlog, app_nil_r. split; [done |]. split; [lia | done].
Qed.

End Accounting.

Lemma membrane_warning_kind d h nz nx ny t :
  is_membrane_out (warn_membrane d h nz nx ny t) = true ∧
  is_protein_out (warn_membrane d h nz nx ny t) = false.
Proof. unfold warn_membrane. by destruct (cell_index d h (position t)) as [[? ?] ?]. Qed.

Lemma protein_warning_kind d h nz nx ny t :
  is_protein_out (warn_protein d h nz nx ny t) = true ∧
  is_membrane_out (warn_protein d h nz nx ny t) = false.
Proof. unfold warn_protein. by destruct (cell_index d h (position t)) as [[? ?] ?]. Qed.

Lemma filter_fmap_all {A B} (p : B → bool) (g : A → B) (l : list A) :
  (∀ x, p (g x) = true) → filter (λ y, p y = true) (g <$> l) = g <$> l.
Proof.
  intros Hp. induction l as [|x l IH]; [done |].
  rewrite fmap_cons, filter_cons_True by apply Hp. by rewrite IH.
Qed.

Lemma filter_fmap_none {A B} (p : B → bool) (g : A → B) (l : list A) :
  (∀ x, p (g x) = false) → filter (λ y, p y = true) (g <$> l) = [].
Proof.
  intros Hp. induction l as [|x l IH]; [done |].
  rewrite fmap_cons, filter_cons_False by (by rewrite Hp). done.
Qed.

Section Frame_accounting.

Variables (c : Config) (nz nx ny : nat) (f : Frame).

Lemma membrane_pass_counted :
  let ms := membrane_pass (dz c) (dh c) nz nx ny (same_selection c)
              (u_mem_sel_m f) (u_mem_sel_m_a f) in
  let atoms := if same_selection c then u_mem_sel_m f else u_mem_sel_m_a f in
  total3 (mem_slab0 ms) = count_if (on_grid (dz c) (dh c) nz nx ny) atoms ∧
  mem_log ms = warn_membrane (dz c) (dh c) nz nx ny <$>
                 filter (λ t, off_grid (dz c) (dh c) nz nx ny t = true) atoms.
Proof.
  unfold membrane_pass. destruct (same_selection c).
  - pose proof (foldl_seen (counted_inv (dz c) (dh c) nz nx ny)
                  (step_same (dz c) (dh c) nz nx ny) (u_mem_sel_m f) [] _
                  (counted_inv_step_same (dz c) (dh c) nz nx ny)
                  (counted_inv_init (dz c) (dh c) nz nx ny)) as (_ & H1 & H2).
    done.
  - pose proof (foldl_seen (counted_inv (dz c) (dh c) nz nx ny)
                  (step_all (dz c) (dh c) nz nx ny) (u_mem_sel_m_a f) [] _
                  (counted_inv_step_all (dz c) (dh c) nz nx ny)
                  (counted_inv_init (dz c) (dh c) nz nx ny)) as (_ & H1 & H2).
    simpl in H1, H2. set (s0 := foldl _ _ (u_mem_sel_m_a f)) in *.
    assert (mem_slab0 (foldl (step_head (dz c) (dh c)) s0 (u_mem_sel_m f)) = mem_slab0 s0 ∧
            mem_log (foldl (step_head (dz c) (dh c)) s0 (u_mem_sel_m f)) = mem_log s0)
      as [-> ->]; [| done].
    apply (foldl_invariant (λ s, mem_slab0 s = mem_slab0 s0 ∧ mem_log s = mem_log s0));
      [done |].
    intros s t [E1 E2]. destruct (step_head_keeps (dz c) (dh c) s t) as [-> ->]. done.
Qed.

Lemma protein_pass_counted mem :
  Np.shaped nz nx ny mem →
  let pp := protein_pass (dz c) (dh c) nz nx ny mem (u_mem_sel_p f) in
  total3 pp.1 = count_if (λ t, on_grid (dz c) (dh c) nz nx ny t
                               && negb (over_membrane (dz c) (dh c) mem t))
                  (u_mem_sel_p f) ∧
  pp.2 = warn_protein (dz c) (dh c) nz nx ny <$>
           filter (λ t, off_grid (dz c) (dh c) nz nx ny t = true) (u_mem_sel_p f).
Proof.
  intros Hmem. unfold protein_pass.
  pose proof (foldl_seen (prot_counted_inv (dz c) (dh c) nz nx ny mem)
                (step_prot (dz c) (dh c) nz nx ny mem) (u_mem_sel_p f) []
                (Np.zeros3 nz nx ny, [])) as Hf.
  destruct Hf as (_ & H1 & H2); [| | done].
  - intros seen s t. by apply prot_counted_inv_step.
  - split; [apply shaped_zeros3 |]. simpl. by rewrite total3_zeros3.
Qed.

End Frame_accounting.

(** X3.  In every frame each atom of the membrane loop that fills
    [mem_slab0] (the all-atoms selection, or the only selection when
    [sel_m_a == sel_m]) is either counted once or reported once: the
    volume sums to the number of atoms on the grid, and the membrane
    warnings printed are those of the atoms off the grid, in order. *)
Theorem membrane_atoms_counted_or_reported c nz nx ny f :
  let fd := frame_pass c nz nx ny f in
  let atoms := if same_selection c then u_mem_sel_m f else u_mem_sel_m_a f in
  total3 (mem_slab fd) = count_if (on_grid (dz c) (dh c) nz nx ny) atoms ∧
  filter (λ w, is_membrane_out w = true) (printed fd) =
    warn_membrane (dz c) (dh c) nz nx ny <$>
      filter (λ t, off_grid (dz c) (dh c) nz nx ny t = true) atoms.
Proof.
  intros fd atoms. unfold fd, frame_pass, after_membrane. cbn [mem_slab printed].
  destruct (membrane_pass_counted c nz nx ny f) as [H1 H2].
  pose proof (mem_wf_pass (dz c) (dh c) nz nx ny (same_selection c)
                (u_mem_sel_m f) (u_mem_sel_m_a f)) as (Hm & _).
  destruct (protein_pass_counted c nz nx ny f _ Hm) as [_ H3].
  split; [exact H1 |].
  rewrite filter_app, H2, H3.
  rewrite filter_fmap_all by (intros t; apply membrane_warning_kind).
  rewrite filter_fmap_none by (intros t; apply protein_warning_kind).
  by rewrite app_nil_r.
Qed.

(** X4.  In every frame a protein atom is counted in [prot_slab1]
    exactly when it is on the grid and its cell holds no membrane atom;
    the protein warnings printed are those of the atoms off the grid, in
    order; an atom on a membrane cell is dropped without a message. *)
Theorem protein_atoms_counted_shadowed_or_reported c nz nx ny f :
  let fd := frame_pass c nz nx ny f in
  total3 (prot_slab fd) =
    count_if (λ t, on_grid (dz c) (dh c) nz nx ny t
                   && negb (over_membrane (dz c) (dh c) (mem_slab fd) t))
      (u_mem_sel_p f) ∧
  filter (λ w, is_protein_out w = true) (printed fd) =
    warn_protein (dz c) (dh c) nz nx ny <$>
      filter (λ t, off_grid (dz c) (dh c) nz nx ny t = true) (u_mem_sel_p f).
Proof.
  intros fd. unfold fd, frame_pass, after_membrane. cbn [mem_slab prot_slab printed].
  destruct (membrane_pass_counted c nz nx ny f) as [_ H2].
  pose proof (mem_wf_pass (dz c) (dh c) nz nx ny (same_selection c)
                (u_mem_sel_m f) (u_mem_sel_m_a f)) as (Hm & _).
  destruct (protein_pass_counted c nz nx ny f _ Hm) as [H1 H3].
  split; [exact H1 |].
  rewrite filter_app, H2, H3.
  rewrite filter_fmap_none by (intros t; apply membrane_warning_kind).
  rewrite filter_fmap_all by (intros t; apply protein_warning_kind).
  done.
Qed.

(** X5.  The head-subset volume [mem_resid_slab0] is filled only when
    the two selections differ: it then sums to the number of head atoms
    on the grid; when [sel_m_a == sel_m] it stays all zero. *)
Theorem head_volume_filled_only_when_selections_differ c nz nx ny f :
  let fd := frame_pass c nz nx ny f in
  if same_selection c
  then mem_resid_slab fd = Np.zeros3 nz nx ny
  else total3 (mem_resid_slab fd) =
         count_if (on_grid (dz c) (dh c) nz nx ny) (u_mem_sel_m f).
Proof.
  intros fd. unfold fd, frame_pass, after_membrane. cbn [mem_resid_slab].
  unfold membrane_pass. destruct (same_selection c).
  - apply (foldl_invariant (λ s, mem_resid_slab0 s = Np.zeros3 nz nx ny)); [done |].
    intros s t <-. apply step_same_keeps_heads.
  - set (s0 := foldl _ _ (u_mem_sel_m_a f)).
    assert (heads_inv (dz c) (dh c) nz nx ny [] s0) as H0.
    { split.
      - apply foldl_invariant; [apply mem_wf_init | intros; by apply mem_wf_step_all].
      - assert (mem_resid_slab0 s0 = Np.zeros3 nz nx ny) as ->.
        { apply (foldl_invariant (λ s, mem_resid_slab0 s = Np.zeros3 nz nx ny)); [done |].
          intros s t <-. apply step_all_keeps_heads. }
        by rewrite total3_zeros3. }
    pose proof (foldl_seen (heads_inv (dz c) (dh c) nz nx ny)
                  (step_head (dz c) (dh c)) (u_mem_sel_m f) [] s0
                  (heads_inv_step (dz c) (dh c) nz nx ny) H0) as [_ H1].
    done.
Qed.

(** ** Nothing is lost inside the box *)

Lemma in_range_on_grid d h nz nx ny t :
  in_range nz nx ny (cell_index d h (position t)) = true →
  off_grid d h nz nx ny t = false ∧ on_grid d h nz nx ny t = true.
Proof.
  unfold on_grid, off_grid, in_range, Np.locate_dims.
  destruct (cell_index d h (position t)) as [[iz ix] iy].
  intros [[Hz Hx]%andb_true_iff Hy]%andb_true_iff.
  apply bool_decide_eq_true in Hz, Hx, Hy.
  rewrite (index_nonneg nz iz), (index_nonneg nx ix), (index_nonneg ny iy) by done.
  done.
Qed.

Lemma count_if_all {A} (p : A → bool) (l : list A) :
  Forall (λ x, p x = true) l → count_if p l = Py.len l.
Proof.
  intros Hall. unfold count_if. f_equal.
  induction Hall as [|x l Hx _ IH]; [done |]. by rewrite filter_cons_True, IH.
Qed.

Lemma count_if_ext {A} (p q : A → bool) (l : list A) :
  Forall (λ x, p x = q x) l → count_if p l = count_if q l.
Proof.
  intros Hall. unfold count_if. f_equal.
  induction Hall as [|x l Hx _ IH]; [done |].
  destruct (q x) eqn:E.
  - rewrite !filter_cons_True by congruence. by rewrite IH.
  - rewrite !filter_cons_False by congruence. done.
Qed.

Lemma filter_none {A} (p : A → bool) (l : list A) :
  Forall (λ x, p x = false) l → filter (λ x, p x = true) l = [].
Proof.
  intros Hall. induction Hall as [|x l Hx _ IH]; [done |].
  rewrite filter_cons_False by (by rewrite Hx). done.
Qed.

Lemma inside_in_range c f0 t :
  (0 < dz c)%Q → (0 < dh c)%Q →
  inside_first_box f0 t →
  in_range (Z.to_nat (grid_size c f0).1.1) (Z.to_nat (grid_size c f0).1.2)
    (Z.to_nat (grid_size c f0).2) (cell_index (dz c) (dh c) (position t)) = true.
Proof.
  intros Hd Hh. unfold inside_first_box.
  destruct (position t) as [[x y] z]. intros (HX & HY & HZ).
  by apply index_in_first_box.
Qed.

(** X6.  For positive cell sizes: in a frame all of whose selected
    membrane and protein atoms lie in the box of the frame on which the
    grid was sized (0 <= x <= box_x, 0 <= y <= box_y, 0 <= z <= box_z),
    nothing is printed, every membrane atom is counted, and a protein
    atom is left out only when its cell holds membrane. *)
Theorem nothing_lost_inside_first_box c f0 f :
  (0 < dz c)%Q → (0 < dh c)%Q →
  Forall (inside_first_box f0) (u_mem_sel_m f) →
  Forall (inside_first_box f0) (u_mem_sel_m_a f) →
  Forall (inside_first_box f0) (u_mem_sel_p f) →
  let fd := frame_pass c (Z.to_nat (grid_size c f0).1.1) (Z.to_nat (grid_size c f0).1.2)
              (Z.to_nat (grid_size c f0).2) f in
  printed fd = [] ∧
  total3 (mem_slab fd) =
    Py.len (if same_selection c then u_mem_sel_m f else u_mem_sel_m_a f) ∧
  total3 (prot_slab fd) =
    count_if (λ t, negb (over_membrane (dz c) (dh c) (mem_slab fd) t)) (u_mem_sel_p f).
Proof.
  intros Hd Hh Hm Hma Hp.
  set (nz := Z.to_nat (grid_size c f0).1.1). set (nx := Z.to_nat (grid_size c f0).1.2).
  set (ny := Z.to_nat (grid_size c f0).2). intros fd.
  assert (∀ l, Forall (inside_first_box f0) l →
               Forall (λ t, off_grid (dz c) (dh c) nz nx ny t = false) l ∧
               Forall (λ t, on_grid (dz c) (dh c) nz nx ny t = true) l) as Hin.
  { intros l Hl. split; (eapply Forall_impl; [apply Hl |]); intros t Ht; simpl;
      apply in_range_on_grid; by apply inside_in_range. }
  assert (Forall (inside_first_box f0)
            (if same_selection c then u_mem_sel_m f else u_mem_sel_m_a f)) as Hatoms
    by (by destruct (same_selection c)).
  destruct (membrane_pass_counted c nz nx ny f) as [M1 M2].
  pose proof (mem_wf_pass (dz c) (dh c) nz nx ny (same_selection c)
                (u_mem_sel_m f) (u_mem_sel_m_a f)) as (Sm & _).
  destruct (protein_pass_counted c nz nx ny f _ Sm) as [P1 P2].
  destruct (Hin _ Hatoms) as [Hoff Hon]. destruct (Hin _ Hp) as [Poff Pon].
  unfold fd, frame_pass, after_membrane. cbn [printed mem_slab prot_slab].
  rewrite M2, P2, (filter_none _ _ Hoff), (filter_none _ _ Poff). split; [done |].
  split.
  - rewrite M1. by apply count_if_all.
  - rewrite P1. apply count_if_ext.
    eapply Forall_impl; [apply Pon |]. intros t Ht. simpl in *. by rewrite Ht.
Qed.

Lemma nothing_lost_inside_first_box_witness :
  let fd := frame_pass sample_config 11 10 10 sample_frame in
  printed fd = [] ∧
  total3 (mem_slab fd) = 4 ∧
  total3 (prot_slab fd) =
    count_if (λ t, negb (over_membrane 5 5 (mem_slab fd) t)) (u_mem_sel_p sample_frame).
Proof.
  apply (nothing_lost_inside_first_box sample_config sample_frame sample_frame);
    try (vm_compute; (reflexivity || discriminate));
    repeat (constructor; [vm_compute; repeat split; (reflexivity || discriminate) |]);
    constructor.
Defined.

(** ** Which frames [Get_info] processes *)

Lemma range_from_length n s st : length (Py.range_from n s st) = n.
Proof. revert s. induction n as [|n IH]; intros s; simpl; [done |]. by rewrite IH. Qed.

Lemma range_from_lookup n s st k :
  (k < n)%nat → Py.range_from n s st !! k = Some (s + Z.of_nat k * st).
Proof.
  revert s k. induction n as [|n IH]; intros s [|k] Hk; simpl; try lia.
  - f_equal. lia.
  - rewrite IH by lia. f_equal. lia.
Qed.

Lemma range_up start stop step :
  0 < step →
  Py.range start stop step =
    Some (Py.range_from (Z.to_nat ((stop - start + step - 1) / step)) start step).
Proof.
  intros Hs. unfold Py.range. rewrite decide_False by lia. by rewrite decide_True.
Qed.

Lemma Get_info_grid c traj run f0 :
  Get_info c traj = Some run → traj !! 0%nat = Some f0 →
  (nz_of run, nx_of run, ny_of run) = grid_size c f0.
Proof.
  unfold Get_info. destruct (interval c) as [[start stop0] step].
  rewrite py_get_0. intros Hrun H0. rewrite H0 in Hrun. simpl in Hrun.
  destruct (grid_size c f0) as [[nz nx] ny].
  destruct (Py.range _ _ _); simpl in Hrun; [| done].
  destruct (mapM _ _); simpl in Hrun; [| done]. by injection Hrun as <-.
Qed.

(** The records of a run, index by index of the frame loop. *)
Lemma Get_info_records c traj run start stop0 step :
  interval c = (start, stop0, step) → Get_info c traj = Some run →
  ∃ todo,
    Py.range start (if decide (stop0 < 0) then Py.len traj else stop0) step = Some todo ∧
    length (frames_of run) = length todo ∧ length (Rgr run) = length todo ∧
    ∀ k i, todo !! k = Some i →
      ∃ f, Py.get traj i = Some f ∧
           frames_of run !! k =
             Some (frame_pass c (Z.to_nat (nz_of run)) (Z.to_nat (nx_of run))
                     (Z.to_nat (ny_of run)) f) ∧
           Rgr run !! k = Some (Rgr_of f).
Proof.
  intros Hiv. unfold Get_info. rewrite Hiv.
  destruct (Py.get traj 0) as [f0|]; cbn [mbind option_bind]; [| done].
  destruct (grid_size c f0) as [[nz nx] ny].
  destruct (Py.range _ _ _) as [todo|]; cbn [mbind option_bind]; [| done].
  destruct (mapM _ todo) as [records|] eqn:Em; cbn [mbind option_bind]; [| done].
  intros [= <-]. exists todo. split; [done |]. cbn [frames_of Rgr nz_of nx_of ny_of].
  pose proof (length_mapM _ _ _ Em) as Hlen. rewrite !length_fmap.
  split; [done |]. split; [done |].
  intros k i Hk. apply mapM_Some_1 in Em.
  destruct (Forall2_lookup_l _ _ _ _ _ Em Hk) as ([rg fd] & Hr & Hit).
  unfold iteration in Hit.
  destruct (Py.get traj i) as [f|]; cbn [mbind option_bind] in Hit; [| done].
  case_decide; [| done]. injection Hit as <- <-.
  exists f. split; [done |]. by rewrite !list_lookup_fmap, Hr.
Qed.

Lemma py_get_nonneg {A} (l : list A) i x :
  0 <= i → Py.get l i = Some x → l !! Z.to_nat i = Some x.
Proof.
  intros Hi. unfold Py.get.
  destruct (Py.index (length l) i) as [k|] eqn:Ek; simpl; [| done].
  apply index_nonneg_Some in Ek as [_ ->]; done.
Qed.

(** X7.  Which frames a returning [Get_info] has processed.  With a
    start >= 0 and a stride > 0 (a negative stop meaning the length of
    the trajectory): the run holds the ceiling of (stop - start)/stride
    records, and its record [k] and radius [k] are those of trajectory
    frame start + k*stride, on the grid sized on trajectory frame 0. *)
Theorem Get_info_processes_strided_frames c traj run f0 start stop0 step :
  interval c = (start, stop0, step) → traj !! 0%nat = Some f0 →
  0 <= start → 0 < step →
  Get_info c traj = Some run →
  (nz_of run, nx_of run, ny_of run) = grid_size c f0 ∧
  let stop := if decide (stop0 < 0) then Py.len traj else stop0 in
  let n := Z.to_nat ((stop - start + step - 1) / step) in
  length (frames_of run) = n ∧ length (Rgr run) = n ∧
  ∀ k, (k < n)%nat →
    ∃ f, traj !! Z.to_nat (start + Z.of_nat k * step) = Some f ∧
         frames_of run !! k =
           Some (frame_pass c (Z.to_nat (nz_of run)) (Z.to_nat (nx_of run))
                   (Z.to_nat (ny_of run)) f) ∧
         Rgr run !! k = Some (Rgr_of f).
Proof.
  intros Hiv H0 Hstart Hstep Hrun.
  split; [by eapply Get_info_grid |].
  destruct (Get_info_records _ _ _ _ _ _ Hiv Hrun) as (todo & Htodo & L1 & L2 & Hrec).
  rewrite range_up in Htodo by done. injection Htodo as <-.
  rewrite range_from_length in L1, L2. cbn zeta.
  split; [done |]. split; [done |]. intros k Hk.
  destruct (Hrec k _ (range_from_lookup _ start step k Hk)) as (f & Hf & Hfd & Hrg).
  exists f. split; [| done]. apply py_get_nonneg; [lia | done].
Qed.

Lemma Get_info_processes_strided_frames_witness :
  (nz_of sample_run, nx_of sample_run, ny_of sample_run)
    = grid_size sample_config sample_frame ∧
  length (frames_of sample_run) = 2%nat ∧ length (Rgr sample_run) = 2%nat ∧
  ∀ k, (k < 2)%nat →
    ∃ f, sample_traj !! Z.to_nat (0 + Z.of_nat k * 1) = Some f ∧
         frames_of sample_run !! k =
           Some (frame_pass sample_config (Z.to_nat (nz_of sample_run))
                   (Z.to_nat (nx_of sample_run)) (Z.to_nat (ny_of sample_run)) f) ∧
         Rgr sample_run !! k = Some (Rgr_of f).
Proof.
  apply (Get_info_processes_strided_frames sample_config sample_traj sample_run
           sample_frame 0 (-1) 1);
    vm_compute; (reflexivity || discriminate).
Defined.

(** X8.  With the default interval (start 0, stride 1, a negative stop)
    a returning [Get_info] has processed every frame of the trajectory
    once, in order. *)
Theorem Get_info_default_processes_every_frame c traj run stop0 :
  interval c = (0, stop0, 1) → stop0 < 0 →
  Get_info c traj = Some run →
  frames_of run =
    frame_pass c (Z.to_nat (nz_of run)) (Z.to_nat (nx_of run)) (Z.to_nat (ny_of run))
      <$> traj ∧
  Rgr run = Rgr_of <$> traj.
Proof.
  intros Hiv Hneg Hrun.
  destruct (Get_info_records _ _ _ _ _ _ Hiv Hrun) as (todo & Htodo & L1 & L2 & Hrec).
  rewrite decide_True in Htodo by done.
  rewrite range_up in Htodo by done. injection Htodo as <-.
  rewrite range_from_length in L1, L2.
  replace (Z.to_nat ((Py.len traj - 0 + 1 - 1) / 1)) with (length traj) in *
    by (rewrite Z.div_1_r; unfold Py.len; lia).
  assert (∀ k, (k < length traj)%nat →
            ∃ f, traj !! k = Some f ∧
                 frames_of run !! k =
                   Some (frame_pass c (Z.to_nat (nz_of run)) (Z.to_nat (nx_of run))
                           (Z.to_nat (ny_of run)) f) ∧
                 Rgr run !! k = Some (Rgr_of f)) as Hk.
  { intros k Hlt.
    destruct (Hrec k _ (range_from_lookup _ 0 1 k Hlt)) as (f & Hf & Hfd & Hrg).
    exists f. split; [| done]. apply py_get_nonneg in Hf; [| lia].
    by replace (Z.to_nat (0 + Z.of_nat k * 1)) with k in Hf by lia. }
  split; apply list_eq; intros k; rewrite list_lookup_fmap.
  - destruct (decide (k < length traj)%nat) as [Hlt | Hge].
    + destruct (Hk k Hlt) as (f & Hf & -> & _). by rewrite Hf.
    + rewrite !(proj2 (lookup_ge_None _ _)) by lia. done.
  - destruct (decide (k < length traj)%nat) as [Hlt | Hge].
    + destruct (Hk k Hlt) as (f & Hf & _ & ->). by rewrite Hf.
    + rewrite !(proj2 (lookup_ge_None _ _)) by lia. done.
Qed.

Lemma Get_info_default_processes_every_frame_witness :
  frames_of sample_run =
    frame_pass sample_config (Z.to_nat (nz_of sample_run)) (Z.to_nat (nx_of sample_run))
      (Z.to_nat (ny_of sample_run)) <$> sample_traj ∧
  Rgr sample_run = Rgr_of <$> sample_traj.
Proof.
  apply (Get_info_default_processes_every_frame sample_config sample_traj sample_run (-1));
    vm_compute; reflexivity.
Defined.

(** X9.  [Get_info] does not clamp a stop that lies beyond the
    trajectory: with stride 1 and 0 <= start <= length < stop, the frame
    loop reaches the index [length] and raises [IndexError]. *)
Theorem Get_info_raises_beyond_last_frame c traj start stop0 :
  interval c = (start, stop0, 1) →
  0 <= start → start <= Py.len traj → Py.len traj < stop0 →
  Get_info c traj = None.
Proof.
  intros Hiv Hstart Hle Hstop. unfold Get_info. rewrite Hiv.
  rewrite decide_False by (unfold Py.len in *; lia).
  destruct (Py.get traj 0) as [f0|]; cbn [mbind option_bind]; [| done].
  destruct (grid_size c f0) as [[nz nx] ny].
  rewrite range_up by lia. cbn [mbind option_bind].
  rewrite (mapM_None_2 (iteration c traj nz nx ny)); [done |].
  apply Exists_exists. exists (Py.len traj). split.
  - apply list_elem_of_lookup. exists (Z.to_nat (Py.len traj - start)).
    rewrite range_from_lookup.
    + f_equal. lia.
    + rewrite Z.div_1_r. lia.
  - unfold iteration, Py.get, Py.index, Py.len.
    rewrite decide_False by lia. rewrite decide_False by lia. done.
Qed.

Lemma Get_info_raises_beyond_last_frame_witness :
  Get_info {| dz := 5; dh := 5; sel_m := "a"; sel_m_a := "b"; interval := (0, 3, 1) |}
    sample_traj = None.
Proof.
  apply (Get_info_raises_beyond_last_frame _ sample_traj 0 3); vm_compute;
    (reflexivity || discriminate).
Defined.

Lemma Get_info_count c traj run :
  Get_info c traj = Some run →
  ∃ idxs, (let '(start, stop0, step) := interval c in
           Py.range start (if decide (stop0 < 0) then Py.len traj else stop0) step)
            = Some idxs ∧
          length (frames_of run) = length idxs.
Proof.
  unfold Get_info. destruct (interval c) as [[start stop0] step].
  destruct (Py.get traj 0) as [f0|]; simpl; [| done].
  destruct (grid_size c f0) as [[nz nx] ny].
  destruct (Py.range _ _ _) as [idxs|]; simpl; [| done].
  destruct (mapM _ _) as [records|] eqn:Em; simpl; [| done].
  intros [= <-]. exists idxs. split; [done |]. simpl.
  rewrite length_fmap. symmetry. by eapply length_mapM.
Qed.

Lemma ceil_div a b :
  0 <= a → 0 < b →
  (a + b - 1) / b = a / b + (if decide (a mod b = 0) then 0 else 1).
Proof.
  intros Ha Hb. pose proof (Z.div_mod a b ltac:(lia)) as Hdm.
  pose proof (Z.mod_pos_bound a b Hb) as Hr.
  case_decide as Hz.
  - symmetry. apply (Z.div_unique _ _ _ (b - 1)); lia.
  - symmetry. apply (Z.div_unique _ _ _ (a mod b - 1)); lia.
Qed.

(** X10.  The number that [Get_info] announces as "will be analyzed" is
    the span divided by the stride, rounded down, while the frame loop
    runs over the span divided by the stride, rounded up: for a positive
    stride and start <= stop the announced number is exact when the
    stride divides the span and one short otherwise. *)
Theorem announced_frames_may_be_one_short c traj run start stop0 step :
  interval c = (start, stop0, step) → 0 < step →
  start <= (if decide (stop0 < 0) then Py.len traj else stop0) →
  Get_info c traj = Some run →
  let stop := if decide (stop0 < 0) then Py.len traj else stop0 in
  announced_frames c traj = Some ((stop - start) / step) ∧
  Py.len (frames_of run) =
    (stop - start) / step + (if decide ((stop - start) mod step = 0) then 0 else 1).
Proof.
  intros Hiv Hstep Hle Hrun stop. split.
  - unfold announced_frames. rewrite Hiv. fold stop.
    rewrite decide_False by lia. f_equal.
    rewrite int_floor_nonneg.
    + symmetry. apply Zdiv_Qdiv.
    + apply Qdiv_nonneg; [| by apply inject_Z_pos].
      change 0%Q with (inject_Z 0). rewrite <- Zle_Qle. lia.
  - destruct (Get_info_count _ _ _ Hrun) as (idxs & Hidx & Hlen).
    rewrite Hiv in Hidx. fold stop in Hidx. rewrite (range_up _ _ _ Hstep) in Hidx.
    injection Hidx as <-. rewrite range_from_length in Hlen.
    unfold Py.len. rewrite Hlen.
    rewrite <- ceil_div by lia.
    rewrite Z2Nat.id; [done |]. apply Z.div_pos; lia.
Qed.

Lemma announced_frames_may_be_one_short_witness :
  let c := {| dz := 5; dh := 5; sel_m := "a"; sel_m_a := "b"; interval := (0, -1, 3) |} in
  let traj := [sample_frame; sample_frame; sample_frame; sample_frame] in
  announced_frames c traj = Some 1 ∧
  Py.len (frames_of (default sample_run (Get_info c traj))) = 2.
Proof.
  intros c traj.
  apply (announced_frames_may_be_one_short c traj
           (default sample_run (Get_info c traj)) 0 (-1) 3);
    vm_compute; (reflexivity || discriminate).
Defined.

(** ** The constructor *)

Lemma append_neq (s t : string) : t ≠ ""%string → (s ++ t)%string ≠ s.
Proof.
  intros Ht. induction s as [|a s IH]; simpl; [done |].
  intros [= E]. by apply IH.
Qed.

(** X11.  Passing one and the same non-empty string as [sel_m] and as
    [sel_m_a] does not select the single membrane loop: the constructor
    appends " and (not name H* )" to [sel_m_a], so the two selections it
    stores differ and [Get_info] runs the all-atoms loop and the
    head-subset loop. *)
Theorem identical_selections_differ_once_stored lig iv d dh sel am sa s :
  sel ≠ ""%string →
  init lig iv d dh sel sel am sa = Some s →
  sel_m (config_of s) = sel ∧
  sel_m_a (config_of s) = (sel ++ " and (not name H* )")%string ∧
  same_selection (config_of s) = false.
Proof.
  intros Hsel. unfold init.
  destruct (String.eqb_spec sel "") as [? | _]; [done |].
  destruct (Qeq_bool d 0); [done |]. intros [= <-]. simpl.
  split; [done |]. split; [done |].
  unfold same_selection. simpl. apply String.eqb_neq. by apply append_neq.
Qed.

Lemma identical_selections_differ_once_stored_witness :
  ∃ s, init "" (0, -1, 1) 3 3 "resname POPC" "resname POPC" false "" = Some s ∧
       same_selection (config_of s) = false.
Proof.
  eexists. split; [reflexivity |].
  eapply (identical_selections_differ_once_stored "" (0, -1, 1) 3 3 "resname POPC" false "");
    [discriminate | reflexivity].
Defined.

(** ** When [Prep4plot] returns *)

Lemma argwhere_pos_elem from v k x :
  v !! k = Some x → 0 < x → (from + Z.of_nat k) ∈ argwhere_pos from v.
Proof.
  revert from k. induction v as [|y v IH]; intros from [|k] Hk Hx; simpl in *; try done.
  - injection Hk as ->. rewrite decide_True by done.
    replace (from + Z.of_nat 0) with from by lia. left.
  - replace (from + Z.of_nat (S k)) with (from + 1 + Z.of_nat k) by lia.
    case_decide; [right |]; by apply IH.
Qed.

Lemma argwhere_pos_none v from :
  Forall (λ x, x <= 0) v → argwhere_pos from v = [].
Proof.
  intros Hv. revert from. induction Hv as [|x v Hx _ IH]; intros from; simpl; [done |].
  rewrite decide_False by lia. apply IH.
Qed.

(** X12.  [Prep4plot] raises when there is no processed frame, and when
    frame 0 has no slab with a registered residue (no head atom of the
    membrane selection reached the grid): the window of the 2D maps
    cannot be placed. *)
Theorem Prep4plot_needs_a_residue_in_frame_0 c run :
  (frames_of run = [] ∨
   ∃ f0, frames_of run !! 0%nat = Some f0 ∧ Forall (λ x, x <= 0) (resid_array f0)) →
  Prep4plot c run = None.
Proof.
  unfold Prep4plot. intros [-> | (f0 & -> & Hzero)]; [done |].
  cbn [mbind option_bind]. by rewrite argwhere_pos_none.
Qed.

Lemma Prep4plot_needs_a_residue_in_frame_0_witness :
  Prep4plot sample_config
    {| nz_of := 11; nx_of := 10; ny_of := 10;
       frames_of := [frame_pass sample_config 11 10 10 (bare_frame [] [] [] [stray_water])];
       Rgr := [12%Q] |} = None.
Proof.
  apply Prep4plot_needs_a_residue_in_frame_0. right. eexists. split; [reflexivity |].
  vm_compute. repeat (constructor; [discriminate |]). constructor.
Defined.

Lemma py_get_is_Some {A} (l : list A) z : indexable (length l) z → is_Some (Py.get l z).
Proof.
  intros [k Hk]. unfold Py.get. rewrite Hk. simpl.
  apply lookup_lt_is_Some. by eapply index_lt.
Qed.

Lemma py_get_indexable {A} (l : list A) z x : Py.get l z = Some x → indexable (length l) z.
Proof.
  unfold Py.get, indexable. destruct (Py.index (length l) z); [eauto | done].
Qed.

Lemma accumulate_first {A} (add : A → A → A) i x acc :
  accumulate add 0 i x acc = Some (acc ++ [x]).
Proof. done. Qed.

Lemma accumulate_later {A} (add : A → A → A) k i x acc :
  (i < length acc)%nat →
  ∃ acc', accumulate add (S k) i x acc = Some acc' ∧ length acc' = length acc.
Proof.
  intros Hi. apply lookup_lt_is_Some in Hi as [old Hold].
  unfold accumulate. rewrite Hold. simpl. eexists. split; [done |].
  by rewrite length_insert.
Qed.

Section Window_returns.

Variables (c : Config) (nx : Z) (n : nat).

Lemma window_step_reads fd z :
  frame_depth fd n → indexable n z →
  ∃ m mr p zx, Py.get (mem_slab fd) z = Some m ∧ Py.get (mem_resid_slab fd) z = Some mr ∧
    Py.get (prot_slab fd) z = Some p ∧ Py.get (resid_array_zx fd) z = Some zx.
Proof.
  intros (L1 & L2 & L3 & L4) Hz.
  destruct (py_get_is_Some (mem_slab fd) z) as [m Hm]; [by rewrite L1 |].
  destruct (py_get_is_Some (mem_resid_slab fd) z) as [mr Hmr]; [by rewrite L2 |].
  destruct (py_get_is_Some (prot_slab fd) z) as [p Hp]; [by rewrite L3 |].
  destruct (py_get_is_Some (resid_array_zx fd) z) as [zx Hzx]; [by rewrite L4 |].
  by exists m, mr, p, zx.
Qed.

Lemma window_step_first fd st i z L :
  frame_depth fd n → indexable n z → maps_length st L →
  ∃ st', window_step c nx 0 fd st (i, z) = Some st' ∧ maps_length st' (S L).
Proof.
  intros Hfd Hz (M1 & M2 & M3 & M4 & M5).
  destruct (window_step_reads fd z Hfd Hz) as (m & mr & p & zx & Hm & Hmr & Hp & Hzx).
  unfold window_step. cbn [fst snd]. rewrite Hm, Hmr, Hp, Hzx.
  cbn [mbind option_bind]. rewrite !accumulate_first. cbn [mbind option_bind].
  eexists. split; [done |].
  unfold maps_length. simpl. rewrite !length_app. simpl. lia.
Qed.

Lemma window_step_later k fd st i z L :
  frame_depth fd n → indexable n z → maps_length st L → (i < L)%nat →
  ∃ st', window_step c nx (S k) fd st (i, z) = Some st' ∧ maps_length st' L.
Proof.
  intros Hfd Hz (M1 & M2 & M3 & M4 & M5) Hi.
  destruct (window_step_reads fd z Hfd Hz) as (m & mr & p & zx & Hm & Hmr & Hp & Hzx).
  unfold window_step. cbn [fst snd]. rewrite Hm, Hmr, Hp, Hzx.
  cbn [mbind option_bind].
  destruct (accumulate_later add2 k i m (mem_slab_frame st)) as (a1 & -> & L1); [lia |].
  destruct (accumulate_later add2 k i mr (mem_resid_slab_frame st)) as (a2 & -> & L2); [lia |].
  destruct (accumulate_later add2 k i p (prot_slab_frame st)) as (a3 & -> & L3); [lia |].
  destruct (accumulate_later addq k i (free_area_x c nx p) (area_x st)) as (a4 & -> & L4);
    [lia |].
  destruct (accumulate_later add1 k i zx (mem_slab_frame_zx st)) as (a5 & -> & L5); [lia |].
  cbn [mbind option_bind]. eexists. split; [done |].
  unfold maps_length. simpl. lia.
Qed.

Lemma first_frame_returns fd win i0 st L :
  frame_depth fd n → Forall (indexable n) win → maps_length st L →
  ∃ st', foldM (window_step c nx 0 fd) st (zip (seq i0 (length win)) win) = Some st' ∧
         maps_length st' (L + length win).
Proof.
  intros Hfd Hwin. revert i0 st L.
  induction Hwin as [|z win Hz _ IH]; intros i0 st L HL; simpl.
  - exists st. split; [done |]. by rewrite Nat.add_0_r.
  - destruct (window_step_first fd st i0 z L Hfd Hz HL) as (s1 & -> & H1).
    cbn [mbind option_bind].
    destruct (IH (S i0) s1 (S L) H1) as (st' & -> & H').
    exists st'. split; [done |]. by rewrite Nat.add_succ_r.
Qed.

Lemma later_frame_returns k fd win i0 st L :
  frame_depth fd n → Forall (indexable n) win → maps_length st L →
  (i0 + length win <= L)%nat →
  ∃ st', foldM (window_step c nx (S k) fd) st (zip (seq i0 (length win)) win) = Some st' ∧
         maps_length st' L.
Proof.
  intros Hfd Hwin. revert i0 st.
  induction Hwin as [|z win Hz _ IH]; intros i0 st HL Hi0; simpl in *.
  - by exists st.
  - destruct (window_step_later k fd st i0 z L Hfd Hz HL) as (s1 & -> & H1); [lia |].
    cbn [mbind option_bind]. apply IH; [done | lia].
Qed.

Lemma window_pass_returns k fd win st :
  frame_depth fd n → Forall (indexable n) win →
  Py.range (start_mem st) (stop_mem st) (step_mem st) = Some win →
  (k = 0%nat ∧ maps_length st 0) ∨ (k ≠ 0%nat ∧ maps_length st (length win)) →
  ∃ st', window_pass c nx st (k, fd) = Some st' ∧ maps_length st' (length win) ∧
         Py.range (start_mem st') (stop_mem st') (step_mem st') = Some win.
Proof.
  intros Hfd Hwin Hrange Hst.
  assert (∃ st', window_pass c nx st (k, fd) = Some st' ∧ maps_length st' (length win))
    as (st' & Hpass & Hlen).
  { unfold window_pass. rewrite Hrange. cbn [mbind option_bind fst snd]. unfold enumerate.
    destruct Hst as [[-> H0] | [Hk HL]].
    - apply (first_frame_returns fd win 0 st 0 Hfd Hwin H0).
    - destruct k as [|k]; [done |].
      apply (later_frame_returns k fd win 0 st _ Hfd Hwin HL). simpl. lia. }
  exists st'. split; [done |]. split; [done |].
  destruct (window_pass_fields _ _ _ _ _ Hpass) as (-> & -> & ->). done.
Qed.

Lemma later_frames_return win rest i0 st :
  Forall (λ fd, frame_depth fd n) rest → Forall (indexable n) win →
  Py.range (start_mem st) (stop_mem st) (step_mem st) = Some win →
  maps_length st (length win) →
  ∃ st', foldM (window_pass c nx) st (zip (seq (S i0) (length rest)) rest) = Some st' ∧
         maps_length st' (length win).
Proof.
  intros Hrest Hwin. revert i0 st.
  induction Hrest as [|fd rest Hfd _ IH]; intros i0 st Hrange HL; simpl.
  - by exists st.
  - destruct (window_pass_returns (S i0) fd win st Hfd Hwin Hrange) as (s1 & -> & H1 & R1);
      [right; by split |].
    cbn [mbind option_bind]. by apply IH.
Qed.

Lemma all_frames_return win f0 rest st :
  Forall (λ fd, frame_depth fd n) (f0 :: rest) → Forall (indexable n) win →
  Py.range (start_mem st) (stop_mem st) (step_mem st) = Some win →
  maps_length st 0 →
  ∃ st', foldM (window_pass c nx) st (enumerate (f0 :: rest)) = Some st' ∧
         maps_length st' (length win).
Proof.
  intros Hall Hwin Hrange H0. apply Forall_cons in Hall as [Hf0 Hrest].
  unfold enumerate. simpl.
  destruct (window_pass_returns 0 f0 win st Hf0 Hwin Hrange) as (s1 & -> & H1 & R1);
    [left; by split |].
  cbn [mbind option_bind]. by apply later_frames_return.
Qed.

End Window_returns.

Lemma indexable_iff n z : indexable n z ↔ - Z.of_nat n <= z < Z.of_nat n.
Proof.
  unfold indexable, Py.index. split.
  - intros [k Hk]. repeat case_decide; try done; lia.
  - intros Hz. repeat case_decide; eauto; lia.
Qed.

(** The window [range(lo-2, hi+2, 2)] on an axis of [n] slabs. *)
Lemma window_indexable (n lo hi : nat) win :
  (lo <= hi < n)%nat →
  Py.range (Z.of_nat lo - 2) (Z.of_nat hi + 2) 2 = Some win →
  (2 <= length win)%nat ∧
  (Forall (indexable n) win ↔
   2 <= Z.of_nat n ∧
   (Z.of_nat hi + 1 = Z.of_nat n → Z.even (Z.of_nat hi - Z.of_nat lo) = true)).
Proof.
  intros Hlo. rewrite range_up by lia. intros [= <-].
  rewrite range_from_length.
  set (L := (Z.of_nat hi + 2 - (Z.of_nat lo - 2) + 2 - 1) / 2).
  assert (2 * L <= Z.of_nat hi - Z.of_nat lo + 5 < 2 * L + 2) as HL
    by (subst L; Z.div_mod_to_equations; lia).
  assert (2 <= L) as HL2 by lia.
  split; [lia |].
  assert (Z.even (Z.of_nat hi - Z.of_nat lo) = true ↔
          2 * L = Z.of_nat hi - Z.of_nat lo + 4) as Hev.
  { rewrite Z.even_spec. split.
    - intros [k Hk]. lia.
    - intros Hk. exists (L - 2). lia. }
  split.
  - intros Hall.
    assert (0 < Z.to_nat L)%nat as K0 by lia.
    assert (Z.to_nat (L - 1) < Z.to_nat L)%nat as K1 by lia.
    pose proof (Forall_lookup_1 _ _ _ _ Hall
                  (range_from_lookup (Z.to_nat L) (Z.of_nat lo - 2) 2 _ K0)) as H0.
    pose proof (Forall_lookup_1 _ _ _ _ Hall
                  (range_from_lookup (Z.to_nat L) (Z.of_nat lo - 2) 2 _ K1)) as H1.
    apply indexable_iff in H0, H1. rewrite Z2Nat.id in H1 by lia.
    split; [lia |]. intros Htop. apply Hev. lia.
  - intros [Hn Htop]. apply Forall_lookup_2. intros k z Hz.
    assert (k < Z.to_nat L)%nat as Hk.
    { apply lookup_lt_Some in Hz. by rewrite range_from_length in Hz. }
    rewrite range_from_lookup in Hz by done. injection Hz as <-.
    apply indexable_iff.
    destruct (decide (Z.of_nat hi + 1 = Z.of_nat n)) as [E | E].
    + apply Htop, Hev in E. lia.
    + lia.
Qed.

Lemma argwhere_first_last (v : vector) lo hi :
  Forall (λ x, 0 <= x) v → first_nonzero v lo → last_nonzero v hi →
  head (argwhere_pos 0 v) = Some (Z.of_nat lo) ∧
  last (argwhere_pos 0 v) = Some (Z.of_nat hi) ∧
  (lo <= hi < length v)%nat.
Proof.
  intros Hnn ((xlo & Hxlo & Nlo) & Blo) ((xhi & Hxhi & Nhi) & Ahi).
  pose proof (Forall_lookup_1 _ _ _ _ Hnn Hxlo) as Plo.
  pose proof (Forall_lookup_1 _ _ _ _ Hnn Hxhi) as Phi. simpl in Plo, Phi.
  pose proof (argwhere_pos_elem 0 v lo xlo Hxlo ltac:(lia)) as Hin.
  destruct (head (argwhere_pos 0 v)) as [a|] eqn:Eh;
    [| apply head_None in Eh; rewrite Eh in Hin; by apply elem_of_nil in Hin].
  destruct (last (argwhere_pos 0 v)) as [b|] eqn:El;
    [| apply last_None in El; rewrite El in Hin; by apply elem_of_nil in Hin].
  destruct (argwhere_pos_head _ _ _ Eh) as (ka & -> & (xa & Hxa & Pa) & Ba).
  destruct (argwhere_pos_last _ _ _ El) as (kb & -> & (xb & Hxb & Pb) & Ab).
  assert (ka = lo) as ->.
  { destruct (Nat.lt_trichotomy ka lo) as [Hlt | [-> | Hgt]]; [| done |].
    - pose proof (Blo ka xa Hlt Hxa). lia.
    - pose proof (Ba lo xlo Hgt Hxlo). lia. }
  assert (kb = hi) as ->.
  { destruct (Nat.lt_trichotomy kb hi) as [Hlt | [-> | Hgt]]; [| done |].
    - pose proof (Ab hi xhi Hlt Hxhi). lia.
    - pose proof (Ahi kb xb Hgt Hxb). lia. }
  split; [f_equal; lia |]. split; [f_equal; lia |].
  split; [| by eapply lookup_lt_Some].
  destruct (decide (lo <= hi)%nat) as [| Hgt]; [done |].
  pose proof (Ahi lo xlo ltac:(lia) Hxlo). lia.
Qed.

Lemma window_sums_length {A} (add : A → A → A) at_ win fds l :
  window_sums add at_ win fds = Some l → length l = length win.
Proof.
  unfold window_sums. destruct fds as [|f0 rest]; [done |].
  destruct (mapM (at_ f0) win) as [x0|] eqn:E0; cbn [mbind option_bind]; [| done].
  apply length_mapM in E0. revert x0 E0.
  induction rest as [|fd rest IH]; intros x0 E0; simpl.
  - intros [= <-]. done.
  - destruct (mapM (at_ fd) win) as [xs|] eqn:Exs; cbn [mbind option_bind]; [| done].
    apply IH. apply length_mapM in Exs. rewrite length_zip_with. lia.
Qed.

(** On frames of [n] slabs, [Prep4plot] returns exactly when the axis
    accepts every slab index of the window. *)
Lemma Prep4plot_window_cond c run n f0 lo hi win :
  Forall (λ fd, frame_depth fd n) (frames_of run) →
  frames_of run !! 0%nat = Some f0 →
  head (argwhere_pos 0 (resid_array f0)) = Some lo →
  last (argwhere_pos 0 (resid_array f0)) = Some hi →
  Py.range (lo - 2) (hi + 2) 2 = Some win →
  is_Some (Prep4plot c run) ↔ Forall (indexable n) win.
Proof.
  intros Hdepth Hf0 Hlo Hhi Hwin. unfold Prep4plot.
  destruct (frames_of run) as [|f0' rest] eqn:Efr; [done |].
  injection Hf0 as ->. cbn [lookup list_lookup mbind option_bind].
  rewrite Hlo, Hhi. cbn [mbind option_bind].
  set (st0 := {| start_mem := _ |}).
  split.
  - intros [plot Hplot].
    destruct (foldM _ _ _) as [st|] eqn:Eloop; cbn [mbind option_bind] in Hplot; [| done].
    pose proof (all_frames_accumulate c (nx_of run) _ _ _ (channel_mem c (nx_of run))
                  win f0 rest st0 st Hwin eq_refl Eloop) as Hsums.
    unfold window_sums in Hsums.
    destruct (mapM (mem_at f0) win) as [x0|] eqn:E0; cbn [mbind option_bind] in Hsums;
      [| done].
    apply mapM_Some_1 in E0. apply Forall_cons in Hdepth as [(L1 & _) _].
    apply Forall_lookup_2. intros k z Hz.
    destruct (Forall2_lookup_l _ _ _ _ _ E0 Hz) as (x & _ & Hx).
    apply py_get_indexable in Hx. by rewrite L1 in Hx.
  - intros Hall.
    destruct (all_frames_return c (nx_of run) n win f0 rest st0 Hdepth Hall Hwin)
      as (st & -> & _); [by repeat split |].
    cbn [mbind option_bind]. eauto.
Qed.

Lemma Get_info_depth c traj run :
  Get_info c traj = Some run →
  Forall (λ fd, frame_depth fd (Z.to_nat (nz_of run))) (frames_of run).
Proof.
  intros Hrun. apply Forall_forall. intros fd Hin.
  destruct (Get_info_frames _ _ _ _ Hrun Hin) as (_ & f & _ & ->).
  destruct (frame_shapes c (Z.to_nat (nz_of run)) (Z.to_nat (nx_of run))
              (Z.to_nat (ny_of run)) f) as ([Lm _] & [Lr _] & [Lp _] & _).
  pose proof (frame_lengths c (Z.to_nat (nz_of run)) (Z.to_nat (nx_of run))
                (Z.to_nat (ny_of run)) f) as (_ & _ & _ & _ & _ & Lzx & _).
  by repeat split.
Qed.

(** X13.  When [Prep4plot] returns.  For a run of [Get_info] whose
    frame 0 has its first and last slab with residues at [lo] and [hi]:
    [Prep4plot] returns unless the grid has fewer than 2 slabs, or [hi]
    is the top slab of the grid and [hi - lo] is odd; in that last case
    the window [range(lo-2, hi+2, 2)] ends at slab [hi + 1], which the
    arrays do not have, and the window loop raises [IndexError]. *)
Theorem Prep4plot_returns_iff c traj run f0 lo hi :
  Get_info c traj = Some run →
  frames_of run !! 0%nat = Some f0 →
  first_nonzero (resid_array f0) lo → last_nonzero (resid_array f0) hi →
  is_Some (Prep4plot c run) ↔
  2 <= nz_of run ∧
  (Z.of_nat hi + 1 = nz_of run → Z.even (Z.of_nat hi - Z.of_nat lo) = true).
Proof.
  intros Hrun Hf0 Hfirst Hlast.
  assert (f0 ∈ frames_of run) as Hin by (by eapply list_elem_of_lookup_2).
  destruct (Get_info_frames _ _ _ _ Hrun Hin) as ((Hnz & _) & f & _ & Ef0).
  pose proof (frame_lengths c (Z.to_nat (nz_of run)) (Z.to_nat (nx_of run))
                (Z.to_nat (ny_of run)) f) as (_ & _ & _ & _ & Lr & _).
  cbn zeta in Lr. rewrite <- Ef0 in Lr.
  assert (Forall (λ x, 0 <= x) (resid_array f0)) as Hnn
    by (rewrite Ef0; apply resid_array_nonneg).
  destruct (argwhere_first_last _ _ _ Hnn Hfirst Hlast) as (Hlo & Hhi & Hord).
  rewrite Lr in Hord.
  destruct (Py.range (Z.of_nat lo - 2) (Z.of_nat hi + 2) 2) as [win|] eqn:Hwin;
    [| by rewrite range_up in Hwin by lia].
  rewrite (Prep4plot_window_cond c run _ f0 _ _ win (Get_info_depth _ _ _ Hrun)
             Hf0 Hlo Hhi Hwin).
  destruct (window_indexable _ lo hi win Hord Hwin) as (_ & ->).
  by rewrite Z2Nat.id by lia.
Qed.

Lemma sample_first_last :
  first_nonzero (resid_array sample_data) 2 ∧ last_nonzero (resid_array sample_data) 2.
Proof.
  assert (resid_array sample_data = [0; 0; 2; 0; 0; 0; 0; 0; 0; 0; 0]) as ->
    by (vm_compute; reflexivity).
  split; (split; [exists 2; split; [reflexivity | discriminate] |]).
  - intros j x Hj. do 2 (destruct j as [|j]; [by intros [= <-] |]). lia.
  - intros j x Hj. do 3 (destruct j as [|j]; [lia |]).
    do 8 (destruct j as [|j]; [by intros [= <-] |]). done.
Defined.

Lemma Prep4plot_returns_iff_witness :
  is_Some (Prep4plot sample_config sample_run) ↔
  2 <= nz_of sample_run ∧
  (Z.of_nat 2 + 1 = nz_of sample_run → Z.even (Z.of_nat 2 - Z.of_nat 2) = true).
Proof.
  apply (Prep4plot_returns_iff sample_config sample_traj sample_run sample_data 2 2).
  - vm_compute. reflexivity.
  - reflexivity.
  - apply sample_first_last.
  - apply sample_first_last.
Defined.

(** X14.  When [Prep4plot] returns, the window
    [range(start_mem, stop_mem, step_mem)] that it leaves in [self] has
    at least two slabs, and each of the five 2D maps holds exactly one
    entry per slab of that window, whatever the number of frames. *)
Theorem maps_hold_one_entry_per_window_slab c run plot :
  Prep4plot c run = Some plot →
  ∃ win,
    Py.range (start_mem (maps plot)) (stop_mem (maps plot)) (step_mem (maps plot))
      = Some win ∧
    (2 <= length win)%nat ∧ maps_length (maps plot) (length win).
Proof.
  intros Hplot. unfold Prep4plot in Hplot.
  destruct (frames_of run) as [|f0 rest] eqn:Efr; [done |].
  change ((f0 :: rest) !! 0%nat) with (Some f0) in Hplot.
  cbn [mbind option_bind] in Hplot.
  destruct (head _) as [lo|] eqn:Elo; cbn [mbind option_bind] in Hplot; [| done].
  destruct (last _) as [hi|] eqn:Ehi; cbn [mbind option_bind] in Hplot; [| done].
  destruct (foldM _ _ _) as [st|] eqn:Eloop; cbn [mbind option_bind] in Hplot; [| done].
  injection Hplot as <-. cbn [maps].
  destruct (argwhere_pos_head _ _ _ Elo) as (klo & -> & _ & Blo).
  destruct (argwhere_pos_last _ _ _ Ehi) as (khi & -> & (xhi & Hxhi & Phi) & _).
  assert (klo <= khi)%nat as Hord.
  { destruct (decide (klo <= khi)%nat) as [| Hgt]; [done |].
    pose proof (Blo khi xhi ltac:(lia) Hxhi). lia. }
  set (st0 := {| start_mem := _ |}) in Eloop.
  pose proof (foldM_fields _ _ _ _ (window_pass_fields c (nx_of run)) Eloop)
    as (-> & -> & ->).
  destruct (Py.range (start_mem st0) (stop_mem st0) (step_mem st0)) as [win|] eqn:Hwin;
    [| by rewrite range_up in Hwin by done].
  exists win. split; [done |]. split.
  { rewrite range_up in Hwin by done. injection Hwin as <-.
    rewrite range_from_length. simpl.
    assert (2 <= (0 + Z.of_nat khi + 2 - (0 + Z.of_nat klo - 2) + 2 - 1) / 2)
      by (Z.div_mod_to_equations; lia). lia. }
  repeat split.
  - eapply window_sums_length.
    by apply (all_frames_accumulate c (nx_of run) _ _ _ (channel_mem c (nx_of run))
                win f0 rest st0 st).
  - eapply window_sums_length.
    by apply (all_frames_accumulate c (nx_of run) _ _ _ (channel_mem_resid c (nx_of run))
                win f0 rest st0 st).
  - eapply window_sums_length.
    by apply (all_frames_accumulate c (nx_of run) _ _ _ (channel_prot c (nx_of run))
                win f0 rest st0 st).
  - eapply window_sums_length.
    by apply (all_frames_accumulate c (nx_of run) _ _ _ (channel_area_x c (nx_of run))
                win f0 rest st0 st).
  - eapply window_sums_length.
    by apply (all_frames_accumulate c (nx_of run) _ _ _ (channel_zx c (nx_of run))
                win f0 rest st0 st).
Qed.

Lemma maps_hold_one_entry_per_window_slab_witness :
  ∃ win,
    Py.range (start_mem (maps sample_plot)) (stop_mem (maps sample_plot))
      (step_mem (maps sample_plot)) = Some win ∧
    (2 <= length win)%nat ∧ maps_length (maps sample_plot) (length win).
Proof.
  apply (maps_hold_one_entry_per_window_slab sample_config sample_run sample_plot).
  vm_compute. reflexivity.
Defined.

(** ** The density profiles *)

Lemma nonneg3_zeros3 nz nx ny : nonneg3 (Np.zeros3 nz nx ny).
Proof. unfold nonneg3, Np.zeros3. do 3 apply Forall_replicate. done. Qed.

Lemma nonneg3_alter3 f k a :
  (∀ v, 0 <= v → 0 <= f v) → nonneg3 a → nonneg3 (Np.alter3 f k a).
Proof.
  intros Hf Ha. destruct k as [[kz kx] ky]. unfold nonneg3, Np.alter3.
  apply Forall_alter; [done |]. intros s _ Hs.
  apply Forall_alter; [done |]. intros r _ Hr.
  apply Forall_alter; [done |]. intros v _. apply Hf.
Qed.

Lemma nonneg3_upd3_succ a iz ix iy a' :
  Np.upd3 Z.succ a iz ix iy = Some a' → nonneg3 a → nonneg3 a'.
Proof.
  unfold Np.upd3. destruct (Np.locate a iz ix iy) as [k|]; simpl; [| done].
  intros [= <-]. apply nonneg3_alter3. lia.
Qed.

Lemma sum2_nonneg (s : plane) : Forall (Forall (λ v, 0 <= v)) s → 0 <= Np.sum2 s.
Proof.
  induction 1 as [|r s Hr _ IH]; simpl; [done |].
  assert (0 <= Np.sum1 r); [| lia].
  clear -Hr. induction Hr as [|v r Hv _ IH]; simpl; lia.
Qed.

Lemma atoms_per_slab_nonneg a : nonneg3 a → Forall (λ v, 0 <= v) (atoms_per_slab a).
Proof.
  intros Ha. unfold atoms_per_slab. apply Forall_fmap.
  eapply Forall_impl; [apply Ha |]. intros s. apply sum2_nonneg.
Qed.

Lemma membrane_pass_nonneg d h nz nx ny same atoms_m atoms_m_a :
  nonneg3 (mem_slab0 (membrane_pass d h nz nx ny same atoms_m atoms_m_a)).
Proof.
  unfold membrane_pass. destruct same.
  - apply (foldl_invariant (λ st, nonneg3 (mem_slab0 st))); [apply nonneg3_zeros3 |].
    intros st t Hst. unfold step_same, try_same.
    destruct (cell_index d h (position t)) as [[iz ix] iy].
    destruct (Np.upd3 _ _ _ _ _) as [m|] eqn:E; simpl; [| done].
    apply nonneg3_upd3_succ in E; [| done].
    destruct (register _ _ _ _ _); done.
  - apply (foldl_invariant (λ st, nonneg3 (mem_slab0 st))).
    + apply (foldl_invariant (λ st, nonneg3 (mem_slab0 st))); [apply nonneg3_zeros3 |].
      intros st t Hst. unfold step_all.
      destruct (cell_index d h (position t)) as [[iz ix] iy].
      destruct (Np.upd3 _ _ _ _ _) as [m|] eqn:E; simpl; [| done].
      by apply nonneg3_upd3_succ in E.
    + intros st t Hst. by rewrite (proj1 (step_head_keeps d h st t)).
Qed.

Lemma protein_pass_nonneg d h nz nx ny mem atoms_p :
  nonneg3 (protein_pass d h nz nx ny mem atoms_p).1.
Proof.
  unfold protein_pass.
  apply (foldl_invariant (λ st : volume * list warning, nonneg3 st.1));
    [apply nonneg3_zeros3 |].
  intros st t Hst. unfold step_prot.
  destruct (cell_index d h (position t)) as [[iz ix] iy].
  destruct (Np.get3 _ _ _ _); [| done].
  case_decide; [| done].
  destruct (Np.upd3 _ _ _ _ _) as [p|] eqn:E; simpl; [| done].
  by apply nonneg3_upd3_succ in E.
Qed.

Lemma frame_nonneg c nz nx ny f :
  nonneg3 (mem_slab (frame_pass c nz nx ny f)) ∧
  nonneg3 (prot_slab (frame_pass c nz nx ny f)).
Proof.
  unfold frame_pass, after_membrane. simpl.
  split; [apply membrane_pass_nonneg | apply protein_pass_nonneg].
Qed.

Lemma dens_p_entry_nonneg a d : 0 <= d → nonneg_number (dens_p_entry a d).
Proof.
  intros Hd. unfold dens_p_entry, nonneg_number. case_decide as Ha.
  - rewrite true_divide_pos by (by apply inject_Z_pos). eexists. split; [done |].
    apply Qdiv_nonneg; [| by apply inject_Z_pos].
    change 0%Q with (inject_Z 0). by rewrite <- Zle_Qle.
  - eexists. split; [done |]. apply Qle_refl.
Qed.

Lemma dens_m_entry_nonneg a d r : 0 <= d → nonneg_number (dens_m_entry a d r).
Proof.
  intros Hd. unfold dens_m_entry, nonneg_number.
  destruct (Qlt_le_dec 0 a) as [Ha | Ha]; [| eexists; split; [done | apply Qle_refl]].
  case_decide as Hr; [| eexists; split; [done | apply Qle_refl]].
  rewrite true_divide_pos by done. eexists. split; [done |].
  apply Qdiv_nonneg; [| done].
  change 0%Q with (inject_Z 0). by rewrite <- Zle_Qle.
Qed.

Lemma dens_r_entry_nonneg a d r : nonneg_number (dens_r_entry a d r).
Proof.
  unfold dens_r_entry, nonneg_number.
  destruct (Qlt_le_dec 0 a) as [Ha | Ha]; [| eexists; split; [done | apply Qle_refl]].
  case_decide as Hr; [| eexists; split; [done | apply Qle_refl]].
  destruct (exceeds _ _); [| eexists; split; [done | apply Qle_refl]].
  rewrite true_divide_pos by (by apply inject_Z_pos). eexists. split; [done |].
  apply Qdiv_nonneg; [by apply Qlt_le_weak | by apply inject_Z_pos].
Qed.

Lemma Forall_zip3_with {A B C D} (f : A → B → C → D) (P : D → Prop) la lb lc :
  (∀ i a b c, la !! i = Some a → lb !! i = Some b → lc !! i = Some c → P (f a b c)) →
  Forall P (zip3_with f la lb lc).
Proof.
  intros Hf. apply Forall_lookup_2. intros i x Hx. unfold zip3_with in Hx.
  apply lookup_zip_with_Some in Hx as ([a b] & c0 & -> & Hab & Hc).
  apply lookup_zip_with_Some in Hab as (a' & b' & [= -> ->] & Ha & Hb).
  simpl. by eapply Hf.
Qed.

Lemma length_zip3_with {A B C D} (f : A → B → C → D) la lb lc n :
  length la = n → length lb = n → length lc = n → length (zip3_with f la lb lc) = n.
Proof.
  intros Ha Hb Hc. unfold zip3_with. rewrite length_zip_with, length_zip. lia.
Qed.

Lemma frame_profiles c c' nz nx ny nx' ny' f :
  let fd := frame_pass c nz nx ny f in
  (length (dens_p_frame fd) = nz ∧ Forall nonneg_number (dens_p_frame fd)) ∧
  (length (dens_m_frame c' nx' ny' fd) = nz ∧
   Forall nonneg_number (dens_m_frame c' nx' ny' fd)) ∧
  (length (m_r_per_area_frame c' nx' ny' fd) = nz ∧
   Forall nonneg_number (m_r_per_area_frame c' nx' ny' fd)).
Proof.
  intros fd.
  pose proof (frame_lengths c nz nx ny f) as (Lp & _ & _ & _ & Lr & _).
  destruct (frame_shapes c nz nx ny f) as ([Lm _] & _ & [Lpr _] & _).
  destruct (frame_nonneg c nz nx ny f) as [Nm Np].
  fold fd in Lp, Lr, Lm, Lpr, Nm, Np.
  apply atoms_per_slab_nonneg in Nm, Np.
  assert (length (atoms_per_slab (mem_slab fd)) = nz) as Lam
    by (unfold atoms_per_slab; by rewrite length_fmap).
  assert (length (atoms_per_slab (prot_slab fd)) = nz) as Lap
    by (unfold atoms_per_slab; by rewrite length_fmap).
  assert (length (area_m c' nx' ny' fd) = nz) as La
    by (unfold area_m; by rewrite length_fmap).
  split; [| split].
  - split; [unfold dens_p_frame; rewrite length_zip_with; lia |].
    apply Forall_lookup_2. intros i x Hx. unfold dens_p_frame in Hx.
    apply lookup_zip_with_Some in Hx as (a & d & -> & _ & Hd).
    apply dens_p_entry_nonneg. by apply (Forall_lookup_1 _ _ _ _ Np Hd).
  - split; [by apply length_zip3_with |].
    apply Forall_zip3_with. intros i a d r _ Hd _.
    apply dens_m_entry_nonneg. by apply (Forall_lookup_1 _ _ _ _ Nm Hd).
  - split; [by apply length_zip3_with |].
    apply Forall_zip3_with. intros i a d r _ _ _. apply dens_r_entry_nonneg.
Qed.

(** X15.  For a run of [Get_info] on which [Prep4plot] returns, each of
    [dens_p], [dens_m] and [m_r_per_area] has one profile per processed
    frame, each profile has [nz] entries, and every entry is a number
    (neither [nan] nor [inf]) that is not negative. *)
Theorem profiles_are_nonnegative_numbers c traj run plot :
  Get_info c traj = Some run → Prep4plot c run = Some plot →
  let n := Z.to_nat (nz_of run) in
  (length (dens_p plot) = length (frames_of run) ∧ profiles_ok n (dens_p plot)) ∧
  (length (dens_m plot) = length (frames_of run) ∧ profiles_ok n (dens_m plot)) ∧
  (length (m_r_per_area plot) = length (frames_of run) ∧
   profiles_ok n (m_r_per_area plot)).
Proof.
  intros Hrun Hplot n.
  destruct (Prep4plot_profiles _ _ _ Hplot) as (-> & -> & ->).
  rewrite !length_fmap. unfold profiles_ok.
  assert (∀ fd, fd ∈ frames_of run →
    ∃ f, fd = frame_pass c n (Z.to_nat (nx_of run)) (Z.to_nat (ny_of run)) f) as Hfd.
  { intros fd Hin. destruct (Get_info_frames _ _ _ _ Hrun Hin) as (_ & f & _ & ->).
    by exists f. }
  repeat split; apply Forall_fmap, Forall_forall; intros fd Hin;
    destruct (Hfd fd Hin) as [f ->]; simpl;
    apply (frame_profiles c c n (Z.to_nat (nx_of run)) (Z.to_nat (ny_of run))
             (nx_of run) (ny_of run) f).
Qed.

Lemma profiles_are_nonnegative_numbers_witness :
  let n := Z.to_nat (nz_of dense_run) in
  (length (dens_p dense_plot) = length (frames_of dense_run) ∧
   profiles_ok n (dens_p dense_plot)) ∧
  (length (dens_m dense_plot) = length (frames_of dense_run) ∧
   profiles_ok n (dens_m dense_plot)) ∧
  (length (m_r_per_area dense_plot) = length (frames_of dense_run) ∧
   profiles_ok n (m_r_per_area dense_plot)).
Proof.
  apply (profiles_are_nonnegative_numbers sample_config [dense_frame] dense_run dense_plot).
  - vm_compute. reflexivity.
  - vm_compute. reflexivity.
Defined.

(** ** The areas of a slab *)

Lemma count_nonzero1_cons x (r : vector) :
  Np.count_nonzero1 (x :: r) = (if decide (x = 0) then 0 else 1) + Np.count_nonzero1 r.
Proof.
  unfold Np.count_nonzero1. case_decide as Hx.
  - rewrite filter_cons_False by (intros H; by apply H). lia.
  - rewrite filter_cons_True by done. simpl. lia.
Qed.

(** Three rows of which at most one is nonzero at each position hold, in
    all, no more nonzero entries than a row has positions. *)
Lemma rows_disjoint_count (rm rp rw : vector) n :
  length rm = n → length rp = n → length rw = n →
  (∀ k m p w, rm !! k = Some m → rp !! k = Some p → rw !! k = Some w →
     (m ≠ 0 → p = 0 ∧ w = 0) ∧ (p ≠ 0 → w = 0)) →
  Np.count_nonzero1 rm + Np.count_nonzero1 rp + Np.count_nonzero1 rw <= Z.of_nat n.
Proof.
  revert rp rw n. induction rm as [|m rm IH]; intros [|p rp] [|w rw] n; simpl;
    intros Lm Lp Lw Hex; try lia.
  - unfold Np.count_nonzero1. simpl. lia.
  - destruct n as [|n]; [done |].
    rewrite !count_nonzero1_cons.
    pose proof (IH rp rw n ltac:(lia) ltac:(lia) ltac:(lia)
                  (λ k, Hex (S k))) as Hrest.
    destruct (Hex 0%nat m p w eq_refl eq_refl eq_refl) as [H1 H2].
    repeat case_decide; lia.
Qed.

Lemma planes_disjoint_count (sm sp sw : plane) nx ny :
  length sm = nx → length sp = nx → length sw = nx →
  (∀ kx rm rp rw, sm !! kx = Some rm → sp !! kx = Some rp → sw !! kx = Some rw →
     length rm = ny ∧ length rp = ny ∧ length rw = ny ∧
     ∀ k m p w, rm !! k = Some m → rp !! k = Some p → rw !! k = Some w →
       (m ≠ 0 → p = 0 ∧ w = 0) ∧ (p ≠ 0 → w = 0)) →
  Np.count_nonzero sm + Np.count_nonzero sp + Np.count_nonzero sw
    <= Z.of_nat nx * Z.of_nat ny.
Proof.
  revert sp sw nx. induction sm as [|rm sm IH]; intros [|rp sp] [|rw sw] nx; simpl;
    intros Lm Lp Lw Hex; try lia.
  destruct nx as [|nx]; [done |].
  pose proof (IH sp sw nx ltac:(lia) ltac:(lia) ltac:(lia) (λ k, Hex (S k))) as Hrest.
  destruct (Hex 0%nat rm rp rw eq_refl eq_refl eq_refl) as (L1 & L2 & L3 & Hrow).
  pose proof (rows_disjoint_count rm rp rw ny L1 L2 L3 Hrow). lia.
Qed.

Lemma count_nonzero_nonneg (s : plane) : 0 <= Np.count_nonzero s.
Proof.
  induction s as [|r s IH]; simpl; [lia |]. pose proof (count_nonzero1_bounds r). lia.
Qed.

(** The area recorded for a slab is not negative. *)
Lemma slab_area_nonneg d (s : plane) : 0 <= slab_area d s.
Proof.
  unfold slab_area, Np.store_int.
  pose proof (count_nonzero_nonneg s) as Hn. set (n := Np.count_nonzero s) in *.
  assert (0 <= inject_Z n * d * d)%Q as Hq.
  { rewrite <- Qmult_assoc. apply Qmult_le_0_compat; [| apply Qsquare_nonneg].
    change 0%Q with (inject_Z 0). by rewrite <- Zle_Qle. }
  rewrite (int_floor_nonneg _ Hq). change 0 with (Qfloor 0). by apply Qfloor_resp_le.
Qed.

Lemma lookup_shaped nz nx ny a z :
  Np.shaped nz nx ny a → (z < nz)%nat →
  ∃ s, a !! z = Some s ∧ length s = nx ∧ Forall (λ r : vector, length r = ny) s.
Proof.
  intros [La Ha] Hz. destruct (lookup_lt_is_Some_2 a z) as [s Hs]; [lia |].
  exists s. split; [done |]. apply (Forall_lookup_1 _ _ _ _ Ha Hs).
Qed.

Lemma frame_slab_cells c nz nx ny f z :
  (z < nz)%nat →
  let fd := frame_pass c nz nx ny f in
  ∃ sm sp sw,
    mem_slab fd !! z = Some sm ∧ prot_slab fd !! z = Some sp ∧
    wat_slab fd !! z = Some sw ∧
    Np.count_nonzero sm + Np.count_nonzero sp + Np.count_nonzero sw
      <= Z.of_nat nx * Z.of_nat ny.
Proof.
  intros Hz fd. destruct (frame_shapes c nz nx ny f) as (Sm & _ & Sp & Sw).
  destruct (frame_nonneg c nz nx ny f) as [Nm Np].
  fold fd in Sm, Sp, Sw, Nm, Np.
  destruct (lookup_shaped _ _ _ _ z Sm Hz) as (sm & Hsm & Lm & Fm).
  destruct (lookup_shaped _ _ _ _ z Sp Hz) as (sp & Hsp & Lp & Fp).
  destruct (lookup_shaped _ _ _ _ z Sw Hz) as (sw & Hsw & Lw & Fw).
  exists sm, sp, sw. repeat split; try done.
  apply planes_disjoint_count; try done.
  intros kx rm rp rw Hrm Hrp Hrw.
  pose proof (Forall_lookup_1 _ _ _ _ Fm Hrm) as L1.
  pose proof (Forall_lookup_1 _ _ _ _ Fp Hrp) as L2.
  pose proof (Forall_lookup_1 _ _ _ _ Fw Hrw) as L3. simpl in L1, L2, L3.
  split; [done |]. split; [done |]. split; [done |].
  intros k m p w Hm Hp Hw.
  assert (kx < nx)%nat as Hkx by (apply lookup_lt_Some in Hrm; lia).
  assert (k < ny)%nat as Hk by (apply lookup_lt_Some in Hm; lia).
  destruct (frame_exclusion c nz nx ny f z kx k Hz Hkx Hk)
    as (m' & p' & w' & Cm & Cp & Cw & E1 & E2 & _).
  fold fd in Cm, Cp, Cw. unfold Np.cell in Cm, Cp, Cw.
  rewrite Hsm in Cm. rewrite Hsp in Cp. rewrite Hsw in Cw. simpl in Cm, Cp, Cw.
  rewrite Hrm in Cm. rewrite Hrp in Cp. rewrite Hrw in Cw. simpl in Cm, Cp, Cw.
  simplify_eq.
  pose proof (Forall_lookup_1 _ _ _ _
                (Forall_lookup_1 _ _ _ _ (Forall_lookup_1 _ _ _ _ Nm Hsm) Hrm) Hm) as Pm.
  pose proof (Forall_lookup_1 _ _ _ _
                (Forall_lookup_1 _ _ _ _ (Forall_lookup_1 _ _ _ _ Np Hsp) Hrp) Hp) as Pp.
  simpl in Pm, Pp.
  split; [intros Hm0; split; [apply E1 | apply E2; left]; lia |].
  intros Hp0. apply E2. right. lia.
Qed.

Lemma frame_slab_areas c nz nx ny f z :
  (z < nz)%nat →
  let fd := frame_pass c nz nx ny f in
  ∃ sp sm sw,
    prot_slab fd !! z = Some sp ∧ mem_slab fd !! z = Some sm ∧
    wat_slab fd !! z = Some sw ∧
    Np.count_nonzero sp + Np.count_nonzero sm + Np.count_nonzero sw
      <= Z.of_nat nx * Z.of_nat ny ∧
    prot_area fd !! z = Some (slab_area (dz c) sp) ∧
    mem_area fd !! z = Some (slab_area (dz c) sm) ∧
    wat_area fd !! z = Some (slab_area (dz c) sw) ∧
    tot_area fd !! z
      = Some (slab_area (dz c) sp + slab_area (dz c) sm + slab_area (dz c) sw).
Proof.
  intros Hz fd.
  destruct (frame_slab_cells c nz nx ny f z Hz) as (sm & sp & sw & Hsm & Hsp & Hsw & Hcount).
  fold fd in Hsm, Hsp, Hsw. exists sp, sm, sw.
  split; [done |]. split; [done |]. split; [done |]. split; [lia |].
  unfold fd, frame_pass, after_membrane in *.
  cbn [prot_area mem_area wat_area tot_area mem_slab prot_slab wat_slab] in *.
  rewrite !lookup_zip_with, !list_lookup_fmap, Hsm, Hsp, Hsw. done.
Qed.

(** X16.  In every slab of every frame that [Get_info] processes, no
    cell is counted for two species: the numbers of cells occupied by
    protein, by membrane and by water add up to at most [nx*ny].  The
    three areas are each what [count*dz*dz] stores for the species, none
    is negative, and the total area is their sum. *)
Theorem slab_cells_fit_the_grid c traj run fd z :
  Get_info c traj = Some run → fd ∈ frames_of run → Z.of_nat z < nz_of run →
  ∃ sp sm sw,
    prot_slab fd !! z = Some sp ∧ mem_slab fd !! z = Some sm ∧
    wat_slab fd !! z = Some sw ∧
    Np.count_nonzero sp + Np.count_nonzero sm + Np.count_nonzero sw
      <= nx_of run * ny_of run ∧
    prot_area fd !! z = Some (slab_area (dz c) sp) ∧
    mem_area fd !! z = Some (slab_area (dz c) sm) ∧
    wat_area fd !! z = Some (slab_area (dz c) sw) ∧
    tot_area fd !! z
      = Some (slab_area (dz c) sp + slab_area (dz c) sm + slab_area (dz c) sw) ∧
    0 <= slab_area (dz c) sp ∧ 0 <= slab_area (dz c) sm ∧ 0 <= slab_area (dz c) sw.
Proof.
  intros Hrun Hfd Hz.
  destruct (Get_info_frames _ _ _ _ Hrun Hfd) as ((Hnz & Hnx & Hny) & f & _ & ->).
  destruct (frame_slab_areas c (Z.to_nat (nz_of run)) (Z.to_nat (nx_of run))
              (Z.to_nat (ny_of run)) f z ltac:(lia))
    as (sp & sm & sw & Hsp & Hsm & Hsw & Hcount & Ap & Am & Aw & At).
  rewrite !Z2Nat.id in Hcount by done.
  exists sp, sm, sw. do 8 (split; [done |]).
  repeat split; apply slab_area_nonneg.
Qed.

Lemma slab_cells_fit_the_grid_witness :
  ∃ sp sm sw,
    prot_slab sample_data !! 2%nat = Some sp ∧ mem_slab sample_data !! 2%nat = Some sm ∧
    wat_slab sample_data !! 2%nat = Some sw ∧
    Np.count_nonzero sp + Np.count_nonzero sm + Np.count_nonzero sw
      <= nx_of sample_run * ny_of sample_run ∧
    prot_area sample_data !! 2%nat = Some (slab_area (dz sample_config) sp) ∧
    mem_area sample_data !! 2%nat = Some (slab_area (dz sample_config) sm) ∧
    wat_area sample_data !! 2%nat = Some (slab_area (dz sample_config) sw) ∧
    tot_area sample_data !! 2%nat
      = Some (slab_area (dz sample_config) sp + slab_area (dz sample_config) sm
              + slab_area (dz sample_config) sw) ∧
    0 <= slab_area (dz sample_config) sp ∧ 0 <= slab_area (dz sample_config) sm ∧
    0 <= slab_area (dz sample_config) sw.
Proof.
  apply (slab_cells_fit_the_grid sample_config sample_traj sample_run sample_data 2).
  - vm_compute. reflexivity.
  - simpl. left.
  - reflexivity.
Defined.

(** ** The curves of [Check] *)

Lemma sum1_fmap_add {A} (f g : A → Z) (l : list A) :
  Np.sum1 ((λ y, f y + g y) <$> l) = Np.sum1 (f <$> l) + Np.sum1 (g <$> l).
Proof.
  induction l as [|x l IH]; [done |]. rewrite !fmap_cons, !sum1_cons, IH. lia.
Qed.

Lemma fmap_seq_ext {B} (f g : nat → B) i n :
  (∀ y, (i <= y < i + n)%nat → f y = g y) → f <$> seq i n = g <$> seq i n.
Proof.
  revert i. induction n as [|n IH]; intros i Hfg; [done |].
  cbn [seq]. rewrite !fmap_cons. f_equal; [apply Hfg; lia |].
  apply IH. intros y Hy. apply Hfg. lia.
Qed.

Lemma sum1_indicator (r : vector) i0 :
  Np.sum1 ((λ y, if decide (default 0 (r !! (y - i0)%nat) = 0) then 0 else 1)
             <$> seq i0 (length r))
  = Np.count_nonzero1 r.
Proof.
  revert i0. induction r as [|x r IH]; intros i0; [done |].
  cbn [length seq]. rewrite fmap_cons, sum1_cons, count_nonzero1_cons.
  rewrite Nat.sub_diag. simpl (default 0 ((x :: r) !! 0%nat)).
  f_equal. rewrite <- (IH (S i0)). f_equal.
  apply fmap_seq_ext. intros y Hy.
  replace (y - i0)%nat with (S (y - S i0)) by lia. done.
Qed.

(** Counting the occupied cells of a slab column by column gives the
    number of its occupied cells. *)
Lemma count_columns_total ny (s : plane) :
  Forall (λ r : vector, length r = ny) s →
  Np.sum1 (count_nonzero_columns ny s) = Np.count_nonzero s.
Proof.
  unfold count_nonzero_columns. induction 1 as [|r s Hr _ IH].
  - simpl. induction (seq 0 ny) as [|y l IHl]; [done |]. by rewrite fmap_cons, sum1_cons, IHl.
  - cbn [Np.count_nonzero foldr]. fold (Np.count_nonzero s). rewrite <- IH.
    pose proof (sum1_indicator r 0) as Hind. rewrite Hr in Hind. rewrite <- Hind.
    rewrite <- sum1_fmap_add. f_equal. apply fmap_seq_ext. intros y _.
    rewrite Nat.sub_0_r. unfold Py.len. case_decide as Hy.
    + rewrite filter_cons_False by (intros H; by apply H). lia.
    + rewrite filter_cons_True by done. simpl. lia.
Qed.

Lemma count_nonzero1_le_sum (r : vector) :
  Forall (λ v, 0 <= v) r → Np.count_nonzero1 r <= Np.sum1 r.
Proof.
  induction 1 as [|v r Hv _ IH]; [done |].
  rewrite count_nonzero1_cons, sum1_cons. case_decide; lia.
Qed.

Lemma count_nonzero_le_sum (s : plane) :
  Forall (Forall (λ v, 0 <= v)) s → Np.count_nonzero s <= Np.sum2 s.
Proof.
  induction 1 as [|r s Hr _ IH]; simpl; [done |].
  pose proof (count_nonzero1_le_sum r Hr). fold (Np.count_nonzero s). fold (Np.sum2 s). lia.
Qed.

(** X17.  The protein curves of [Check] for a run of [Get_info].  At
    every slab the curve labelled "protein atoms" holds the number of
    cells of the slab that protein occupies: the "prot. area" curve is
    that number times [dz*dz], cut to a whole number, and the number is
    at most the number of protein atoms counted in the slab. *)
Theorem Check_protein_curves c traj run curves f0 z a n :
  Get_info c traj = Some run → Check run = Some curves →
  frames_of run !! 0%nat = Some f0 →
  prot_area_curve curves !! z = Some a → protein_atoms curves !! z = Some n →
  a = Np.store_int (inject_Z n * dz c * dz c) ∧
  ∃ atoms, atoms_per_slab (prot_slab f0) !! z = Some atoms ∧ 0 <= n <= atoms.
Proof.
  intros Hrun Hcheck Hf0. unfold Check in Hcheck. rewrite Hf0 in Hcheck.
  injection Hcheck as <-. cbn [prot_area_curve protein_atoms].
  assert (f0 ∈ frames_of run) as Hin by (by eapply list_elem_of_lookup_2).
  destruct (Get_info_frames _ _ _ _ Hrun Hin) as (_ & f & _ & ->).
  set (nz := Z.to_nat (nz_of run)). set (nx := Z.to_nat (nx_of run)).
  set (ny := Z.to_nat (ny_of run)).
  destruct (frame_shapes c nz nx ny f) as (_ & _ & [_ Sp] & _).
  destruct (frame_nonneg c nz nx ny f) as [_ Np].
  unfold atoms_per_slab. rewrite !list_lookup_fmap.
  destruct (prot_slab (frame_pass c nz nx ny f) !! z) as [s|] eqn:Hs; simpl; [| done].
  intros Ha [= <-].
  destruct (Forall_lookup_1 _ _ _ _ Sp Hs) as [_ Hrows].
  rewrite (count_columns_total ny s Hrows).
  split.
  - unfold frame_pass, after_membrane in Ha, Hs. cbn [prot_area prot_slab] in Ha, Hs.
    rewrite list_lookup_fmap, Hs in Ha. simpl in Ha. injection Ha as <-. done.
  - eexists. split; [done |]. split; [apply count_nonzero_nonneg |].
    apply count_nonzero_le_sum. apply (Forall_lookup_1 _ _ _ _ Np Hs).
Qed.

Lemma Check_protein_curves_witness :
  25 = Np.store_int (inject_Z 1 * dz sample_config * dz sample_config) ∧
  ∃ atoms, atoms_per_slab (prot_slab sample_data) !! 4%nat = Some atoms ∧ 0 <= 1 <= atoms.
Proof.
  apply (Check_protein_curves sample_config sample_traj sample_run sample_curves
           sample_data 4 25 1); vm_compute; reflexivity.
Defined.

Lemma register_zx_le n iz ix rl rlzx :
  zx_le rl rlzx →
  zx_le (state_of (register n iz ix rl rlzx)).1 (state_of (register n iz ix rl rlzx)).2.
Proof.
  intros [Hlen Hle]. unfold register.
  destruct (Py.index (length rl) iz) as [kz|] eqn:Ez; simpl; [| done].
  destruct (rl !! kz) as [ids|] eqn:Hids; simpl; [| done].
  case_decide as Hin; simpl; [done |].
  assert (zx_le (alter (λ l, l ++ [n]) kz rl) rlzx) as Hgrown.
  { split; [by rewrite length_alter |]. intros kz' ids' row'.
    destruct (decide (kz = kz')) as [<- | Hne].
    - rewrite list_lookup_alter_eq, Hids. simpl. intros [= <-] Hrow.
      pose proof (Hle _ _ _ Hids Hrow). unfold Py.len in *. rewrite length_app. simpl. lia.
    - rewrite list_lookup_alter_ne by done. apply Hle. }
  rewrite <- Hlen, Ez.
  destruct (rlzx !! kz) as [row|] eqn:Hrow; simpl; [| done].
  destruct (Py.index (length row) ix) as [kx|] eqn:Ex; simpl; [| done].
  split; [by rewrite !length_alter |]. intros kz' ids' row'.
  destruct (decide (kz = kz')) as [<- | Hne].
  - rewrite !list_lookup_alter_eq, Hids, Hrow. simpl. intros [= <-] [= <-].
    rewrite sum1_len_alter by (by eapply index_lt).
    pose proof (Hle _ _ _ Hids Hrow). unfold Py.len in *. rewrite length_app. simpl. lia.
  - rewrite !list_lookup_alter_ne by done. apply Hle.
Qed.

Section Lipid_curves.

Variables (d h : Q) (nz nx ny : nat).

Lemma zx_le_init : zx_le (resid_list (mem_init nz nx ny)) (resid_list_zx (mem_init nz nx ny)).
Proof.
  destruct (zx_inv_init nz nx ny) as [_ Heq]. split.
  - simpl. by rewrite !length_replicate.
  - intros kz ids row Hids Hrow. by rewrite (Heq _ _ _ Hids Hrow).
Qed.

Lemma zx_le_step_all st t :
  resid_list (step_all d h nz nx ny st t) = resid_list st ∧
  resid_list_zx (step_all d h nz nx ny st t) = resid_list_zx st.
Proof.
  unfold step_all. destruct (cell_index d h (position t)) as [[iz ix] iy].
  destruct (Np.upd3 _ _ _ _ _); done.
Qed.

Lemma zx_le_step_head st t :
  zx_le (resid_list st) (resid_list_zx st) →
  zx_le (resid_list (step_head d h st t)) (resid_list_zx (step_head d h st t)).
Proof.
  intros Hst. unfold step_head. destruct (cell_index d h (position t)) as [[iz ix] iy].
  destruct (Np.upd3 _ _ _ _ _); simpl; by apply register_zx_le.
Qed.

Lemma zx_le_step_same st t :
  zx_le (resid_list st) (resid_list_zx st) →
  zx_le (resid_list (step_same d h nz nx ny st t))
        (resid_list_zx (step_same d h nz nx ny st t)).
Proof.
  intros Hst. unfold step_same, try_same.
  destruct (cell_index d h (position t)) as [[iz ix] iy].
  destruct (Np.upd3 _ _ _ _ _); simpl; [| done].
  pose proof (register_zx_le (resid t) iz ix _ _ Hst) as Hreg.
  destruct (register _ _ _ _ _); done.
Qed.

Lemma zx_le_pass same atoms_m atoms_m_a :
  let st := membrane_pass d h nz nx ny same atoms_m atoms_m_a in
  zx_le (resid_list st) (resid_list_zx st).
Proof.
  unfold membrane_pass. destruct same; simpl.
  - apply (foldl_invariant (λ st, zx_le (resid_list st) (resid_list_zx st)));
      [apply zx_le_init | apply zx_le_step_same].
  - apply (foldl_invariant (λ st, zx_le (resid_list st) (resid_list_zx st)));
      [| apply zx_le_step_head].
    apply (foldl_invariant (λ st, zx_le (resid_list st) (resid_list_zx st)));
      [apply zx_le_init |].
    intros st t Hst. by destruct (zx_le_step_all st t) as [-> ->].
Qed.

Lemma zx_inv_step_all st t :
  zx_inv nz nx ny st → zx_inv nz nx ny (step_all d h nz nx ny st t).
Proof.
  intros [Hwf Hsum]. split; [by apply mem_wf_step_all |].
  by destruct (zx_le_step_all st t) as [-> ->].
Qed.

Lemma zx_inv_step_head st t :
  x_on_grid d h nx t → zx_inv nz nx ny st → zx_inv nz nx ny (step_head d h st t).
Proof.
  intros Hx [Hwf Hsum]. split; [by apply mem_wf_step_head |].
  unfold step_head, x_on_grid in *.
  destruct (cell_index d h (position t)) as [[iz ix] iy]. simpl in Hx.
  destruct Hx as [kx Hkx].
  set (st1 := match Np.upd3 _ _ _ _ _ with Some m => _ | None => _ end).
  assert (resid_list st1 = resid_list st ∧ resid_list_zx st1 = resid_list_zx st)
    as [-> ->] by (unfold st1; destruct (Np.upd3 _ _ _ _ _); done).
  destruct Hwf as (_ & _ & L1 & L2 & Hrows). simpl.
  destruct (Py.index nz iz) as [kz|] eqn:Ez.
  2:{ unfold register. rewrite L1, Ez. done. }
  destruct (lookup_lt_is_Some_2 (resid_list st) kz) as [ids Hids].
  { apply index_lt in Ez. lia. }
  rewrite (register_valid nz nx _ _ _ _ _ _ _ _ L1 L2 Hrows Ez Hkx Hids).
  case_decide; simpl; [done |].
  intros kz' ids' row'.
  destruct (decide (kz = kz')) as [<- | Hne].
  - rewrite !list_lookup_alter_eq, Hids. simpl. intros [= <-].
    destruct (resid_list_zx st !! kz) as [row|] eqn:Hrow; simpl; [| done].
    intros [= <-].
    pose proof (Forall_lookup_1 _ _ _ _ Hrows Hrow) as Hlen. simpl in Hlen.
    rewrite sum1_len_alter by (apply index_lt in Hkx; lia).
    rewrite (Hsum _ _ _ Hids Hrow). unfold Py.len. rewrite length_app. simpl. lia.
  - rewrite !list_lookup_alter_ne by done. apply Hsum.
Qed.

Lemma zx_inv_pass same atoms_m atoms_m_a :
  same = true ∨ Forall (x_on_grid d h nx) atoms_m →
  zx_inv nz nx ny (membrane_pass d h nz nx ny same atoms_m atoms_m_a).
Proof.
  intros Hcase. unfold membrane_pass. destruct same.
  - apply foldl_invariant; [apply zx_inv_init | intros; by apply zx_inv_step].
  - destruct Hcase as [? | Hx]; [done |].
    assert (zx_inv nz nx ny (foldl (step_all d h nz nx ny) (mem_init nz nx ny) atoms_m_a))
      as H0 by (apply foldl_invariant; [apply zx_inv_init | apply zx_inv_step_all]).
    revert H0. generalize (foldl (step_all d h nz nx ny) (mem_init nz nx ny) atoms_m_a).
    induction Hx as [|t l Ht _ IH]; intros st Hst; simpl; [done |].
    apply IH. by apply zx_inv_step_head.
Qed.

End Lipid_curves.

Lemma frame_lipid_counts c nz nx ny f z a row :
  resid_array (frame_pass c nz nx ny f) !! z = Some a →
  resid_array_zx (frame_pass c nz nx ny f) !! z = Some row →
  Np.sum1 row <= a ∧
  (same_selection c = true ∨ Forall (x_on_grid (dz c) (dh c) nx) (u_mem_sel_m f) →
   Np.sum1 row = a).
Proof.
  unfold frame_pass, after_membrane. simpl. set (st := membrane_pass _ _ _ _ _ _ _ _).
  rewrite !list_lookup_fmap.
  destruct (resid_list st !! z) as [ids|] eqn:Hids; simpl; [| done].
  destruct (resid_list_zx st !! z) as [row0|] eqn:Hrow; simpl; [| done].
  intros [= <-] [= <-]. split.
  - destruct (zx_le_pass (dz c) (dh c) nz nx ny (same_selection c)
                (u_mem_sel_m f) (u_mem_sel_m_a f)) as [_ Hle].
    by eapply Hle.
  - intros Hcase.
    destruct (zx_inv_pass (dz c) (dh c) nz nx ny (same_selection c)
                (u_mem_sel_m f) (u_mem_sel_m_a f) Hcase) as [_ Heq].
    by eapply Heq.
Qed.

(** X18.  The lipid curves of [Check] for a run of [Get_info].  At every
    slab the curve "lipids from xy" (the per-x residue counts summed
    over x) is at most the curve "lipids".  The two agree when the
    selections are equal (single loop), and also when in every frame of
    the trajectory every head atom has an x index that the grid
    accepts. *)
Theorem Check_lipid_curves c traj run curves z a b :
  Get_info c traj = Some run → Check run = Some curves →
  lipids curves !! z = Some a → lipids_from_xy curves !! z = Some b →
  b <= a ∧
  (same_selection c = true ∨
   Forall (λ f, Forall (x_on_grid (dz c) (dh c) (Z.to_nat (nx_of run))) (u_mem_sel_m f))
     traj →
   b = a).
Proof.
  intros Hrun Hcheck. unfold Check in Hcheck.
  destruct (frames_of run !! 0%nat) as [f0|] eqn:Hf0; [| done].
  injection Hcheck as <-. cbn [lipids lipids_from_xy].
  assert (f0 ∈ frames_of run) as Hin by (by eapply list_elem_of_lookup_2).
  destruct (Get_info_frames _ _ _ _ Hrun Hin) as (_ & f & Hf & ->).
  rewrite list_lookup_fmap. intros Ha.
  destruct (resid_array_zx _ !! z) as [row|] eqn:Hrow; simpl; [| done].
  intros [= <-].
  destruct (frame_lipid_counts _ _ _ _ _ _ _ _ Ha Hrow) as [Hle Heq].
  split; [done |]. intros [Hsame | Hall]; apply Heq; [by left | right].
  by apply (proj1 (Forall_forall _ _) Hall f).
Qed.

Lemma Check_lipid_curves_witness :
  2 <= 2 ∧
  (same_selection sample_config = true ∨
   Forall (λ f, Forall (x_on_grid (dz sample_config) (dh sample_config)
                          (Z.to_nat (nx_of sample_run))) (u_mem_sel_m f))
     sample_traj →
   2 = 2).
Proof.
  apply (Check_lipid_curves sample_config sample_traj sample_run sample_curves 2 2 2);
    vm_compute; reflexivity.
Defined.

(** ** The panels of [Plot_mem_z] and [Plot_mem_z_frame] *)

(** What a returning [Prep4plot] has done: the window it fixed and the
    five sums over that window. *)
Lemma Prep4plot_inversion c run plot :
  Prep4plot c run = Some plot →
  ∃ f0 rest (lo hi : nat) win,
    frames_of run = f0 :: rest ∧
    head (argwhere_pos 0 (resid_array f0)) = Some (Z.of_nat lo) ∧
    last (argwhere_pos 0 (resid_array f0)) = Some (Z.of_nat hi) ∧
    (lo <= hi)%nat ∧
    start_mem (maps plot) = Z.of_nat lo - 2 ∧
    stop_mem (maps plot) = Z.of_nat hi + 2 ∧
    step_mem (maps plot) = 2 ∧
    Py.range (Z.of_nat lo - 2) (Z.of_nat hi + 2) 2 = Some win ∧
    window_sums add2 mem_at win (f0 :: rest) = Some (mem_slab_frame (maps plot)) ∧
    window_sums add2 mem_resid_at win (f0 :: rest)
      = Some (mem_resid_slab_frame (maps plot)) ∧
    window_sums add2 prot_at win (f0 :: rest) = Some (prot_slab_frame (maps plot)) ∧
    window_sums addq (free_area_at c (nx_of run)) win (f0 :: rest)
      = Some (area_x (maps plot)) ∧
    window_sums add1 resid_zx_at win (f0 :: rest) = Some (mem_slab_frame_zx (maps plot)).
Proof.
  intros Hplot. unfold Prep4plot in Hplot.
  destruct (frames_of run) as [|f0 rest] eqn:Efr; [done |].
  change ((f0 :: rest) !! 0%nat) with (Some f0) in Hplot.
  cbn [mbind option_bind] in Hplot.
  destruct (head _) as [lo|] eqn:Elo; cbn [mbind option_bind] in Hplot; [| done].
  destruct (last _) as [hi|] eqn:Ehi; cbn [mbind option_bind] in Hplot; [| done].
  destruct (foldM _ _ _) as [st|] eqn:Eloop; cbn [mbind option_bind] in Hplot; [| done].
  injection Hplot as <-. cbn [maps].
  destruct (argwhere_pos_head _ _ _ Elo) as (klo & Hklo & _ & Blo).
  destruct (argwhere_pos_last _ _ _ Ehi) as (khi & Hkhi & (xhi & Hxhi & Phi) & _).
  assert (klo <= khi)%nat as Hord.
  { destruct (decide (klo <= khi)%nat) as [| Hgt]; [done |].
    pose proof (Blo khi xhi ltac:(lia) Hxhi). lia. }
  assert (lo = Z.of_nat klo) as -> by lia. assert (hi = Z.of_nat khi) as -> by lia.
  set (st0 := {| start_mem := _ |}) in Eloop.
  pose proof (foldM_fields _ _ _ _ (window_pass_fields c (nx_of run)) Eloop)
    as (-> & -> & ->).
  destruct (Py.range (start_mem st0) (stop_mem st0) (step_mem st0)) as [win|] eqn:Hwin;
    [| by rewrite range_up in Hwin by done].
  exists f0, rest, klo, khi, win. do 8 (split; [done |]).
  split; [| split; [| split; [| split]]].
  - by apply (all_frames_accumulate c (nx_of run) _ _ _ (channel_mem c (nx_of run))
                win f0 rest st0 st).
  - by apply (all_frames_accumulate c (nx_of run) _ _ _ (channel_mem_resid c (nx_of run))
                win f0 rest st0 st).
  - by apply (all_frames_accumulate c (nx_of run) _ _ _ (channel_prot c (nx_of run))
                win f0 rest st0 st).
  - by apply (all_frames_accumulate c (nx_of run) _ _ _ (channel_area_x c (nx_of run))
                win f0 rest st0 st).
  - by apply (all_frames_accumulate c (nx_of run) _ _ _ (channel_zx c (nx_of run))
                win f0 rest st0 st).
Qed.

(** A property that every contribution has and that sums keep holds of
    every entry of a map. *)
Lemma window_sums_Forall {A} (P : A → Prop) (add : A → A → A) at_ win fds l :
  (∀ fd z x, fd ∈ fds → at_ fd z = Some x → P x) →
  (∀ a b, P a → P b → P (add a b)) →
  window_sums add at_ win fds = Some l → Forall P l.
Proof.
  intros Hat Hadd. unfold window_sums. destruct fds as [|f0 rest]; [done |].
  assert (∀ fd xs, fd ∈ f0 :: rest → mapM (at_ fd) win = Some xs → Forall P xs) as Hcol.
  { intros fd xs Hin Hxs. apply mapM_Some_1 in Hxs.
    apply Forall_lookup_2. intros i x Hx.
    destruct (Forall2_lookup_r _ _ _ _ _ Hxs Hx) as (z & _ & Hz). by eapply Hat. }
  destruct (mapM (at_ f0) win) as [x0|] eqn:E0; cbn [mbind option_bind]; [| done].
  pose proof (Hcol f0 x0 ltac:(left) E0) as H0.
  assert (∀ fd xs, fd ∈ rest → mapM (at_ fd) win = Some xs → Forall P xs) as Hrest
    by (intros fd xs Hin; apply Hcol; by right).
  clear E0 Hcol Hat. revert x0 H0.
  induction rest as [|fd rest IH]; intros x0 H0; simpl.
  - by intros [= <-].
  - destruct (mapM (at_ fd) win) as [xs|] eqn:Exs; cbn [mbind option_bind]; [| done].
    apply IH.
    + intros fd' xs' Hin. apply Hrest. by right.
    + pose proof (Hrest fd xs ltac:(left) Exs) as Hxs.
      apply Forall_lookup_2. intros i x Hx.
      apply lookup_zip_with_Some in Hx as (a & b & -> & Ha & Hb).
      apply Hadd; [by apply (Forall_lookup_1 _ _ _ _ H0 Ha) |
                   by apply (Forall_lookup_1 _ _ _ _ Hxs Hb)].
Qed.

Lemma py_slice_length {A} (l : list A) m :
  0 < m → length (py_slice l m (- m)) = Z.to_nat (Z.of_nat (length l) - 2 * m).
Proof.
  intros Hm. unfold py_slice, slice_bound.
  rewrite length_drop, length_take.
  rewrite decide_True by lia. rewrite decide_False by lia. lia.
Qed.

Lemma int_half n : Py.int ((1 # 2) * inject_Z (Z.of_nat n)) = Z.of_nat n / 2.
Proof.
  rewrite int_floor_nonneg.
  - unfold Qfloor, Qmult, inject_Z. simpl. f_equal. lia.
  - unfold Qle, Qmult, inject_Z. simpl. lia.
Qed.

(** [zmax] can be computed exactly when the rows of the two maps are
    longer than twice the margin. *)
Lemma zmax_of_is_Some c st n L :
  (2 <= L)%nat → length (area_x st) = L → length (mem_slab_frame_zx st) = L →
  Forall (λ row, length row = n) (area_x st) →
  Forall (λ row : vector, length row = n) (mem_slab_frame_zx st) →
  is_Some (zmax_of c st) ↔ 2 * margin (dz c) < Z.of_nat n.
Proof.
  intros HL La Lb Fa Fb. unfold zmax_of, Py.len. rewrite Lb, int_half.
  assert (0 <= Z.of_nat L / 2 < Z.of_nat L) as Hmid by (Z.div_mod_to_equations; lia).
  unfold Py.get. rewrite La, Lb, (index_nonneg L) by done.
  cbn [mbind option_bind].
  destruct (lookup_lt_is_Some_2 (area_x st) (Z.to_nat (Z.of_nat L / 2))) as [a Ha];
    [lia |].
  destruct (lookup_lt_is_Some_2 (mem_slab_frame_zx st) (Z.to_nat (Z.of_nat L / 2)))
    as [b Hb]; [lia |].
  rewrite Ha, Hb. cbn [mbind option_bind].
  pose proof (Forall_lookup_1 _ _ _ _ Fa Ha) as Lrow_a.
  pose proof (Forall_lookup_1 _ _ _ _ Fb Hb) as Lrow_b. simpl in Lrow_a, Lrow_b.
  assert (2 <= margin (dz c)) as Hm by (unfold margin; lia).
  pose proof (py_slice_length a (margin (dz c)) ltac:(lia)) as Sa.
  pose proof (py_slice_length b (margin (dz c)) ltac:(lia)) as Sb.
  rewrite Lrow_a in Sa. rewrite Lrow_b in Sb.
  unfold np_divide. rewrite decide_True by lia. cbn [mbind option_bind].
  set (q := zip_with np_div _ _).
  assert (length q = Z.to_nat (Z.of_nat n - 2 * margin (dz c))) as Lq
    by (unfold q; rewrite length_zip_with; lia).
  destruct q as [|x q]; simpl in *; split.
  - by intros [? ?].
  - lia.
  - lia.
  - eauto.
Qed.

Lemma enumerate_lookup {X} (xs : list X) i p :
  enumerate xs !! i = Some p ↔ p.1 = i ∧ xs !! i = Some p.2.
Proof.
  unfold enumerate. destruct p as [j x]. simpl. split.
  - intros H. apply lookup_zip_with_Some in H as (j' & x' & [= -> ->] & Hj & Hx).
    apply lookup_seq in Hj as [-> _]. done.
  - intros [-> Hx]. apply lookup_zip_with_Some. exists i, x.
    split; [done |]. split; [| done]. apply lookup_seq. split; [done |].
    by eapply lookup_lt_Some.
Qed.

Lemma mapM_enumerate_lookup {X B} (body : nat * X → option B) (xs : list X) l :
  mapM body (enumerate xs) = Some l →
  length l = length xs ∧
  ∀ i y, l !! i = Some y → ∃ x, xs !! i = Some x ∧ body (i, x) = Some y.
Proof.
  intros Hl. apply mapM_Some_1 in Hl. split.
  - apply Forall2_length in Hl. rewrite <- Hl. unfold enumerate.
    rewrite length_zip, length_seq. lia.
  - intros i y Hy. destruct (Forall2_lookup_r _ _ _ _ _ Hl Hy) as ([j x] & Hp & Hb).
    apply enumerate_lookup in Hp as [Hj Hx]. simpl in Hj, Hx. subst j. by exists x.
Qed.

Lemma mapM_enumerate_is_Some {X B} (body : nat * X → option B) (xs : list X) :
  (∀ i x, xs !! i = Some x → is_Some (body (i, x))) →
  is_Some (mapM body (enumerate xs)).
Proof.
  intros Hbody. apply mapM_is_Some, Forall_lookup_2. intros i [j x] Hp.
  apply enumerate_lookup in Hp as [Hj Hx]. simpl in Hj, Hx. subst j. by apply Hbody.
Qed.

Lemma py_get_nat {A} (l : list A) (i : nat) : Py.get l (Z.of_nat i) = l !! i.
Proof.
  unfold Py.get, Py.index. case_decide as H1.
  - simpl. by rewrite Nat2Z.id.
  - rewrite decide_False by lia. simpl. symmetry. apply lookup_ge_None. lia.
Qed.

(** The rows of the two maps from which [zmax] is computed have [nx]
    entries. *)
Lemma maps_rows c traj run plot :
  Get_info c traj = Some run → Prep4plot c run = Some plot →
  Forall (λ row, length row = Z.to_nat (nx_of run)) (area_x (maps plot)) ∧
  Forall (λ row : vector, length row = Z.to_nat (nx_of run))
    (mem_slab_frame_zx (maps plot)).
Proof.
  intros Hrun Hplot.
  destruct (Prep4plot_inversion _ _ _ Hplot)
    as (f0 & rest & lo & hi & win & Efr & _ & _ & _ & _ & _ & _ & _ & _ & _ & _ & Ha & Hzx).
  rewrite <- Efr in Ha, Hzx.
  assert (∀ fd, fd ∈ frames_of run →
    ∃ f, fd = frame_pass c (Z.to_nat (nz_of run)) (Z.to_nat (nx_of run))
                (Z.to_nat (ny_of run)) f) as Hfd.
  { intros fd Hin. destruct (Get_info_frames _ _ _ _ Hrun Hin) as (_ & f & _ & ->).
    by exists f. }
  split.
  - eapply (window_sums_Forall _ addq); [| | apply Ha].
    + intros fd z x Hin Hx. destruct (Hfd fd Hin) as [f ->].
      unfold free_area_at in Hx.
      destruct (Py.get _ z) as [s|] eqn:Hs; simpl in Hx; [| done].
      injection Hx as <-. unfold free_area_x. rewrite length_fmap.
      apply py_get_elem_of in Hs.
      destruct (frame_shapes c (Z.to_nat (nz_of run)) (Z.to_nat (nx_of run))
                  (Z.to_nat (ny_of run)) f) as (_ & _ & [_ Sp] & _).
      by destruct (proj1 (Forall_forall _ _) Sp s Hs).
    + intros a b La Lb. unfold addq. rewrite length_zip_with. lia.
  - eapply (window_sums_Forall _ add1); [| | apply Hzx].
    + intros fd z x Hin Hx. destruct (Hfd fd Hin) as [f ->].
      unfold resid_zx_at in Hx. apply py_get_elem_of in Hx.
      pose proof (frame_lengths c (Z.to_nat (nz_of run)) (Z.to_nat (nx_of run))
                    (Z.to_nat (ny_of run)) f) as (_ & _ & _ & _ & _ & _ & Hrows).
      by apply (proj1 (Forall_forall _ _) Hrows x Hx).
    + intros a b La Lb. unfold add1. rewrite length_zip_with. lia.
Qed.

Lemma zmax_of_run c traj run plot :
  Get_info c traj = Some run → Prep4plot c run = Some plot →
  is_Some (zmax_of c (maps plot)) ↔ 2 * margin (dz c) < nx_of run.
Proof.
  intros Hrun Hplot.
  destruct (Prep4plot_inversion _ _ _ Hplot)
    as (f0 & rest & lo & hi & win & Efr & _ & _ & Hord & _ & _ & _ & Hwin
        & _ & _ & _ & Ha & Hzx).
  apply window_sums_length in Ha, Hzx.
  destruct (maps_rows _ _ _ _ Hrun Hplot) as [Fa Fb].
  assert (2 <= length win)%nat as HL.
  { rewrite range_up in Hwin by done. injection Hwin as <-.
    rewrite range_from_length.
    assert (2 <= (Z.of_nat hi + 2 - (Z.of_nat lo - 2) + 2 - 1) / 2)
      by (Z.div_mod_to_equations; lia). lia. }
  rewrite (zmax_of_is_Some c (maps plot) (Z.to_nat (nx_of run)) (length win) HL Ha Hzx Fa Fb).
  assert (f0 ∈ frames_of run) as Hin by (rewrite Efr; left).
  destruct (Get_info_frames _ _ _ _ Hrun Hin) as ((_ & Hnx & _) & _).
  by rewrite Z2Nat.id by done.
Qed.

(** X19.  [Plot_mem_z] after [Get_info] and [Prep4plot].  It returns
    exactly when the grid has more than [2*margin] cells along x;
    otherwise the slice [margin:-margin] from which [zmax] is taken is
    empty and [np.max] raises.  When it returns there is one column of
    panels per slab of the window; column [i] is titled with
    [dh*(start_mem + 2*i)] and shows entry [i] of the three 2D maps. *)
Theorem Plot_mem_z_returns_iff c traj run plot :
  Get_info c traj = Some run → Prep4plot c run = Some plot →
  (is_Some (Plot_mem_z c (maps plot)) ↔ 2 * margin (dz c) < nx_of run) ∧
  ∀ zmax panels, Plot_mem_z c (maps plot) = Some (zmax, panels) →
    length panels = length (prot_slab_frame (maps plot)) ∧
    ∀ i pn, panels !! i = Some pn →
      title_z pn = (dh c * inject_Z (start_mem (maps plot) + 2 * Z.of_nat i))%Q ∧
      prot_slab_frame (maps plot) !! i = Some (protein_img pn) ∧
      mem_slab_frame (maps plot) !! i = Some (membrane_img pn) ∧
      mem_resid_slab_frame (maps plot) !! i = Some (lipids_img pn).
Proof.
  intros Hrun Hplot.
  pose proof (zmax_of_run _ _ _ _ Hrun Hplot) as Hzmax.
  destruct (Prep4plot_inversion _ _ _ Hplot)
    as (f0 & rest & lo & hi & win & Efr & _ & _ & Hord & Hstart & Hstop & Hstep & Hwin
        & Hm & Hmr & Hp & _ & _).
  apply window_sums_length in Hm, Hmr, Hp.
  unfold Plot_mem_z. rewrite Hstart, Hstop, Hstep, Hwin.
  split.
  - rewrite <- Hzmax. split.
    + intros [out Hout]. destruct (zmax_of c (maps plot)); [eauto | done].
    + intros [zmax ->]. cbn [mbind option_bind].
      set (body := λ iz : nat * Z, _).
      destruct (mapM_enumerate_is_Some body win) as [panels ->]; [| by eauto].
      intros i z Hz. unfold body. cbn [fst snd]. rewrite !py_get_nat.
      apply lookup_lt_Some in Hz.
      destruct (lookup_lt_is_Some_2 (prot_slab_frame (maps plot)) i) as [p ->]; [lia |].
      destruct (lookup_lt_is_Some_2 (mem_slab_frame (maps plot)) i) as [m ->]; [lia |].
      destruct (lookup_lt_is_Some_2 (mem_resid_slab_frame (maps plot)) i) as [mr ->];
        [lia |].
      simpl. eauto.
  - intros zmax panels.
    destruct (zmax_of c (maps plot)) as [zm|]; cbn [mbind option_bind]; [| done].
    set (body := λ iz : nat * Z, _).
    destruct (mapM body (enumerate win)) as [l|] eqn:El; cbn [mbind option_bind]; [| done].
    intros [= <- <-]. destruct (mapM_enumerate_lookup _ _ _ El) as [Hlen Hpanels].
    split; [lia |]. intros i pn Hpn.
    destruct (Hpanels i pn Hpn) as (z & Hz & Hbody).
    unfold body in Hbody. cbn [fst snd] in Hbody. rewrite !py_get_nat in Hbody.
    destruct (prot_slab_frame (maps plot) !! i) as [p|]; simpl in Hbody; [| done].
    destruct (mem_slab_frame (maps plot) !! i) as [m|]; simpl in Hbody; [| done].
    destruct (mem_resid_slab_frame (maps plot) !! i) as [mr|]; simpl in Hbody; [| done].
    injection Hbody as <-. simpl. repeat split; try done.
    rewrite range_up in Hwin by done. injection Hwin as <-.
    assert (i < Z.to_nat ((Z.of_nat hi + 2 - (Z.of_nat lo - 2) + 2 - 1) / 2))%nat as Hi.
    { apply lookup_lt_Some in Hz. by rewrite range_from_length in Hz. }
    rewrite range_from_lookup in Hz by done. injection Hz as <-.
    do 2 f_equal. lia.
Qed.

Lemma Plot_mem_z_returns_iff_witness :
  (is_Some (Plot_mem_z sample_config (maps sample_plot)) ↔
   2 * margin (dz sample_config) < nx_of sample_run) ∧
  ∀ zmax panels, Plot_mem_z sample_config (maps sample_plot) = Some (zmax, panels) →
    length panels = length (prot_slab_frame (maps sample_plot)) ∧
    ∀ i pn, panels !! i = Some pn →
      title_z pn =
        (dh sample_config * inject_Z (start_mem (maps sample_plot) + 2 * Z.of_nat i))%Q ∧
      prot_slab_frame (maps sample_plot) !! i = Some (protein_img pn) ∧
      mem_slab_frame (maps sample_plot) !! i = Some (membrane_img pn) ∧
      mem_resid_slab_frame (maps sample_plot) !! i = Some (lipids_img pn).
Proof.
  apply (Plot_mem_z_returns_iff sample_config sample_traj sample_run sample_plot).
  - vm_compute. reflexivity.
  - vm_compute. reflexivity.
Defined.

(** The window of a returning [Prep4plot] has no more slabs than the
    grid. *)
Lemma window_fits_grid c traj run plot win :
  Get_info c traj = Some run → Prep4plot c run = Some plot →
  Py.range (start_mem (maps plot)) (stop_mem (maps plot)) (step_mem (maps plot))
    = Some win →
  (length win <= Z.to_nat (nz_of run))%nat.
Proof.
  intros Hrun Hplot Hwin.
  destruct (Prep4plot_inversion _ _ _ Hplot)
    as (f0 & rest & lo & hi & win' & Efr & Hlo & Hhi & Hord & Hstart & Hstop & Hstep
        & Hwin' & _).
  rewrite Hstart, Hstop, Hstep, Hwin' in Hwin. injection Hwin as ->.
  assert (frames_of run !! 0%nat = Some f0) as Hf0 by (by rewrite Efr).
  assert (f0 ∈ frames_of run) as Hin by (rewrite Efr; left).
  destruct (Get_info_frames _ _ _ _ Hrun Hin) as (_ & f & _ & Ef0).
  pose proof (frame_lengths c (Z.to_nat (nz_of run)) (Z.to_nat (nx_of run))
                (Z.to_nat (ny_of run)) f) as (_ & _ & _ & _ & Lr & _).
  cbn zeta in Lr. rewrite <- Ef0 in Lr.
  destruct (argwhere_pos_last _ _ _ Hhi) as (khi & Hkhi & (xhi & Hxhi & _) & _).
  apply lookup_lt_Some in Hxhi. rewrite Lr in Hxhi.
  pose proof (proj1 (Prep4plot_window_cond c run _ f0 _ _ win
                       (Get_info_depth _ _ _ Hrun) Hf0 Hlo Hhi Hwin')
                ltac:(rewrite Hplot; eauto)) as Hall.
  rewrite range_up in Hwin' by done. injection Hwin' as <-.
  rewrite range_from_length in *.
  set (L := (Z.of_nat hi + 2 - (Z.of_nat lo - 2) + 2 - 1) / 2) in *.
  assert (2 <= L) as HL by (subst L; Z.div_mod_to_equations; lia).
  assert (0 < Z.to_nat L)%nat as K0 by lia.
  assert (Z.to_nat (L - 1) < Z.to_nat L)%nat as K1 by lia.
  pose proof (Forall_lookup_1 _ _ _ _ Hall
                (range_from_lookup (Z.to_nat L) (Z.of_nat lo - 2) 2 _ K0)) as H0.
  pose proof (Forall_lookup_1 _ _ _ _ Hall
                (range_from_lookup (Z.to_nat L) (Z.of_nat lo - 2) 2 _ K1)) as H1.
  apply indexable_iff in H0, H1. rewrite Z2Nat.id in H1 by lia. lia.
Qed.

(** X20.  [Plot_mem_z_frame] after [Get_info] and [Prep4plot], for a
    processed frame and a grid of more than [2*margin] cells along x: it
    returns one column of panels per slab of the window; column [i] is
    titled with [dh*(start_mem + 2*i)], the slab of the window, and
    shows slab [i] of the frame's arrays, counted from the bottom of the
    grid. *)
Theorem Plot_mem_z_frame_shows_slab_i c traj run plot k fd :
  Get_info c traj = Some run → Prep4plot c run = Some plot →
  frames_of run !! k = Some fd → 2 * margin (dz c) < nx_of run →
  ∃ zmax panels,
    Plot_mem_z_frame c run (maps plot) (Z.of_nat k) = Some (zmax, panels) ∧
    length panels = length (prot_slab_frame (maps plot)) ∧
    ∀ i pn, panels !! i = Some pn →
      title_z pn = (dh c * inject_Z (start_mem (maps plot) + 2 * Z.of_nat i))%Q ∧
      prot_slab fd !! i = Some (protein_img pn) ∧
      mem_slab fd !! i = Some (membrane_img pn) ∧
      mem_resid_slab fd !! i = Some (lipids_img pn).
Proof.
  intros Hrun Hplot Hfd Hnx.
  destruct (proj2 (zmax_of_run _ _ _ _ Hrun Hplot) Hnx) as [zmax Hzmax].
  destruct (Prep4plot_inversion _ _ _ Hplot)
    as (f0 & rest & lo & hi & win & Efr & _ & _ & Hord & Hstart & Hstop & Hstep & Hwin
        & _ & _ & Hp & _ & _).
  apply window_sums_length in Hp.
  assert (Py.range (start_mem (maps plot)) (stop_mem (maps plot)) (step_mem (maps plot))
          = Some win) as Hwin0 by (by rewrite Hstart, Hstop, Hstep).
  pose proof (window_fits_grid _ _ _ _ _ Hrun Hplot Hwin0) as Hfit.
  assert (fd ∈ frames_of run) as Hin by (by eapply list_elem_of_lookup_2).
  pose proof (proj1 (Forall_forall _ _) (Get_info_depth _ _ _ Hrun) fd Hin)
    as (L1 & L2 & L3 & _).
  unfold Plot_mem_z_frame. rewrite Hzmax, Hwin0. cbn [mbind option_bind].
  set (body := λ iz : nat * Z, _).
  assert (∀ i z, body (i, z) =
    (p ← prot_slab fd !! i; m ← mem_slab fd !! i; mr ← mem_resid_slab fd !! i;
     Some {| title_z := dh c * inject_Z z; protein_img := p;
             membrane_img := m; lipids_img := mr |})) as Hbody.
  { intros i z. unfold body. cbn [fst snd]. rewrite py_get_nat, Hfd.
    cbn [mbind option_bind]. by rewrite !py_get_nat. }
  destruct (mapM_enumerate_is_Some body win) as [panels Hpanels].
  { intros i z Hz. rewrite Hbody. apply lookup_lt_Some in Hz.
    destruct (lookup_lt_is_Some_2 (prot_slab fd) i) as [p ->]; [lia |].
    destruct (lookup_lt_is_Some_2 (mem_slab fd) i) as [m ->]; [lia |].
    destruct (lookup_lt_is_Some_2 (mem_resid_slab fd) i) as [mr ->]; [lia |].
    simpl. eauto. }
  rewrite Hpanels. cbn [mbind option_bind]. exists zmax, panels. split; [done |].
  destruct (mapM_enumerate_lookup _ _ _ Hpanels) as [Hlen Hlook].
  split; [lia |]. intros i pn Hpn.
  destruct (Hlook i pn Hpn) as (z & Hz & Hb). rewrite Hbody in Hb.
  destruct (prot_slab fd !! i) as [p|]; simpl in Hb; [| done].
  destruct (mem_slab fd !! i) as [m|]; simpl in Hb; [| done].
  destruct (mem_resid_slab fd !! i) as [mr|]; simpl in Hb; [| done].
  injection Hb as <-. simpl. repeat split; try done.
  rewrite range_up in Hwin by done. injection Hwin as <-.
  assert (i < Z.to_nat ((Z.of_nat hi + 2 - (Z.of_nat lo - 2) + 2 - 1) / 2))%nat as Hi.
  { apply lookup_lt_Some in Hz. by rewrite range_from_length in Hz. }
  rewrite range_from_lookup in Hz by done. injection Hz as <-.
  rewrite Hstart. do 2 f_equal. lia.
Qed.

Lemma Plot_mem_z_frame_shows_slab_i_witness :
  ∃ zmax panels,
    Plot_mem_z_frame sample_config sample_run (maps sample_plot) (Z.of_nat 1)
      = Some (zmax, panels) ∧
    length panels = length (prot_slab_frame (maps sample_plot)) ∧
    ∀ i pn, panels !! i = Some pn →
      title_z pn =
        (dh sample_config * inject_Z (start_mem (maps sample_plot) + 2 * Z.of_nat i))%Q ∧
      prot_slab sample_data !! i = Some (protein_img pn) ∧
      mem_slab sample_data !! i = Some (membrane_img pn) ∧
      mem_resid_slab sample_data !! i = Some (lipids_img pn).
Proof.
  apply (Plot_mem_z_frame_shows_slab_i sample_config sample_traj sample_run sample_plot
           1 sample_data).
  - vm_compute. reflexivity.
  - vm_compute. reflexivity.
  - reflexivity.
  - vm_compute. reflexivity.
Defined.

(** ** The volumes, cell by cell *)

Section Cells.

Variables (d h : Q) (nz nx ny : nat).

Lemma upd3_cell_of f a t :
  Np.shaped nz nx ny a →
  let '(iz, ix, iy) := cell_index d h (position t) in
  Np.upd3 f a iz ix iy = (λ k, Np.alter3 f k a) <$> cell_of d h nz nx ny t ∧
  Np.get3 a iz ix iy = cell_of d h nz nx ny t ≫= Np.cell a.
Proof.
  intros Ha. unfold cell_of, Np.upd3, Np.get3.
  destruct (cell_index d h (position t)) as [[iz ix] iy].
  rewrite (locate_shaped _ _ _ _ _ _ _ Ha).
  by destruct (Np.locate_dims nz nx ny iz ix iy).
Qed.

Lemma count_lands_snoc k seen t :
  count_if (lands_on d h nz nx ny k) (seen ++ [t]) =
  count_if (lands_on d h nz nx ny k) seen
  + (if decide (cell_of d h nz nx ny t = Some k) then 1 else 0).
Proof.
  rewrite count_if_snoc. unfold lands_on. by case_bool_decide; case_decide.
Qed.

Lemma count_if_nonneg {A} (p : A → bool) l : 0 <= count_if p l.
Proof. unfold count_if, Py.len. lia. Qed.

Lemma cells_count_zeros : cells_count d h nz nx ny [] (Np.zeros3 nz nx ny).
Proof.
  split; [apply shaped_zeros3 |]. intros k v Hv. by apply cell_zeros3 in Hv.
Qed.

(** [a[iz,ix,iy] += 1] under [try], on a counting volume. *)
Lemma cells_count_step seen a t :
  cells_count d h nz nx ny seen a →
  let '(iz, ix, iy) := cell_index d h (position t) in
  cells_count d h nz nx ny (seen ++ [t]) (default a (Np.upd3 Z.succ a iz ix iy)).
Proof.
  intros [Ha Hc]. pose proof (upd3_cell_of Z.succ a t Ha) as Hu.
  destruct (cell_index d h (position t)) as [[iz ix] iy]. destruct Hu as [-> _].
  destruct (cell_of d h nz nx ny t) as [k0|] eqn:Ek; simpl.
  - split; [by apply shaped_alter3 |]. intros k v.
    rewrite cell_alter3, count_lands_snoc, Ek.
    destruct (decide (k0 = k)) as [-> | Hne].
    + rewrite decide_True by done.
      destruct (Np.cell a k) as [v0|] eqn:Hv0; simpl; [| done].
      intros [= <-]. rewrite (Hc _ _ Hv0). lia.
    + rewrite decide_False by congruence. intros Hv. rewrite (Hc _ _ Hv). lia.
  - split; [done |]. intros k v Hv. rewrite count_lands_snoc, Ek.
    rewrite decide_False by done. rewrite (Hc _ _ Hv). lia.
Qed.

Lemma step_all_volume st t :
  let '(iz, ix, iy) := cell_index d h (position t) in
  mem_slab0 (step_all d h nz nx ny st t)
    = default (mem_slab0 st) (Np.upd3 Z.succ (mem_slab0 st) iz ix iy).
Proof.
  unfold step_all. destruct (cell_index d h (position t)) as [[iz ix] iy].
  by destruct (Np.upd3 _ _ _ _ _).
Qed.

Lemma step_same_volume st t :
  let '(iz, ix, iy) := cell_index d h (position t) in
  mem_slab0 (step_same d h nz nx ny st t)
    = default (mem_slab0 st) (Np.upd3 Z.succ (mem_slab0 st) iz ix iy).
Proof.
  unfold step_same, try_same. destruct (cell_index d h (position t)) as [[iz ix] iy].
  destruct (Np.upd3 _ _ _ _ _); simpl; [| done].
  by destruct (register _ _ _ _ _).
Qed.

Lemma step_head_volume st t :
  let '(iz, ix, iy) := cell_index d h (position t) in
  mem_resid_slab0 (step_head d h st t)
    = default (mem_resid_slab0 st) (Np.upd3 Z.succ (mem_resid_slab0 st) iz ix iy).
Proof.
  unfold step_head. destruct (cell_index d h (position t)) as [[iz ix] iy].
  by destruct (Np.upd3 _ _ _ _ _).
Qed.

Lemma membrane_pass_cells same atoms_m atoms_m_a :
  let st := membrane_pass d h nz nx ny same atoms_m atoms_m_a in
  cells_count d h nz nx ny (if same then atoms_m else atoms_m_a) (mem_slab0 st) ∧
  if same then mem_resid_slab0 st = Np.zeros3 nz nx ny
  else cells_count d h nz nx ny atoms_m (mem_resid_slab0 st).
Proof.
  unfold membrane_pass. destruct same; simpl.
  - split.
    + apply (foldl_seen (λ seen st, cells_count d h nz nx ny seen (mem_slab0 st))
               (step_same d h nz nx ny) atoms_m []); [| apply cells_count_zeros].
      intros seen st t Hst. pose proof (step_same_volume st t) as Hv.
      pose proof (cells_count_step seen _ t Hst) as Hs.
      destruct (cell_index d h (position t)) as [[iz ix] iy]. by rewrite Hv.
    + apply (foldl_invariant (λ st, mem_resid_slab0 st = Np.zeros3 nz nx ny)); [done |].
      intros st t Hst. by rewrite step_same_keeps_heads.
  - set (s0 := foldl (step_all d h nz nx ny) (mem_init nz nx ny) atoms_m_a).
    assert (cells_count d h nz nx ny atoms_m_a (mem_slab0 s0)) as H0.
    { apply (foldl_seen (λ seen st, cells_count d h nz nx ny seen (mem_slab0 st))
               (step_all d h nz nx ny) atoms_m_a []); [| apply cells_count_zeros].
      intros seen st t Hst. pose proof (step_all_volume st t) as Hv.
      pose proof (cells_count_step seen _ t Hst) as Hs.
      destruct (cell_index d h (position t)) as [[iz ix] iy]. by rewrite Hv. }
    assert (mem_resid_slab0 s0 = Np.zeros3 nz nx ny) as Hr0.
    { apply (foldl_invariant (λ st, mem_resid_slab0 st = Np.zeros3 nz nx ny)); [done |].
      intros st t Hst. by rewrite step_all_keeps_heads. }
    split.
    + assert (mem_slab0 (foldl (step_head d h) s0 atoms_m) = mem_slab0 s0) as ->; [| done].
      apply (foldl_invariant (λ s, mem_slab0 s = mem_slab0 s0)); [done |].
      intros s t Hs. by rewrite (proj1 (step_head_keeps d h s t)).
    + apply (foldl_seen (λ seen st, cells_count d h nz nx ny seen (mem_resid_slab0 st))
               (step_head d h) atoms_m []).
      * intros seen st t Hst. pose proof (step_head_volume st t) as Hv.
        pose proof (cells_count_step seen _ t Hst) as Hs.
        destruct (cell_index d h (position t)) as [[iz ix] iy]. by rewrite Hv.
      * rewrite Hr0. apply cells_count_zeros.
Qed.

Lemma prot_cells_step mem seen st t :
  Np.shaped nz nx ny mem →
  prot_cells d h nz nx ny mem seen st.1 →
  prot_cells d h nz nx ny mem (seen ++ [t]) (step_prot d h nz nx ny mem st t).1.
Proof.
  intros Hmem [Hp Hc]. unfold step_prot.
  pose proof (upd3_cell_of Z.succ st.1 t Hp) as Hu.
  pose proof (upd3_cell_of Z.succ mem t Hmem) as Hg.
  destruct (cell_index d h (position t)) as [[iz ix] iy].
  destruct Hu as [-> _]. destruct Hg as [_ ->].
  destruct (cell_of d h nz nx ny t) as [k0|] eqn:Ek; simpl.
  2:{ split; [done |]. intros k m p Hm Hpk. rewrite count_lands_snoc, Ek.
      rewrite (decide_False (P := None = Some k)) by done.
      rewrite (Hc _ _ _ Hm Hpk). case_decide; lia. }
  destruct (Np.cell mem k0) as [m0|] eqn:Hm0; simpl.
  2:{ destruct k0 as [[kz kx] ky]. unfold cell_of in Ek; destruct (cell_index d h (position t)) as [[iz' ix'] iy']; apply locate_dims_lt in Ek.
      destruct (cell_shaped _ _ _ _ kz kx ky Hmem) as [? ?]; try lia. congruence. }
  case_decide as Hzero; simpl.
  - split; [by apply shaped_alter3 |]. intros k m p Hm.
    rewrite cell_alter3, count_lands_snoc, Ek.
    destruct (decide (k0 = k)) as [-> | Hne].
    + destruct (Np.cell st.1 k) as [p0|] eqn:Hp0; simpl; [| done].
      intros [= <-]. rewrite (Hc _ _ _ Hm Hp0).
      assert (m = 0) as -> by congruence.
      rewrite (decide_True (P := Some k = Some k)) by done.
      rewrite !(decide_True (P := 0 = 0)) by done. lia.
    + rewrite (decide_False (P := Some k0 = Some k)) by congruence.
      intros Hpk. rewrite (Hc _ _ _ Hm Hpk). case_decide; lia.
  - split; [done |]. intros k m p Hm Hpk. rewrite count_lands_snoc, Ek.
    rewrite (Hc _ _ _ Hm Hpk).
    destruct (decide (k0 = k)) as [-> | Hne].
    + assert (m = m0) as -> by congruence. by rewrite !decide_False by done.
    + rewrite (decide_False (P := Some k0 = Some k)) by congruence. case_decide; lia.
Qed.

Lemma prot_cells_pass mem atoms_p :
  Np.shaped nz nx ny mem →
  prot_cells d h nz nx ny mem atoms_p (protein_pass d h nz nx ny mem atoms_p).1.
Proof.
  intros Hmem. unfold protein_pass.
  apply (foldl_seen (λ seen (st : volume * list warning),
                       prot_cells d h nz nx ny mem seen st.1)
           (step_prot d h nz nx ny mem) atoms_p []).
  - intros seen st t. by apply prot_cells_step.
  - split; [apply shaped_zeros3 |]. simpl. intros k m p _ Hp.
    apply cell_zeros3 in Hp as ->. by case_decide.
Qed.

Lemma cell_of_inside t k :
  cell_of d h nz nx ny t = Some k → (k.1.1 < nz)%nat ∧ (k.1.2 < nx)%nat ∧ (k.2 < ny)%nat.
Proof.
  unfold cell_of. destruct (cell_index d h (position t)) as [[iz ix] iy].
  destruct k as [[kz kx] ky]. apply locate_dims_lt.
Qed.

Lemma wat_cells_step mem prot seen wat t :
  Np.shaped nz nx ny mem → Np.shaped nz nx ny prot →
  wat_cells d h nz nx ny mem prot seen wat →
  wat_cells d h nz nx ny mem prot (seen ++ [t]) (step_wat d h mem prot wat t).
Proof.
  intros Hmem Hprot [Hw Hc]. unfold step_wat.
  pose proof (upd3_cell_of (λ _, 1) wat t Hw) as Hu.
  pose proof (upd3_cell_of Z.succ mem t Hmem) as Hgm.
  pose proof (upd3_cell_of Z.succ prot t Hprot) as Hgp.
  destruct (cell_index d h (position t)) as [[iz ix] iy].
  destruct Hu as [-> _]. destruct Hgm as [_ ->]. destruct Hgp as [_ ->].
  destruct (cell_of d h nz nx ny t) as [k0|] eqn:Ek; simpl.
  2:{ split; [done |]. intros k m p w Hm Hp Hwk. rewrite count_lands_snoc, Ek.
      rewrite (decide_False (P := None = Some k)) by done.
      rewrite (Hc _ _ _ _ Hm Hp Hwk). rewrite Z.add_0_r. done. }
  pose proof (cell_of_inside _ _ Ek) as (Lz & Lx & Ly).
  destruct k0 as [[kz kx] ky]. simpl in Lz, Lx, Ly.
  destruct (cell_shaped _ _ _ _ kz kx ky Hmem Lz Lx Ly) as [m0 Hm0].
  destruct (cell_shaped _ _ _ _ kz kx ky Hprot Lz Lx Ly) as [p0 Hp0].
  cbn [mbind option_bind]. rewrite Hm0, Hp0.
  assert (m0 ≠ 0 ∨ p0 ≠ 0 → wat_cells d h nz nx ny mem prot (seen ++ [t]) wat) as Hkeep.
  { intros Hbusy. split; [done |]. intros k m p w Hm Hp Hwk.
    rewrite count_lands_snoc, Ek. rewrite (Hc _ _ _ _ Hm Hp Hwk).
    destruct (decide (Some (kz, kx, ky) = Some k)) as [[= <-] | Hne].
    - assert (m = m0) as -> by congruence.
      assert (p = p0) as -> by congruence.
      rewrite !decide_False; [done | lia | lia].
    - by rewrite Z.add_0_r. }
  case_decide as Hpz; [| apply Hkeep; by right].
  case_decide as Hmz; [| apply Hkeep; by left].
  change (wat_cells d h nz nx ny mem prot (seen ++ [t])
            (Np.alter3 (λ _, 1) (kz, kx, ky) wat)).
  split; [by apply shaped_alter3 |]. intros k m p w Hm Hp.
  rewrite cell_alter3, count_lands_snoc, Ek.
  pose proof (count_if_nonneg (lands_on d h nz nx ny k) seen) as Hnn.
  destruct (decide ((kz, kx, ky) = k)) as [<- | Hne].
  - assert (m = 0) as -> by congruence.
    assert (p = 0) as -> by congruence.
    destruct (Np.cell wat (kz, kx, ky)) as [w0|]; simpl; [| done].
    intros [= <-]. rewrite (decide_True (P := Some (kz, kx, ky) = Some (kz, kx, ky))) by done.
    rewrite decide_True; [done |]. repeat split; lia.
  - rewrite (decide_False (P := Some (kz, kx, ky) = Some k)) by congruence.
    intros Hwk. rewrite (Hc _ _ _ _ Hm Hp Hwk). by rewrite Z.add_0_r.
Qed.

Lemma wat_cells_pass mem prot atoms_w :
  Np.shaped nz nx ny mem → Np.shaped nz nx ny prot →
  wat_cells d h nz nx ny mem prot atoms_w (water_pass d h nz nx ny mem prot atoms_w).
Proof.
  intros Hmem Hprot. unfold water_pass.
  apply (foldl_seen (wat_cells d h nz nx ny mem prot) (step_wat d h mem prot) atoms_w []).
  - intros seen st t. by apply wat_cells_step.
  - split; [apply shaped_zeros3 |]. intros k m p w _ _ Hw.
    apply cell_zeros3 in Hw as ->. rewrite decide_False; [done |].
    unfold count_if, Py.len. simpl. lia.
Qed.

End Cells.

(** X21.  The four volumes of a frame, cell by cell.  With [m], [p] and
    [w] the numbers of membrane, protein and water atoms of the frame
    whose subscript designates the cell (a negative index counting from
    the far end of its axis): [mem_slab] holds [m]; [prot_slab] holds
    [p] if [m = 0] and 0 otherwise; [wat_slab] holds 1 if the cell has
    no membrane atom, no protein atom and at least one water atom, and 0
    otherwise; [mem_resid_slab] holds the number of head atoms on the
    cell when the selections differ, and 0 when they are equal. *)
Theorem volumes_cell_by_cell c nz nx ny f kz kx ky :
  (kz < nz)%nat → (kx < nx)%nat → (ky < ny)%nat →
  let fd := frame_pass c nz nx ny f in
  let here := lands_on (dz c) (dh c) nz nx ny (kz, kx, ky) in
  let m := count_if here (if same_selection c then u_mem_sel_m f else u_mem_sel_m_a f) in
  let p := count_if here (u_mem_sel_p f) in
  let w := count_if here (u_mem_sel_w f) in
  Np.cell (mem_slab fd) (kz, kx, ky) = Some m ∧
  Np.cell (mem_resid_slab fd) (kz, kx, ky)
    = Some (if same_selection c then 0 else count_if here (u_mem_sel_m f)) ∧
  Np.cell (prot_slab fd) (kz, kx, ky) = Some (if decide (m = 0) then p else 0) ∧
  Np.cell (wat_slab fd) (kz, kx, ky)
    = Some (if decide (m = 0 ∧ p = 0 ∧ 0 < w) then 1 else 0).
Proof.
  intros Lz Lx Ly fd here m p w.
  destruct (frame_shapes c nz nx ny f) as (Sm & Sr & Sp & Sw). fold fd in Sm, Sr, Sp, Sw.
  destruct (cell_shaped _ _ _ _ kz kx ky Sm Lz Lx Ly) as [vm Hvm].
  destruct (cell_shaped _ _ _ _ kz kx ky Sr Lz Lx Ly) as [vr Hvr].
  destruct (cell_shaped _ _ _ _ kz kx ky Sp Lz Lx Ly) as [vp Hvp].
  destruct (cell_shaped _ _ _ _ kz kx ky Sw Lz Lx Ly) as [vw Hvw].
  rewrite Hvm, Hvr, Hvp, Hvw.
  pose proof (membrane_pass_cells (dz c) (dh c) nz nx ny (same_selection c)
                (u_mem_sel_m f) (u_mem_sel_m_a f)) as [[_ Hm] Hr].
  pose proof (prot_cells_pass (dz c) (dh c) nz nx ny (mem_slab fd) (u_mem_sel_p f) Sm)
    as [_ Hp].
  pose proof (wat_cells_pass (dz c) (dh c) nz nx ny (mem_slab fd) (prot_slab fd)
                (u_mem_sel_w f) Sm Sp) as [_ Hw].
  assert (vm = m) as -> by (by apply Hm).
  assert (vp = if decide (m = 0) then p else 0) as -> by (by eapply Hp).
  split; [done |]. split; [| split; [done |]].
  - f_equal. unfold fd, frame_pass, after_membrane in Hvr. cbn [mem_resid_slab] in Hvr.
    destruct (same_selection c).
    + rewrite Hr in Hvr. by apply cell_zeros3 in Hvr.
    + destruct Hr as [_ Hr]. by apply Hr.
  - f_equal. rewrite (Hw _ _ _ _ Hvm Hvp Hvw). fold here. fold w.
    destruct (decide (m = 0)) as [Hm0 | Hm0].
    + destruct (decide (p = 0)); repeat case_decide; try done; try lia; tauto.
    + rewrite !decide_False; [done | tauto | tauto].
Qed.

Lemma volumes_cell_by_cell_witness :
  let fd := frame_pass sample_config 11 10 10 sample_frame in
  let here := lands_on (dz sample_config) (dh sample_config) 11 10 10 (2, 1, 1)%nat in
  let m := count_if here (if same_selection sample_config then u_mem_sel_m sample_frame
                          else u_mem_sel_m_a sample_frame) in
  let p := count_if here (u_mem_sel_p sample_frame) in
  let w := count_if here (u_mem_sel_w sample_frame) in
  Np.cell (mem_slab fd) (2, 1, 1)%nat = Some m ∧
  Np.cell (mem_resid_slab fd) (2, 1, 1)%nat
    = Some (if same_selection sample_config then 0
            else count_if here (u_mem_sel_m sample_frame)) ∧
  Np.cell (prot_slab fd) (2, 1, 1)%nat = Some (if decide (m = 0) then p else 0) ∧
  Np.cell (wat_slab fd) (2, 1, 1)%nat
    = Some (if decide (m = 0 ∧ p = 0 ∧ 0 < w) then 1 else 0).
Proof.
  apply (volumes_cell_by_cell sample_config 11 10 10 sample_frame 2 1 1); lia.
Defined.

(** ** Residue counts when the selections differ *)

(** What [register] leaves in the per-slab lists, whether or not the
    append to the per-(z,x) list raises. *)
Lemma register_slab_lists n iz ix rl rlzx :
  (state_of (register n iz ix rl rlzx)).1 =
  match Py.index (length rl) iz with
  | Some kz =>
    match rl !! kz with
    | Some ids => if decide (n ∈ ids) then rl else alter (λ l, l ++ [n]) kz rl
    | None => rl
    end
  | None => rl
  end.
Proof.
  unfold register.
  destruct (Py.index (length rl) iz) as [kz|]; [| done].
  destruct (rl !! kz) as [ids|]; [| done].
  case_decide; [done |].
  destruct (Py.index (length rlzx) iz) as [kz'|]; [| done].
  destruct (rlzx !! kz') as [row|]; [| done].
  by destruct (Py.index (length row) ix).
Qed.

Lemma step_head_slab_lists d h st t :
  resid_list (step_head d h st t) =
  (state_of (register (resid t) (cell_index d h (position t)).1.1
               (cell_index d h (position t)).1.2 (resid_list st) (resid_list_zx st))).1.
Proof.
  unfold step_head. destruct (cell_index d h (position t)) as [[iz ix] iy]. simpl.
  by destruct (Np.upd3 _ _ _ _ _).
Qed.

Lemma head_ids_inv_step d h nz seen st t :
  head_ids_inv d h nz seen (resid_list st) →
  head_ids_inv d h nz (seen ++ [t]) (resid_list (step_head d h st t)).
Proof.
  intros [Hlen Hinv]. rewrite step_head_slab_lists, register_slab_lists, Hlen.
  assert (∀ kz' n, (∃ t', t' ∈ seen ++ [t] ∧ slab_of d h nz t' = Some kz' ∧ resid t' = n) ↔
            (∃ t', t' ∈ seen ∧ slab_of d h nz t' = Some kz' ∧ resid t' = n) ∨
            (slab_of d h nz t = Some kz' ∧ n = resid t)) as Hsplit.
  { intros kz' n. split.
    - intros (t' & [Hin | ->%list_elem_of_singleton]%elem_of_app & Hs & Hn).
      + left. by exists t'.
      + right. done.
    - intros [(t' & Hin & Hrest) | [Hs ->]].
      + exists t'. split; [apply elem_of_app; by left | done].
      + exists t. split; [apply elem_of_app; right; by apply list_elem_of_singleton |].
        done. }
  fold (slab_of d h nz t).
  destruct (slab_of d h nz t) as [kz|] eqn:Eslab.
  2:{ split; [done |]. intros kz' ids' Hids'. destruct (Hinv _ _ Hids') as [Hnd Hel].
      split; [done |]. intros n. rewrite Hsplit, <- Hel. split; [by left |].
      by intros [Hn | [? _]]. }
  destruct (resid_list st !! kz) as [ids|] eqn:Hids.
  2:{ apply lookup_ge_None in Hids. unfold slab_of in Eslab. apply index_lt in Eslab. lia. }
  destruct (Hinv _ _ Hids) as [Hnd Hel].
  case_decide as Hmem.
  - split; [done |]. intros kz' ids' Hids'. destruct (Hinv _ _ Hids') as [Hnd' Hel'].
    split; [done |]. intros n. rewrite Hsplit, <- Hel'. split; [by left |].
    intros [Hn | [[= <-] ->]]; [done |]. congruence.
  - split; [by rewrite length_alter |]. intros kz' ids'.
    destruct (decide (kz = kz')) as [<- | Hne].
    + rewrite list_lookup_alter_eq, Hids. simpl. intros [= <-]. split.
      * apply NoDup_app. split; [done |]. split; [| apply NoDup_singleton].
        intros x Hx ->%list_elem_of_singleton. done.
      * intros n. rewrite Hsplit, elem_of_app, list_elem_of_singleton, <- Hel.
        split; (intros [Hn | Hn]; [by left | right]); [done | by destruct Hn].
    + rewrite list_lookup_alter_ne by done. intros Hids'.
      destruct (Hinv _ _ Hids') as [Hnd' Hel']. split; [done |].
      intros n. rewrite Hsplit, <- Hel'. split; [by left |].
      intros [Hn | [[= ->] _]]; done.
Qed.

(** X22.  When the selections differ (as with the defaults), the
    residue count of a slab is the number of distinct residue ids among
    the head atoms whose z index designates the slab: an atom counts
    whether or not its x and y indices are on the grid, and a negative
    z index counts from the top. *)
Theorem two_loop_residue_count c nz nx ny f kz r :
  same_selection c = false →
  resid_array (frame_pass c nz nx ny f) !! kz = Some r →
  r = slab_residues (dz c) (dh c) nz (u_mem_sel_m f) kz.
Proof.
  intros Hsame. unfold frame_pass, after_membrane. simpl.
  rewrite Hsame. unfold membrane_pass.
  set (s0 := foldl (step_all (dz c) (dh c) nz nx ny) (mem_init nz nx ny) (u_mem_sel_m_a f)).
  assert (resid_list s0 = replicate nz []) as H0.
  { apply (foldl_invariant (λ st, resid_list st = replicate nz [])); [done |].
    intros st t Hst. by rewrite (proj1 (zx_le_step_all (dz c) (dh c) nz nx ny st t)). }
  pose proof (foldl_seen (λ seen st, head_ids_inv (dz c) (dh c) nz seen (resid_list st))
                (step_head (dz c) (dh c)) (u_mem_sel_m f) [] s0
                (head_ids_inv_step (dz c) (dh c) nz)) as [_ Hinv].
  { rewrite H0. split; [apply length_replicate |]. intros k ids Hids.
    apply lookup_replicate in Hids as [-> _]. split; [constructor |].
    intros n. split; [by intros ?%elem_of_nil |]. by intros (t & ?%elem_of_nil & _). }
  simpl in Hinv. set (st := foldl _ s0 _) in *.
  rewrite list_lookup_fmap.
  destruct (resid_list st !! kz) as [ids|] eqn:Hids; simpl; [| done].
  intros [= <-]. destruct (Hinv _ _ Hids) as [Hnd Hel].
  unfold slab_residues, Py.len. f_equal. apply Permutation_length.
  apply NoDup_Permutation; [done | apply NoDup_remove_dups |].
  intros n. rewrite Hel, elem_of_remove_dups, list_elem_of_fmap. split.
  - intros (t & Hin & Hslab & <-). exists t. split; [done |].
    by apply list_elem_of_filter.
  - intros (t & -> & [Hslab Hin]%list_elem_of_filter). by exists t.
Qed.

Lemma two_loop_residue_count_witness :
  2 = slab_residues (dz sample_config) (dh sample_config) 11 (u_mem_sel_m sample_frame) 2.
Proof.
  apply (two_loop_residue_count sample_config 11 10 10 sample_frame 2 2);
    vm_compute; reflexivity.
Defined.
